(** * citus_tools.c: running commands on worker nodes and the cluster
      connectivity check

    A shallow embedding of [src/backend/distributed/operations/citus_tools.c].
    The C functions become functions over an explicit backend state (the log
    of connection events, the handles issued so far and the number of
    interrupt checks made); [ereport(ERROR, ...)] and a pending interrupt
    become a raised outcome.  libpq and the connection management layer are
    the environment: their answers are the members of the class
    [RemoteEnv], over which every theorem is universally quantified. *)

From Stdlib Require Import ZArith Lia Ascii DecimalString.
From Stdlib Require OrderedTypeEx DecimalZ DecimalPos.
From stdpp Require Import base list strings sorting.

Local Open Scope string_scope.
Local Open Scope list_scope.
Local Open Scope Z_scope.

(** ** C integers and formatting *)

(** [(uint32) x] and [(int) x]: the wrap-around of the two casts applied to a
    port on its way into a ["%d"] conversion. *)
Definition to_uint32 (x : Z) : Z := x mod 2 ^ 32.
Definition to_int32 (x : Z) : Z := (x + 2 ^ 31) mod 2 ^ 32 - 2 ^ 31.

Definition int32_ok (x : Z) : Prop := - 2 ^ 31 <= x < 2 ^ 31.

(** The ["%d"] conversion of [appendStringInfo]. *)
Definition format_d (x : Z) : string := NilZero.string_of_int (Z.to_int x).

(** [StringInfo] buffers are modelled by their contents. *)
Definition makeStringInfo : string := "".
Definition resetStringInfo (buffer : string) : string := "".
Definition appendStringInfo (buffer text : string) : string := buffer +:+ text.

(** ** libpq data *)

Inductive ConnStatusType :=
| CONNECTION_OK
| CONNECTION_BAD
| CONNECTION_STARTED
| CONNECTION_MADE
| CONNECTION_AWAITING_RESPONSE
| CONNECTION_AUTH_OK
| CONNECTION_SETENV
| CONNECTION_SSL_STARTUP
| CONNECTION_NEEDED.

Inductive ExecStatusType :=
| PGRES_EMPTY_QUERY
| PGRES_COMMAND_OK
| PGRES_TUPLES_OK
| PGRES_COPY_OUT
| PGRES_COPY_IN
| PGRES_BAD_RESPONSE
| PGRES_NONFATAL_ERROR
| PGRES_FATAL_ERROR
| PGRES_COPY_BOTH
| PGRES_SINGLE_TUPLE.

#[global] Instance ConnStatusType_eq_dec : EqDecision ConnStatusType.
Proof. solve_decision. Defined.

#[global] Instance ExecStatusType_eq_dec : EqDecision ExecStatusType.
Proof. solve_decision. Defined.

(** A [PGresult]: its status, the command tag, the column count and the rows
    (a cell is [None] when it is SQL NULL). *)
Record PGresult := {
  resultStatus : ExecStatusType;
  cmdStatus : string;
  nfields : Z;
  tuples : list (list (option string))
}.

(** [PQresultStatus] of a NULL result is [PGRES_FATAL_ERROR]. *)
Definition PQresultStatus (queryResult : option PGresult) : ExecStatusType :=
  match queryResult with
  | Some res => resultStatus res
  | None => PGRES_FATAL_ERROR
  end.

Definition PQcmdStatus (queryResult : option PGresult) : string :=
  match queryResult with
  | Some res => cmdStatus res
  | None => ""
  end.

Definition PQntuples (queryResult : option PGresult) : Z :=
  match queryResult with
  | Some res => Z.of_nat (length (tuples res))
  | None => 0
  end.

Definition PQnfields (queryResult : option PGresult) : Z :=
  match queryResult with
  | Some res => nfields res
  | None => 0
  end.

(** The cell at [(row, column)], when the result has one. *)
Definition cell (queryResult : option PGresult) (row column : Z)
  : option (option string) :=
  match queryResult with
  | Some res =>
      if (row <? 0) || (column <? 0) then None
      else tuples res !! Z.to_nat row ≫= (.!! Z.to_nat column)
  | None => None
  end.

(** [PQgetisnull] answers 1 for a NULL cell and also for a cell that is out
    of range; [PQgetvalue] of a cell that holds a value is that value. *)
Definition PQgetisnull (queryResult : option PGresult) (row column : Z) : Z :=
  match cell queryResult row column with
  | Some (Some _) => 0
  | _ => 1
  end.

Definition PQgetvalue (queryResult : option PGresult) (row column : Z) : string :=
  match cell queryResult row column with
  | Some (Some value) => value
  | _ => ""
  end.

(** ** Connections and the environment *)

(** A connection handle: which handle it is, and the node it points at. *)
Record MultiConnection := {
  connectionId : nat;
  hostname : string;
  port : Z
}.

(** Modelled from the spec: [connection_management.h] is missing; the
    request for a connection that is "forced new, not pooled" is a bit of the
    connection flags, here the lowest one. *)
Definition FORCE_NEW_CONNECTION : Z := 1.

Definition forced_new (connectionFlags : Z) : bool :=
  negb (Z.land connectionFlags FORCE_NEW_CONNECTION =? 0).

(** Modelled from the spec: [remote_commands.h] is missing; the return codes
    of [ExecuteOptionalRemoteCommand] are three distinct integers, one of
    which says that the round trip completed. *)
Definition RESPONSE_OKAY : Z := 0.
Definition QUERY_SEND_FAILED : Z := 1.
Definition RESPONSE_NOT_OKAY : Z := 2.

(** What the remote side and the host answer.  Every member stands for one
    external call of the source. *)
Class RemoteEnv := {
  (** [PQstatus(connection->pgConn)] once the connection attempt is over *)
  PQstatus : MultiConnection → ConnStatusType;
  (** what [SendRemoteCommand(connection, queryString)] returns: 0 when the
      command could not be sent *)
  querySentAnswer : MultiConnection → string → Z;
  (** [PQerrorMessage(connection->pgConn)], [None] for a NULL pointer *)
  PQerrorMessage : MultiConnection → option string;
  (** [GetRemoteCommandResult(connection, raiseInterrupts)] *)
  GetRemoteCommandResult : MultiConnection → option PGresult;
  (** the non-blocking calls, as answered during sweep [k] of the poll loop *)
  PQstatusAt : MultiConnection → nat → ConnStatusType;
  PQconsumeInput : MultiConnection → nat → Z;
  PQisBusy : MultiConnection → nat → Z;
  PQgetResult : MultiConnection → nat → option PGresult;
  (** whether the [n]-th [CHECK_FOR_INTERRUPTS()] finds an interrupt pending *)
  InterruptPending : nat → bool;
  (** the setting [citus.remote_task_check_interval], in milliseconds *)
  RemoteTaskCheckInterval : Z;
  (** what the [n]-th [ExecuteOptionalRemoteCommand(connection, command,
      &result)] of the backend yields: return code and result *)
  optionalCommandAnswer :
    MultiConnection → string → nat → Z * option PGresult;
  (** [ParseBoolField(result, rowIndex, columnIndex)] *)
  ParseBoolField : option PGresult → Z → Z → bool
}.

(** ** Result evaluation *)

Definition line_break : Ascii.ascii := "010"%char.

(** [strchr(errorMessage, '\n')] followed by [*firstNewlineIndex = '\0']. *)
Fixpoint trim_at_line_break (errorMessage : string) : string :=
  match errorMessage with
  | EmptyString => EmptyString
  | String c rest =>
      if Ascii.eqb c line_break then EmptyString
      else String c (trim_at_line_break rest)
  end.

Fixpoint has_line_break (text : string) : bool :=
  match text with
  | EmptyString => false
  | String c rest => Ascii.eqb c line_break || has_line_break rest
  end.

Definition default_error_message : string :=
  "An error occurred while running the query".

Section Evaluation.
Context `{!RemoteEnv}.

Definition StoreErrorMessage (connection : MultiConnection)
    (queryResultString : string) : string :=
  let errorMessage :=
    match PQerrorMessage connection with
    | Some errorMessage => trim_at_line_break errorMessage
    | None => default_error_message
    end in
  appendStringInfo queryResultString errorMessage.

(** Returns [success] and the new contents of [queryResultString]. *)
Definition EvaluateQueryResult (connection : MultiConnection)
    (queryResult : option PGresult) (queryResultString : string)
    : bool * string :=
  let resultStatus := PQresultStatus queryResult in
  if decide (resultStatus = PGRES_COMMAND_OK) then
    let commandStatus := PQcmdStatus queryResult in
    (true, appendStringInfo queryResultString commandStatus)
  else if decide (resultStatus = PGRES_TUPLES_OK) then
    let ntuples := PQntuples queryResult in
    let nfields := PQnfields queryResult in
    if negb (nfields =? 1) then
      (false, appendStringInfo queryResultString
                "expected a single column in query target")
    else if 1 <? ntuples then
      (false, appendStringInfo queryResultString
                "expected a single row in query result")
    else
      let row := 0 in
      let column := 0 in
      if PQgetisnull queryResult row column =? 0 then
        let queryResultValue := PQgetvalue queryResult row column in
        (true, appendStringInfo queryResultString queryResultValue)
      else (true, queryResultString)
  else
    (false, StoreErrorMessage connection queryResultString).

End Evaluation.

(** ** The backend: state, errors, effects *)

Inductive ConnEvent :=
| Requested (connectionFlags : Z) (connection : MultiConnection)
| Sent (connection : MultiConnection) (command : string)
| Executed (connection : MultiConnection) (command : string)
| Closed (connection : MultiConnection)
| Slept (microseconds : Z).

Record Backend := {
  eventLog : list ConnEvent;
  handlesIssued : nat;
  interruptChecks : nat;
  commandsExecuted : nat
}.

Definition record_event (event : ConnEvent) (backend : Backend) : Backend :=
  {| eventLog := eventLog backend ++ [event];
     handlesIssued := handlesIssued backend;
     interruptChecks := interruptChecks backend;
     commandsExecuted := commandsExecuted backend |}.

Inductive SqlErrorCode :=
| ERRCODE_SYNTAX_ERROR
| ERRCODE_INVALID_COLUMN_DEFINITION.

Inductive PgError :=
| ErrorReport (sqlerrcode : SqlErrorCode) (message : string)
| QueryCanceled.

(** How a call ends: it returns, it is left by a raised error, or the model
    ran out of sweeps of the poll loop. *)
Inductive Outcome (A : Type) :=
| Returned (value : A)
| Raised (error : PgError)
| OutOfFuel.
Arguments Returned {A} value.
Arguments Raised {A} error.
Arguments OutOfFuel {A}.

Definition M (A : Type) : Type := Backend → Outcome A * Backend.

#[global] Instance M_ret : MRet M := λ A value backend, (Returned value, backend).

#[global] Instance M_bind : MBind M := λ A B k m backend,
  match m backend with
  | (Returned value, backend') => k value backend'
  | (Raised error, backend') => (Raised error, backend')
  | (OutOfFuel, backend') => (OutOfFuel, backend')
  end.

Definition ereport {A} (sqlerrcode : SqlErrorCode) (message : string) : M A :=
  λ backend, (Raised (ErrorReport sqlerrcode message), backend).

Definition out_of_fuel {A} : M A := λ backend, (OutOfFuel, backend).

(** The body of a [for] loop run once for every index, threading the local
    variables [locals] the body assigns. *)
Fixpoint for_loop {L I} (indices : list I) (body : I → L → M L) (locals : L)
  : M L :=
  match indices with
  | [] => mret locals
  | index :: rest => locals' ← body index locals; for_loop rest body locals'
  end.

Definition issue_handle (connectionFlags : Z) (nodeName : string) (nodePort : Z)
  : M MultiConnection :=
  λ backend,
    let connection := {| connectionId := handlesIssued backend;
                         hostname := nodeName;
                         port := nodePort |} in
    (Returned connection,
     {| eventLog := eventLog backend ++ [Requested connectionFlags connection];
        handlesIssued := S (handlesIssued backend);
        interruptChecks := interruptChecks backend;
        commandsExecuted := commandsExecuted backend |}).

(** [GetNodeConnection] returns once the attempt is over, [StartNodeConnection]
    at once; either way the caller reads the state off [PQstatus]. *)
Definition GetNodeConnection := issue_handle.
Definition StartNodeConnection := issue_handle.

Definition FinishConnectionEstablishment (connection : MultiConnection)
  : M unit := mret ().

Definition CloseConnection (connection : MultiConnection) : M unit :=
  λ backend, (Returned (), record_event (Closed connection) backend).

Definition pg_usleep (microseconds : Z) : M unit :=
  λ backend, (Returned (), record_event (Slept microseconds) backend).

Section Effects.
Context `{!RemoteEnv}.

Definition SendRemoteCommand (connection : MultiConnection) (command : string)
  : M Z :=
  λ backend, (Returned (querySentAnswer connection command),
              record_event (Sent connection command) backend).

Definition ExecuteOptionalRemoteCommand (connection : MultiConnection)
    (command : string) : M (Z * option PGresult) :=
  λ backend,
    (Returned (optionalCommandAnswer connection command
                 (commandsExecuted backend)),
     {| eventLog := eventLog backend ++ [Executed connection command];
        handlesIssued := handlesIssued backend;
        interruptChecks := interruptChecks backend;
        commandsExecuted := S (commandsExecuted backend) |}).

Definition CHECK_FOR_INTERRUPTS : M unit :=
  λ backend,
    let backend' := {| eventLog := eventLog backend;
                       handlesIssued := handlesIssued backend;
                       interruptChecks := S (interruptChecks backend);
                       commandsExecuted := commandsExecuted backend |} in
    if InterruptPending (interruptChecks backend)
    then (Raised QueryCanceled, backend')
    else (Returned (), backend').

End Effects.

(** ** The sequential executor *)

Section Executors.
Context `{!RemoteEnv}.

(** Returns the query status and the new contents of [queryResultString]. *)
Definition ExecuteRemoteQueryOrCommand (nodeName : string) (nodePort : Z)
    (queryString : string) (queryResultString : string) : M (bool * string) :=
  let nodePort := to_uint32 nodePort in
  let connectionFlags := FORCE_NEW_CONNECTION in
  connection ← GetNodeConnection connectionFlags nodeName (to_int32 nodePort);
  if decide (PQstatus connection ≠ CONNECTION_OK) then
    mret (false,
          appendStringInfo queryResultString
            ("failed to connect to " +:+ nodeName +:+ ":" +:+
             format_d (to_int32 nodePort)))
  else
    querySent ← SendRemoteCommand connection queryString;
    if querySent =? 0 then
      mret (false,
            appendStringInfo queryResultString
              ("failed to send query to " +:+ nodeName +:+ ":" +:+
               format_d (to_int32 nodePort)))
    else
      let queryResult := GetRemoteCommandResult connection in
      let '(success, queryResultString) :=
        EvaluateQueryResult connection queryResult queryResultString in
      (* close the connection *)
      CloseConnection connection;;
      mret (success, queryResultString).

(** The body of the loop of [ExecuteCommandsAndStoreResults], run for
    [commandIndex] on the two arrays the loop assigns. *)
Definition execute_command (nodeNameArray : list string)
    (nodePortArray : list Z) (commandStringArray : list string)
    (commandIndex : nat) (arrays : list bool * list string)
  : M (list bool * list string) :=
  let '(statusArray, resultStringArray) := arrays in
  let nodeName := nodeNameArray !!! commandIndex in
  let nodePort := nodePortArray !!! commandIndex in
  let queryString := commandStringArray !!! commandIndex in
  let queryResultString := resultStringArray !!! commandIndex in
  '(success, queryResultString) ←
    ExecuteRemoteQueryOrCommand nodeName nodePort queryString
      queryResultString;
  let resultStringArray :=
    <[commandIndex := queryResultString]> resultStringArray in
  let statusArray := <[commandIndex := success]> statusArray in
  CHECK_FOR_INTERRUPTS;;
  mret (statusArray, resultStringArray).

Definition ExecuteCommandsAndStoreResults (nodeNameArray : list string)
    (nodePortArray : list Z) (commandStringArray : list string)
    (statusArray : list bool) (resultStringArray : list string)
    (commandCount : Z) : M (list bool * list string) :=
  for_loop (seq 0 (Z.to_nat commandCount))
    (execute_command nodeNameArray nodePortArray commandStringArray)
    (statusArray, resultStringArray).

(** ** The parallel executor *)

(** The arrays and the counter that [ExecuteCommandsInParallelAndStoreResults]
    assigns. *)
Record ParallelLocals := {
  statusArray : list bool;
  resultStringArray : list string;
  connectionArray : list (option MultiConnection);
  finishedCount : Z
}.

Definition set_status (commandIndex : nat) (status : bool)
    (locals : ParallelLocals) : ParallelLocals :=
  {| statusArray := <[commandIndex := status]> (statusArray locals);
     resultStringArray := resultStringArray locals;
     connectionArray := connectionArray locals;
     finishedCount := finishedCount locals |}.

Definition set_result (commandIndex : nat) (queryResultString : string)
    (locals : ParallelLocals) : ParallelLocals :=
  {| statusArray := statusArray locals;
     resultStringArray :=
       <[commandIndex := queryResultString]> (resultStringArray locals);
     connectionArray := connectionArray locals;
     finishedCount := finishedCount locals |}.

Definition set_connection (commandIndex : nat)
    (connection : option MultiConnection) (locals : ParallelLocals)
  : ParallelLocals :=
  {| statusArray := statusArray locals;
     resultStringArray := resultStringArray locals;
     connectionArray := <[commandIndex := connection]> (connectionArray locals);
     finishedCount := finishedCount locals |}.

Definition increment_finished (locals : ParallelLocals) : ParallelLocals :=
  {| statusArray := statusArray locals;
     resultStringArray := resultStringArray locals;
     connectionArray := connectionArray locals;
     finishedCount := finishedCount locals + 1 |}.

(** Returns [finished], [*resultStatus] and the new contents of
    [queryResultString], as answered during sweep [sweep]. *)
Definition GetConnectionStatusAndResult (connection : MultiConnection)
    (sweep : nat) (queryResultString : string) : bool * bool * string :=
  let connectionStatus := PQstatusAt connection sweep in
  let queryResultString := resetStringInfo queryResultString in
  if decide (connectionStatus = CONNECTION_BAD) then
    (true, false, appendStringInfo queryResultString "connection lost")
  else
    let consumeInput := PQconsumeInput connection sweep in
    if consumeInput =? 0 then
      (true, false,
       appendStringInfo queryResultString "query result unavailable")
    else if negb (PQisBusy connection sweep =? 0) then
      (* check later if busy *)
      (false, false, queryResultString)
    else
      (* query result is available at this point *)
      let queryResult := PQgetResult connection sweep in
      let '(success, queryResultString) :=
        EvaluateQueryResult connection queryResult queryResultString in
      (true, success, queryResultString).

(** start connections asynchronously *)
Definition start_connection (nodeNameArray : list string)
    (nodePortArray : list Z) (commandIndex : nat) (locals : ParallelLocals)
  : M ParallelLocals :=
  let nodeName := nodeNameArray !!! commandIndex in
  let nodePort := nodePortArray !!! commandIndex in
  let connectionFlags := FORCE_NEW_CONNECTION in
  connection ← StartNodeConnection connectionFlags nodeName nodePort;
  mret (set_connection commandIndex (Some connection) locals).

(** establish connections *)
Definition establish_connection (nodeNameArray : list string)
    (nodePortArray : list Z) (commandIndex : nat) (locals : ParallelLocals)
  : M ParallelLocals :=
  match connectionArray locals !!! commandIndex with
  | None =>
      (* not met: the loop before this one has filled every entry *)
      mret locals
  | Some connection =>
      let queryResultString := resultStringArray locals !!! commandIndex in
      let nodeName := nodeNameArray !!! commandIndex in
      let nodePort := nodePortArray !!! commandIndex in
      FinishConnectionEstablishment connection;;
      if decide (PQstatus connection ≠ CONNECTION_OK) then
        let queryResultString :=
          appendStringInfo queryResultString
            ("failed to connect to " +:+ nodeName +:+ ":" +:+
             format_d nodePort) in
        mret (increment_finished
                (set_connection commandIndex None
                   (set_status commandIndex false
                      (set_result commandIndex queryResultString locals))))
      else
        mret (set_status commandIndex true locals)
  end.

(** send queries at once *)
Definition send_query (commandStringArray : list string) (commandIndex : nat)
    (locals : ParallelLocals) : M ParallelLocals :=
  let queryString := commandStringArray !!! commandIndex in
  let queryResultString := resultStringArray locals !!! commandIndex in
  match connectionArray locals !!! commandIndex with
  | None =>
      (* nothing to send, the error string has been filled already *)
      mret locals
  | Some connection =>
      querySent ← SendRemoteCommand connection queryString;
      if querySent =? 0 then
        let queryResultString :=
          StoreErrorMessage connection queryResultString in
        CloseConnection connection;;
        mret (increment_finished
                (set_connection commandIndex None
                   (set_status commandIndex false
                      (set_result commandIndex queryResultString locals))))
      else mret locals
  end.

(** check for query results: the body of the inner [for] of one sweep *)
Definition check_query_result (sweep : nat) (commandIndex : nat)
    (locals : ParallelLocals) : M ParallelLocals :=
  let queryResultString := resultStringArray locals !!! commandIndex in
  match connectionArray locals !!! commandIndex with
  | None => mret locals
  | Some connection =>
      let '(queryFinished, success, queryResultString) :=
        GetConnectionStatusAndResult connection sweep queryResultString in
      let locals := set_result commandIndex queryResultString locals in
      if queryFinished then
        let locals :=
          set_connection commandIndex None
            (set_status commandIndex success (increment_finished locals)) in
        CloseConnection connection;;
        mret locals
      else mret locals
  end.

(** [while (finishedCount < commandCount)]: [fuel] bounds the number of
    sweeps the model follows, [sweep] counts the sweeps made. *)
Fixpoint poll_loop (fuel : nat) (sweep : nat) (commandCount : Z)
    (locals : ParallelLocals) : M ParallelLocals :=
  if finishedCount locals <? commandCount then
    match fuel with
    | O => out_of_fuel
    | S fuel =>
        locals ← for_loop (seq 0 (Z.to_nat commandCount))
                   (check_query_result sweep) locals;
        CHECK_FOR_INTERRUPTS;;
        (if finishedCount locals <? commandCount then
           let sleepIntervalPerCycle := RemoteTaskCheckInterval * 1000 in
           pg_usleep sleepIntervalPerCycle
         else mret ());;
        poll_loop fuel (S sweep) commandCount locals
    end
  else mret locals.

Definition ExecuteCommandsInParallelAndStoreResults (fuel : nat)
    (nodeNameArray : list string) (nodePortArray : list Z)
    (commandStringArray : list string) (statusArray : list bool)
    (resultStringArray : list string) (commandCount : Z)
  : M (list bool * list string) :=
  let indices := seq 0 (Z.to_nat commandCount) in
  let locals :=
    {| statusArray := statusArray;
       resultStringArray := resultStringArray;
       connectionArray := replicate (Z.to_nat commandCount) None;
       finishedCount := 0 |} in
  locals ← for_loop indices (start_connection nodeNameArray nodePortArray)
             locals;
  locals ← for_loop indices (establish_connection nodeNameArray nodePortArray)
             locals;
  locals ← for_loop indices (send_query commandStringArray) locals;
  locals ← poll_loop fuel 0 commandCount locals;
  let '{| statusArray := statusArray;
          resultStringArray := resultStringArray |} := locals in
  mret (statusArray, resultStringArray).

(** ** The entry point [master_run_on_worker] *)

(** Type identifiers of [catalog/pg_type.h]. *)
Definition BOOLOID : Z := 16.
Definition INT4OID : Z := 23.
Definition TEXTOID : Z := 25.

(** [SFRM_Materialize] of [nodes/execnodes.h]. *)
Definition SFRM_Materialize : Z := 2.

(** A tuple descriptor: the [atttypid] of each attribute. *)
Definition TupleDesc : Type := list Z.
Definition natts (tupleDescriptor : TupleDesc) : Z :=
  Z.of_nat (length tupleDescriptor).
Definition atttypid (tupleDescriptor : TupleDesc) (attribute : nat) : Z :=
  tupleDescriptor !!! attribute.

Record ReturnSetInfo := {
  allowedModes : Z;
  expectedDesc : TupleDesc
}.

(** A row of the result: [node_name], [node_port], [success], [result]. *)
Record ResultRow := {
  node_name : string;
  node_port : Z;
  success : bool;
  result : string
}.

(** [ArrayObjectCount] of a deconstructed array. *)
Definition ArrayObjectCount {A} (arrayObject : list A) : Z :=
  Z.of_nat (length arrayObject).

(** Returns the command count and the three arrays it filled. *)
Definition ParseCommandParameters (nodeNameArrayObject : list string)
    (nodePortArrayObject : list Z) (commandStringArrayObject : list string)
  : M (Z * list string * list Z * list string) :=
  let nodeNameCount := ArrayObjectCount nodeNameArrayObject in
  let nodePortCount := ArrayObjectCount nodePortArrayObject in
  let commandStringCount := ArrayObjectCount commandStringArrayObject in
  if negb (nodeNameCount =? nodePortCount)
     || negb (nodeNameCount =? commandStringCount) then
    ereport ERRCODE_SYNTAX_ERROR
      "expected same number of node name, port, and query string"
  else
    let indices := seq 0 (Z.to_nat nodeNameCount) in
    let nodeNames := (λ index, nodeNameArrayObject !!! index) <$> indices in
    let nodePorts := (λ index, nodePortArrayObject !!! index) <$> indices in
    let commandStrings :=
      (λ index, commandStringArrayObject !!! index) <$> indices in
    mret (nodeNameCount, nodeNames, nodePorts, commandStrings).

(** Prepares the result tuples from the individual query results. *)
Definition CreateTupleStore (nodeNameArray : list string)
    (nodePortArray : list Z) (statusArray : list bool)
    (resultArray : list string) (commandCount : Z) : list ResultRow :=
  (λ commandIndex,
     {| node_name := nodeNameArray !!! commandIndex;
        node_port := nodePortArray !!! commandIndex;
        success := statusArray !!! commandIndex;
        result := resultArray !!! commandIndex |})
  <$> seq 0 (Z.to_nat commandCount).

(** [CheckCitusVersion(ERROR)] guards the entry points against a mismatch of
    the installed extension; the model starts once it has passed. *)
Definition master_run_on_worker (fuel : nat) (rsinfo : option ReturnSetInfo)
    (nodeNames : list string) (nodePorts : list Z) (commands : list string)
    (parallel : bool) : M (list ResultRow) :=
  (* check to see if caller supports us returning a tuplestore *)
  match rsinfo with
  | None =>
      ereport ERRCODE_SYNTAX_ERROR
        "materialize mode required, but it is not allowed in this context"
  | Some rsinfo =>
      if Z.land (allowedModes rsinfo) SFRM_Materialize =? 0 then
        ereport ERRCODE_SYNTAX_ERROR
          "materialize mode required, but it is not allowed in this context"
      else
        '(commandCount, nodeNameArray, nodePortArray, commandStringArray) ←
          ParseCommandParameters nodeNames nodePorts commands;
        let parallelExecution := parallel in
        (* get the requested return tuple description *)
        let tupleDescriptor := expectedDesc rsinfo in
        if negb (natts tupleDescriptor =? 4)
           || negb (atttypid tupleDescriptor 0 =? TEXTOID)
           || negb (atttypid tupleDescriptor 1 =? INT4OID)
           || negb (atttypid tupleDescriptor 2 =? BOOLOID)
           || negb (atttypid tupleDescriptor 3 =? TEXTOID) then
          ereport ERRCODE_INVALID_COLUMN_DEFINITION
            "query-specified return tuple and function return type are not compatible"
        else
          (* prepare storage for status and result values *)
          let statusArray := replicate (Z.to_nat commandCount) false in
          let resultArray := replicate (Z.to_nat commandCount) makeStringInfo in
          '(statusArray, resultArray) ←
            (if parallelExecution then
               ExecuteCommandsInParallelAndStoreResults fuel nodeNameArray
                 nodePortArray commandStringArray statusArray resultArray
                 commandCount
             else
               ExecuteCommandsAndStoreResults nodeNameArray nodePortArray
                 commandStringArray statusArray resultArray commandCount);
          mret (CreateTupleStore nodeNameArray nodePortArray statusArray
                  resultArray commandCount)
  end.

(** ** The connectivity check *)

(** simple query to run on workers to check connectivity *)
Definition CONNECTIVITY_CHECK_QUERY : string := "SELECT 1".
Definition CONNECTIVITY_CHECK_COLUMNS : Z := 5.

Record WorkerNode := {
  workerName : string;
  workerPort : Z
}.

(** A row of the health report; [check_result] is [None] for SQL NULL. *)
Record ConnectivityRow := {
  from_nodename : string;
  from_nodeport : Z;
  to_nodename : string;
  to_nodeport : Z;
  check_result : option bool
}.

(** Modelled from the spec: [CompareWorkerNodes] ([worker_manager.c]) is
    missing; worker nodes are "ordered by a total order over (name, port)",
    the name compared first and the port second. *)
Definition CompareWorkerNodes (lhs rhs : WorkerNode) : comparison :=
  match String.compare (workerName lhs) (workerName rhs) with
  | Eq => Z.compare (workerPort lhs) (workerPort rhs)
  | nameCompare => nameCompare
  end.

(** Modelled from the spec: [SortList] ([listutils.c]) is missing; it sorts
    the list by the order of the comparator it is given. *)
Definition SortList {A} (pointerList : list A)
    (comparator : A → A → comparison) : list A :=
  merge_sort (λ lhs rhs, comparator lhs rhs ≠ Gt) pointerList.

Definition CheckConnectionToNode (nodeName : string) (nodePort : Z) : M bool :=
  let connectionFlags := 0 in
  connection ←
    GetNodeConnection connectionFlags nodeName (to_int32 (to_uint32 nodePort));
  '(responseStatus, _) ←
    ExecuteOptionalRemoteCommand connection CONNECTIVITY_CHECK_QUERY;
  mret (responseStatus =? RESPONSE_OKAY).

(** [PG_GETARG_UINT32(1)] reads the port argument as a [uint32]. *)
Definition citus_check_connection_to_node (nodeName : string) (nodePort : Z)
  : M bool :=
  let nodePort := to_uint32 nodePort in
  success ← CheckConnectionToNode nodeName nodePort;
  mret success.

Definition GetConnectivityCheckCommand (nodeName : string) (nodePort : Z)
  : string :=
  let nodePort := to_uint32 nodePort in
  "SELECT citus_check_connection_to_node('" +:+ nodeName +:+ "', " +:+
  format_d (to_int32 nodePort) +:+ ")".

(** One probe: the body of the loop over the target worker nodes.  The
    ports are held in [const int] locals, which [Int32GetDatum] stores. *)
Definition check_target (sourceWorkerNode : WorkerNode)
    (connectionToSourceNode : MultiConnection) (targetWorkerNode : WorkerNode)
    (tupleStore : list ConnectivityRow) : M (list ConnectivityRow) :=
  let sourceNodeName := workerName sourceWorkerNode in
  let sourceNodePort := to_int32 (workerPort sourceWorkerNode) in
  let targetNodeName := workerName targetWorkerNode in
  let targetNodePort := to_int32 (workerPort targetWorkerNode) in
  let connectivityCheckCommandToTargetNode :=
    GetConnectivityCheckCommand targetNodeName targetNodePort in
  '(executionResult, result) ←
    ExecuteOptionalRemoteCommand connectionToSourceNode
      connectivityCheckCommandToTargetNode;
  let success :=
    if negb (executionResult =? RESPONSE_OKAY) then None
    else
      let rowIndex := 0 in
      let columnIndex := 0 in
      Some (ParseBoolField result rowIndex columnIndex) in
  mret (tupleStore ++
        [{| from_nodename := sourceNodeName;
            from_nodeport := sourceNodePort;
            to_nodename := targetNodeName;
            to_nodeport := targetNodePort;
            check_result := success |}]).

(** The body of the loop over the source worker nodes; the port of the
    source is held in a [const int] local. *)
Definition check_source (workerNodeList : list WorkerNode)
    (sourceWorkerNode : WorkerNode) (tupleStore : list ConnectivityRow)
  : M (list ConnectivityRow) :=
  let sourceNodeName := workerName sourceWorkerNode in
  let sourceNodePort := to_int32 (workerPort sourceWorkerNode) in
  let connectionFlags := 0 in
  (* open a connection to the source node using the synchronous api *)
  connectionToSourceNode ←
    GetNodeConnection connectionFlags sourceNodeName sourceNodePort;
  (* the second iteration over workerNodeList for the target worker nodes *)
  for_loop workerNodeList
    (check_target sourceWorkerNode connectionToSourceNode) tupleStore.

(** [ActiveReadableNodeList()] reads the cluster membership; the list it
    returns is the argument here. *)
Definition StoreAllConnectivityChecks (ActiveReadableNodeList : list WorkerNode)
    (tupleStore : list ConnectivityRow) : M (list ConnectivityRow) :=
  let workerNodeList := ActiveReadableNodeList in
  (* we want to check for connectivity in a deterministic order *)
  let workerNodeList := SortList workerNodeList CompareWorkerNodes in
  for_loop workerNodeList (check_source workerNodeList) tupleStore.

Definition citus_check_cluster_node_health
    (ActiveReadableNodeList : list WorkerNode) : M (list ConnectivityRow) :=
  let tupleStore := [] in
  StoreAllConnectivityChecks ActiveReadableNodeList tupleStore.

End Executors.

(* ================================================================== *)
(** * Vocabulary of the properties *)

(** ** Calls and their errors *)

(** The errors of the spec's class InputValidationError are the reports
    raised with [ereport(ERROR, ...)]; a cancellation is not one of them. *)
Definition InputValidationError (error : PgError) : Prop :=
  ∃ sqlerrcode message, error = ErrorReport sqlerrcode message.

Definition materialize_allowed (rsinfo : option ReturnSetInfo) : Prop :=
  ∃ info, rsinfo = Some info ∧ Z.land (allowedModes info) SFRM_Materialize ≠ 0.

Definition expected_shape (rsinfo : option ReturnSetInfo) : Prop :=
  ∃ info, rsinfo = Some info
          ∧ expectedDesc info = [TEXTOID; INT4OID; BOOLOID; TEXTOID].

Definition same_length (nodeNames : list string) (nodePorts : list Z)
    (commands : list string) : Prop :=
  length nodeNames = length nodePorts ∧ length nodeNames = length commands.

Definition valid_call (rsinfo : option ReturnSetInfo) (nodeNames : list string)
    (nodePorts : list Z) (commands : list string) : Prop :=
  materialize_allowed rsinfo
  ∧ expected_shape rsinfo
  ∧ same_length nodeNames nodePorts commands.

(** ** Connections and the event log *)

(** The handle issued for [node] when [n] handles were issued before. *)
Definition handle_for (n : nat) (nodeName : string) (nodePort : Z)
  : MultiConnection :=
  {| connectionId := n; hostname := nodeName; port := nodePort |}.

(** Every run of [m] takes the backend to an [R]-related one, and an error it
    raises satisfies [E]. *)
Definition maintains (R : relation Backend) (E : PgError → Prop) {A}
    (m : M A) : Prop :=
  ∀ backend, R backend (m backend).2
             ∧ ∀ error, (m backend).1 = Raised error → E error.

(** The log only grows, and by events that satisfy [P]. *)
Definition grows_by (P : ConnEvent → Prop) : relation Backend :=
  λ backend backend',
    ∃ events, eventLog backend' = eventLog backend ++ events ∧ Forall P events.

Definition cancel_only (error : PgError) : Prop := error = QueryCanceled.

(** What the two executors may log: requests for forced new connections,
    commands sent, connections closed, sleeps. *)
Definition executor_event (event : ConnEvent) : Prop :=
  match event with
  | Requested connectionFlags _ => connectionFlags = FORCE_NEW_CONNECTION
  | Executed _ _ => False
  | _ => True
  end.

(** What the connectivity check may log: requests with no flag set, and the
    probes run over the connections. *)
Definition probe_event (event : ConnEvent) : Prop :=
  match event with
  | Requested connectionFlags _ => connectionFlags = 0
  | Executed _ _ => True
  | _ => False
  end.

(** The connections over which the events send a command, in the order of
    the log. *)
Definition sent_over (events : list ConnEvent) : list MultiConnection :=
  omap (λ event,
          match event with
          | Sent connection _ => Some connection
          | _ => None
          end) events.

(** The connections the events close, in the order of the log. *)
Definition closed_in (events : list ConnEvent) : list MultiConnection :=
  omap (λ event,
          match event with
          | Closed connection => Some connection
          | _ => None
          end) events.

(** The connections the events request, in the order of the log. *)
Definition requested_in (events : list ConnEvent) : list MultiConnection :=
  omap (λ event,
          match event with
          | Requested _ connection => Some connection
          | _ => None
          end) events.

(** The lengths of the sleeps among the events, in microseconds. *)
Definition slept_in (events : list ConnEvent) : list Z :=
  omap (λ event,
          match event with
          | Slept microseconds => Some microseconds
          | _ => None
          end) events.

(** What the poll loop may log: connections closed, and sleeps. *)
Definition settling_event (event : ConnEvent) : Prop :=
  match event with
  | Closed _ | Slept _ => True
  | _ => False
  end.

(** ** Texts *)

(** Whether the character [c] occurs in [text]. *)
Fixpoint occurs (c : Ascii.ascii) (text : string) : bool :=
  match text with
  | EmptyString => false
  | String c' rest => Ascii.eqb c' c || occurs c rest
  end.

(** ** Worker nodes and the rows of the health report *)

Definition WorkerNode_le (lhs rhs : WorkerNode) : Prop :=
  CompareWorkerNodes lhs rhs ≠ Gt.

Definition row_source (row : ConnectivityRow) : WorkerNode :=
  {| workerName := from_nodename row; workerPort := from_nodeport row |}.

Definition row_target (row : ConnectivityRow) : WorkerNode :=
  {| workerName := to_nodename row; workerPort := to_nodeport row |}.

Definition row_pair (row : ConnectivityRow) : WorkerNode * WorkerNode :=
  (row_source row, row_target row).

(** A node as the report names it: its port as the C [int] that the check
    holds it in. *)
Definition reported (node : WorkerNode) : WorkerNode :=
  {| workerName := workerName node; workerPort := to_int32 (workerPort node) |}.

(** Every source paired with every target, sources outermost. *)
Definition ordered_pairs (nodes : list WorkerNode)
  : list (WorkerNode * WorkerNode) :=
  source ← nodes; (λ target, (source, target)) <$> nodes.

(** ** The slots of the parallel executor *)

(** The slot of a command: its status, its result string, its connection. *)
Definition slot : Type := bool * string * option MultiConnection.

Definition get_slot (locals : ParallelLocals) (commandIndex : nat) : slot :=
  (statusArray locals !!! commandIndex,
   resultStringArray locals !!! commandIndex,
   connectionArray locals !!! commandIndex).

(** The number of entries of [connectionArray] that are NULL. *)
Fixpoint count_closed (connections : list (option MultiConnection)) : nat :=
  match connections with
  | [] => 0
  | None :: connections => S (count_closed connections)
  | Some _ :: connections => count_closed connections
  end.

(** The arrays hold [K] entries each, and [finishedCount] counts the slots
    whose connection is NULL. *)
Record slots_ok (K : nat) (locals : ParallelLocals) : Prop := {
  ok_status : length (statusArray locals) = K;
  ok_result : length (resultStringArray locals) = K;
  ok_connection : length (connectionArray locals) = K;
  ok_finished :
    finishedCount locals = Z.of_nat (count_closed (connectionArray locals))
}.

(** ** Sample inputs and environments *)

Definition one_cell (value : string) : PGresult :=
  {| resultStatus := PGRES_TUPLES_OK;
     cmdStatus := "SELECT 1";
     nfields := 1;
     tuples := [[Some value]] |}.

(** A row set of two columns and two rows, and one of one column and no
    row. *)
Definition two_by_two : PGresult :=
  {| resultStatus := PGRES_TUPLES_OK;
     cmdStatus := "SELECT 2";
     nfields := 2;
     tuples := [[Some "1"; Some "2"]; [Some "3"; Some "4"]] |}.

Definition no_rows : PGresult :=
  {| resultStatus := PGRES_TUPLES_OK;
     cmdStatus := "SELECT 0";
     nfields := 1;
     tuples := [] |}.

(** Every node is reachable and answers at once. *)
Definition calm : RemoteEnv :=
  {| PQstatus _ := CONNECTION_OK;
     querySentAnswer _ _ := 1;
     PQerrorMessage _ := Some "";
     GetRemoteCommandResult _ := Some (one_cell "1");
     PQstatusAt _ _ := CONNECTION_OK;
     PQconsumeInput _ _ := 1;
     PQisBusy _ _ := 0;
     PQgetResult _ _ := Some (one_cell "1");
     InterruptPending _ := false;
     RemoteTaskCheckInterval := 10;
     optionalCommandAnswer _ _ _ := (RESPONSE_OKAY, Some (one_cell "t"));
     ParseBoolField queryResult row column :=
       bool_decide (PQgetvalue queryResult row column = "t") |}.

(** Connections are established, but no command can be sent. *)
Definition send_fails : RemoteEnv :=
  {| PQstatus _ := CONNECTION_OK;
     querySentAnswer _ _ := 0;
     PQerrorMessage _ := Some "no connection to the server";
     GetRemoteCommandResult _ := None;
     PQstatusAt _ _ := CONNECTION_BAD;
     PQconsumeInput _ _ := 0;
     PQisBusy _ _ := 0;
     PQgetResult _ _ := None;
     InterruptPending _ := false;
     RemoteTaskCheckInterval := 10;
     optionalCommandAnswer _ _ _ := (QUERY_SEND_FAILED, None);
     ParseBoolField queryResult row column :=
       bool_decide (PQgetvalue queryResult row column = "t") |}.

(** Every command fails on the remote side with a message of two lines. *)
Definition remote_error : RemoteEnv :=
  {| PQstatus _ := CONNECTION_OK;
     querySentAnswer _ _ := 1;
     PQerrorMessage _ :=
       Some ("ERROR:  division by zero"
             +:+ String line_break "CONTEXT:  SQL function");
     GetRemoteCommandResult _ := None;
     PQstatusAt _ _ := CONNECTION_OK;
     PQconsumeInput _ _ := 1;
     PQisBusy _ _ := 0;
     PQgetResult _ _ := None;
     InterruptPending _ := false;
     RemoteTaskCheckInterval := 10;
     optionalCommandAnswer _ _ _ := (RESPONSE_NOT_OKAY, None);
     ParseBoolField queryResult row column :=
       bool_decide (PQgetvalue queryResult row column = "t") |}.


(** The node named [down] cannot be reached, neither from here nor from its
    peers; every other node answers at once. *)
Definition node_down (down : string) : RemoteEnv :=
  {| PQstatus connection :=
       if decide (hostname connection = down) then CONNECTION_BAD
       else CONNECTION_OK;
     querySentAnswer _ _ := 1;
     PQerrorMessage _ := Some "";
     GetRemoteCommandResult _ := Some (one_cell "1");
     PQstatusAt _ _ := CONNECTION_OK;
     PQconsumeInput _ _ := 1;
     PQisBusy _ _ := 0;
     PQgetResult _ _ := Some (one_cell "1");
     InterruptPending _ := false;
     RemoteTaskCheckInterval := 10;
     optionalCommandAnswer connection command _ :=
       if decide (hostname connection = down) then (QUERY_SEND_FAILED, None)
       else if decide (command = GetConnectivityCheckCommand down 5432)
            then (RESPONSE_OKAY, Some (one_cell "f"))
            else (RESPONSE_OKAY, Some (one_cell "t"));
     ParseBoolField queryResult row column :=
       bool_decide (PQgetvalue queryResult row column = "t") |}.

(** Every node is reachable, answers come after two sweeps, and the first
    interrupt check finds a cancel request. *)
Definition cancelled : RemoteEnv :=
  {| PQstatus _ := CONNECTION_OK;
     querySentAnswer _ _ := 1;
     PQerrorMessage _ := Some "";
     GetRemoteCommandResult _ := Some (one_cell "1");
     PQstatusAt _ _ := CONNECTION_OK;
     PQconsumeInput _ _ := 1;
     PQisBusy _ sweep := if (sweep <? 2)%nat then 1 else 0;
     PQgetResult _ _ := Some (one_cell "1");
     InterruptPending _ := true;
     RemoteTaskCheckInterval := 10;
     optionalCommandAnswer _ _ _ := (RESPONSE_OKAY, Some (one_cell "t"));
     ParseBoolField queryResult row column :=
       bool_decide (PQgetvalue queryResult row column = "t") |}.

(** Every node is reachable and answers at once; the interrupt checks find
    an interrupt pending from the [n]-th on. *)
Definition cancelled_at (n : nat) : RemoteEnv :=
  {| PQstatus _ := CONNECTION_OK;
     querySentAnswer _ _ := 1;
     PQerrorMessage _ := Some "";
     GetRemoteCommandResult _ := Some (one_cell "1");
     PQstatusAt _ _ := CONNECTION_OK;
     PQconsumeInput _ _ := 1;
     PQisBusy _ _ := 0;
     PQgetResult _ _ := Some (one_cell "1");
     InterruptPending k := (n <=? k)%nat;
     RemoteTaskCheckInterval := 10;
     optionalCommandAnswer _ _ _ := (RESPONSE_OKAY, Some (one_cell "t"));
     ParseBoolField queryResult row column :=
       bool_decide (PQgetvalue queryResult row column = "t") |}.

(** Every node is reachable and answers come after two sweeps. *)
Definition slow : RemoteEnv :=
  {| PQstatus _ := CONNECTION_OK;
     querySentAnswer _ _ := 1;
     PQerrorMessage _ := Some "";
     GetRemoteCommandResult _ := Some (one_cell "1");
     PQstatusAt _ _ := CONNECTION_OK;
     PQconsumeInput _ _ := 1;
     PQisBusy _ sweep := if (sweep <? 2)%nat then 1 else 0;
     PQgetResult _ _ := Some (one_cell "1");
     InterruptPending _ := false;
     RemoteTaskCheckInterval := 10;
     optionalCommandAnswer _ _ _ := (RESPONSE_OKAY, Some (one_cell "t"));
     ParseBoolField queryResult row column :=
       bool_decide (PQgetvalue queryResult row column = "t") |}.

Definition idle : Backend :=
  {| eventLog := [];
     handlesIssued := 0;
     interruptChecks := 0;
     commandsExecuted := 0 |}.

Definition set_returning : option ReturnSetInfo :=
  Some {| allowedModes := 3;
          expectedDesc := [TEXTOID; INT4OID; BOOLOID; TEXTOID] |}.

Definition node_a : WorkerNode := {| workerName := "a"; workerPort := 5432 |}.
Definition node_b : WorkerNode := {| workerName := "b"; workerPort := 5432 |}.


(** ** What depends on the answers of the environment *)

Section Vocabulary.
Context `{!RemoteEnv}.

Definition no_interrupt : Prop := ∀ n, InterruptPending n = false.

(** The events of an executor that was issued the handles from [lo] up to
    [hi]: it requests forced new connections only, all of them among these
    handles; it sends commands only over connections it has requested, and
    no two commands over one handle; it closes only connections that were
    established and over which it has sent a command, and none of them
    twice. *)
Definition fresh_use (lo hi : nat) (events : list ConnEvent) : Prop :=
  Forall executor_event events
  ∧ (∀ connectionFlags connection,
       Requested connectionFlags connection ∈ events →
       (lo ≤ connectionId connection < hi)%nat)
  ∧ (∀ connection,
       connection ∈ sent_over events →
       Requested FORCE_NEW_CONNECTION connection ∈ events)
  ∧ NoDup (connectionId <$> sent_over events)
  ∧ (∀ connection,
       connection ∈ closed_in events →
       connection ∈ sent_over events ∧ PQstatus connection = CONNECTION_OK)
  ∧ NoDup (connectionId <$> closed_in events).

Definition uses_fresh : relation Backend :=
  λ backend backend',
    (handlesIssued backend ≤ handlesIssued backend')%nat
    ∧ ∃ events,
        eventLog backend' = eventLog backend ++ events
        ∧ fresh_use (handlesIssued backend) (handlesIssued backend') events.

(** Every connection over which the events send a command is closed by
    them; in the sequential mode, provided that the command was sent. *)
Definition closes_sent (parallel : bool) (events : list ConnEvent) : Prop :=
  ∀ connection command,
    Sent connection command ∈ events →
    parallel = true ∨ querySentAnswer connection command ≠ 0 →
    connection ∈ closed_in events.

Definition sent_are_closed : relation Backend :=
  λ backend backend',
    ∃ events,
      eventLog backend' = eventLog backend ++ events
      ∧ closes_sent false events.

(** During sweep [sweep] the poll loop finds [connection] broken, or failing
    to deliver input, or not busy any more. *)
Definition responds (connection : MultiConnection) (sweep : nat) : Prop :=
  PQstatusAt connection sweep = CONNECTION_BAD
  ∨ PQconsumeInput connection sweep = 0
  ∨ PQisBusy connection sweep = 0.

(** Every connection a parallel run polls is found, during some sweep, to
    have answered or failed. *)
Definition responsive (nodeNames : list string) (nodePorts : list Z)
    (backend : Backend) : Prop :=
  ∀ i nodeName nodePort,
    nodeNames !! i = Some nodeName → nodePorts !! i = Some nodePort →
    ∃ sweep,
      responds (handle_for (handlesIssued backend + i) nodeName nodePort) sweep.

(** Every probe completes and reports that the target was reached. *)
Definition all_reachable : Prop :=
  ∀ connection command n,
    (optionalCommandAnswer connection command n).1 = RESPONSE_OKAY
    ∧ ParseBoolField (optionalCommandAnswer connection command n).2 0 0 = true.

(** No command run over a connection to [node] completes its round trip. *)
Definition unreachable_from_controller (node : WorkerNode) : Prop :=
  ∀ connection command n,
    hostname connection = workerName node →
    port connection = to_int32 (workerPort node) →
    (optionalCommandAnswer connection command n).1 ≠ RESPONSE_OKAY.

(** The row stored for the probe from [source] to [target], run over
    [connection] as the [n]-th remote command of the backend. *)
Definition probe_row (source : WorkerNode) (connection : MultiConnection)
    (target : WorkerNode) (n : nat) : ConnectivityRow :=
  let answer :=
    optionalCommandAnswer connection
      (GetConnectivityCheckCommand (workerName target)
         (to_int32 (workerPort target))) n in
  {| from_nodename := workerName source;
     from_nodeport := to_int32 (workerPort source);
     to_nodename := workerName target;
     to_nodeport := to_int32 (workerPort target);
     check_result :=
       if negb (answer.1 =? RESPONSE_OKAY) then None
       else Some (ParseBoolField answer.2 0 0) |}.

Definition probe_rows (source : WorkerNode) (connection : MultiConnection)
    (targets : list WorkerNode) (n : nat) : list ConnectivityRow :=
  imap (λ j target, probe_row source connection target (n + j)) targets.

Definition probe_events (connection : MultiConnection)
    (targets : list WorkerNode) : list ConnEvent :=
  (λ target,
     Executed connection
       (GetConnectivityCheckCommand (workerName target)
          (to_int32 (workerPort target))))
  <$> targets.

(** The rows and the events of the [i]-th source, when [h] handles were
    issued and [e] remote commands run before the first source. *)
Definition source_rows (workerNodeList : list WorkerNode) (h e : nat)
    (i : nat) (source : WorkerNode) : list ConnectivityRow :=
  probe_rows source
    (handle_for (h + i) (workerName source) (to_int32 (workerPort source)))
    workerNodeList (e + i * length workerNodeList).

Definition source_events (workerNodeList : list WorkerNode) (h : nat)
    (i : nat) (source : WorkerNode) : list ConnEvent :=
  let connection :=
    handle_for (h + i) (workerName source) (to_int32 (workerPort source)) in
  Requested 0 connection :: probe_events connection workerNodeList.

(** What the three loops after the start of the connections do to a slot. *)
Definition establish_slot (nodeName : string) (nodePort : Z) (s : slot)
  : slot :=
  match s with
  | (status, text, Some connection) =>
      if decide (PQstatus connection ≠ CONNECTION_OK) then
        (false,
         appendStringInfo text
           ("failed to connect to " +:+ nodeName +:+ ":" +:+ format_d nodePort),
         None)
      else (true, text, Some connection)
  | _ => s
  end.

Definition send_slot (queryString : string) (s : slot) : slot :=
  match s with
  | (status, text, Some connection) =>
      if querySentAnswer connection queryString =? 0 then
        (false, StoreErrorMessage connection text, None)
      else s
  | _ => s
  end.

Definition sweep_slot (sweep : nat) (s : slot) : slot :=
  match s with
  | (status, text, Some connection) =>
      let '(queryFinished, success, text') :=
        GetConnectionStatusAndResult connection sweep text in
      if queryFinished then (success, text', None)
      else (status, text', Some connection)
  | _ => s
  end.

(** What the same three loops log for a slot. *)
Definition establish_events (s : slot) : list ConnEvent := [].

Definition send_events (queryString : string) (s : slot) : list ConnEvent :=
  match s with
  | (_, _, Some connection) =>
      Sent connection queryString
      :: (if querySentAnswer connection queryString =? 0
          then [Closed connection] else [])
  | _ => []
  end.

Definition sweep_events (sweep : nat) (s : slot) : list ConnEvent :=
  match s with
  | (_, text, Some connection) =>
      if (GetConnectionStatusAndResult connection sweep text).1.1
      then [Closed connection] else []
  | _ => []
  end.

(** The outcome of polling [connection] from sweep [sweep] on, if it ends
    within [fuel] sweeps. *)
Fixpoint poll_outcome (fuel sweep : nat) (connection : MultiConnection)
  : option (bool * string) :=
  match fuel with
  | O => None
  | S fuel =>
      let '(queryFinished, success, text) :=
        GetConnectionStatusAndResult connection sweep "" in
      if queryFinished then Some (success, text)
      else poll_outcome fuel (S sweep) connection
  end.

(** The outcome of one command run by the parallel executor over
    [connection], if its polling ends within [fuel] sweeps. *)
Definition slot_outcome (fuel : nat) (connection : MultiConnection)
    (nodeName : string) (nodePort : Z) (queryString : string)
  : option (bool * string) :=
  match send_slot queryString
          (establish_slot nodeName nodePort
             (false, makeStringInfo, Some connection)) with
  | (status, text, None) => Some (status, text)
  | (_, _, Some connection) => poll_outcome fuel 0 connection
  end.

(** The outcome of one command run by the sequential executor over
    [connection]. *)
Definition command_outcome (connection : MultiConnection) (nodeName : string)
    (nodePort : Z) (queryString : string) (buffer : string) : bool * string :=
  if decide (PQstatus connection ≠ CONNECTION_OK) then
    (false,
     appendStringInfo buffer
       ("failed to connect to " +:+ nodeName +:+ ":" +:+
        format_d (to_int32 (to_uint32 nodePort))))
  else if querySentAnswer connection queryString =? 0 then
    (false,
     appendStringInfo buffer
       ("failed to send query to " +:+ nodeName +:+ ":" +:+
        format_d (to_int32 (to_uint32 nodePort))))
  else
    EvaluateQueryResult connection (GetRemoteCommandResult connection) buffer.

(** The outcome of the command that is given the [h]-th handle. *)
Definition row_outcome (parallel : bool) (fuel : nat) (h : nat)
    (nodeName : string) (nodePort : Z) (queryString : string)
  : option (bool * string) :=
  if parallel then
    slot_outcome fuel (handle_for h nodeName nodePort) nodeName nodePort
      queryString
  else
    Some (command_outcome
            (handle_for h nodeName (to_int32 (to_uint32 nodePort)))
            nodeName nodePort queryString makeStringInfo).

(** Polling [connection] never finds it broken or unable to read, and what
    it reads is the result a blocking read of the connection returns. *)
Definition steady (connection : MultiConnection) : Prop :=
  ∀ sweep,
    PQstatusAt connection sweep ≠ CONNECTION_BAD
    ∧ PQconsumeInput connection sweep ≠ 0
    ∧ PQgetResult connection sweep = GetRemoteCommandResult connection.

(** Sweep [sweep] is the first in which the poll loop finds that
    [connection] has answered or failed. *)
Definition first_response (connection : MultiConnection) (sweep : nat)
  : Prop :=
  responds connection sweep
  ∧ ∀ earlier, (earlier < sweep)%nat → ¬ responds connection earlier.


(** What the sequential executor logs for one command, run over
    [connection]. *)
Definition command_events (connection : MultiConnection)
    (queryString : string) : list ConnEvent :=
  Requested FORCE_NEW_CONNECTION connection
  :: (if decide (PQstatus connection ≠ CONNECTION_OK) then []
      else
        Sent connection queryString
        :: (if querySentAnswer connection queryString =? 0 then []
            else [Closed connection])).

(** What the parallel executor logs for one command when it sends the
    commands, [connection] having been requested before. *)
Definition sending_events (connection : MultiConnection)
    (queryString : string) : list ConnEvent :=
  if decide (PQstatus connection ≠ CONNECTION_OK) then []
  else
    Sent connection queryString
    :: (if querySentAnswer connection queryString =? 0
        then [Closed connection] else []).

(** What the parallel executor logs before it polls: the requests for all
    the connections, then the commands sent over those that are
    established. *)
Definition phase_events (connectionOf : nat → MultiConnection)
    (query : nat → string) (K : nat) : list ConnEvent :=
  ((λ i, Requested FORCE_NEW_CONNECTION (connectionOf i)) <$> seq 0 K)
  ++ mjoin ((λ i, sending_events (connectionOf i) (query i)) <$> seq 0 K).

End Vocabulary.

(* ================================================================== *)
(** * Properties *)
(** ** The result evaluator *)

Lemma trim_at_line_break_clean errorMessage :
  has_line_break (trim_at_line_break errorMessage) = false.
Proof.
  induction errorMessage as [|c rest IH]; simpl; [done|].
  destruct (Ascii.eqb c line_break) eqn:Hc; simpl; [done|].
  by rewrite Hc, IH.
Qed.

Lemma trim_at_line_break_prefix errorMessage :
  trim_at_line_break errorMessage = errorMessage
  ∨ ∃ rest,
      errorMessage = trim_at_line_break errorMessage +:+ String line_break rest.
Proof.
  induction errorMessage as [|c rest IH]; simpl; [by left|].
  destruct (Ascii.eqb c line_break) eqn:Hc.
  - right. exists rest. apply Ascii.eqb_eq in Hc. by subst c.
  - destruct IH as [IH|[rest' IH]].
    + left. by rewrite IH.
    + right. exists rest'. by rewrite IH at 1.
Qed.

Lemma trim_at_line_break_id text :
  has_line_break text = false → trim_at_line_break text = text.
Proof.
  induction text as [|c rest IH]; simpl; [done|].
  destruct (Ascii.eqb c line_break); simpl; [done|].
  intros Hrest. by rewrite IH.
Qed.

Section EvaluationProperties.
Context `{!RemoteEnv}.

(** C4: a response that returns rows is judged first by its column count,
    then by its row count; a response with one column and at most one row is
    a success whose text is the value of the cell, nothing being appended
    for a NULL cell. *)
Theorem EvaluateQueryResult_rows_contract
    (connection : MultiConnection) (res : PGresult) (buffer : string) :
  resultStatus res = PGRES_TUPLES_OK →
  (nfields res ≠ 1 →
   EvaluateQueryResult connection (Some res) buffer
   = (false, buffer +:+ "expected a single column in query target"))
  ∧ (nfields res = 1 → (1 < length (tuples res))%nat →
     EvaluateQueryResult connection (Some res) buffer
     = (false, buffer +:+ "expected a single row in query result"))
  ∧ (∀ cells value,
       nfields res = 1 → tuples res = [cells] → cells !! 0%nat = Some (Some value) →
       EvaluateQueryResult connection (Some res) buffer
       = (true, buffer +:+ value))
  ∧ (∀ cells,
       nfields res = 1 → tuples res = [cells] → cells !! 0%nat = Some None →
       EvaluateQueryResult connection (Some res) buffer = (true, buffer)).
Proof.
  intros Hstatus. unfold EvaluateQueryResult. simpl. rewrite Hstatus. simpl.
  repeat split.
  - intros Hcolumns. by apply Z.eqb_neq in Hcolumns as ->.
  - intros -> Hrows. simpl.
    assert ((1 <? Z.of_nat (length (tuples res))) = true) as ->; [|done].
    apply Z.ltb_lt. lia.
  - intros cells value -> Htuples Hcell. simpl.
    unfold PQgetisnull, PQgetvalue, cell. rewrite Htuples. simpl.
    change (Z.to_nat 0) with 0%nat. by rewrite Hcell.
  - intros cells -> Htuples Hcell. simpl.
    unfold PQgetisnull, PQgetvalue, cell. rewrite Htuples. simpl.
    change (Z.to_nat 0) with 0%nat. by rewrite Hcell.
Qed.

(** C9: a response that is neither a completed command nor a row set is a
    failure whose text is the error message of the connection up to its
    first line break, or the fallback text when there is no message. *)
Theorem EvaluateQueryResult_remote_error
    (connection : MultiConnection) (queryResult : option PGresult)
    (buffer : string) :
  PQresultStatus queryResult ≠ PGRES_COMMAND_OK →
  PQresultStatus queryResult ≠ PGRES_TUPLES_OK →
  ∃ text,
    EvaluateQueryResult connection queryResult buffer = (false, buffer +:+ text)
    ∧ match PQerrorMessage connection with
      | Some errorMessage =>
          has_line_break text = false
          ∧ (text = errorMessage
             ∨ ∃ rest, errorMessage = text +:+ String line_break rest)
      | None => text = "An error occurred while running the query"
      end.
Proof.
  intros Hcommand Htuples. unfold EvaluateQueryResult, StoreErrorMessage.
  rewrite !decide_False by done.
  destruct (PQerrorMessage connection) as [errorMessage|].
  - exists (trim_at_line_break errorMessage).
    auto using trim_at_line_break_clean, trim_at_line_break_prefix.
  - by exists default_error_message.
Qed.

(** C10: a row set with a single column and no row is a success, and nothing
    is appended to the result text. *)
Theorem EvaluateQueryResult_zero_rows
    (connection : MultiConnection) (res : PGresult) (buffer : string) :
  resultStatus res = PGRES_TUPLES_OK →
  nfields res = 1 →
  tuples res = [] →
  EvaluateQueryResult connection (Some res) buffer = (true, buffer)
  ∧ EvaluateQueryResult connection (Some res) makeStringInfo = (true, "").
Proof.
  intros Hstatus Hcolumns Htuples. unfold EvaluateQueryResult. simpl.
  rewrite Hstatus, Hcolumns. simpl.
  unfold PQgetisnull, cell. by rewrite Htuples.
Qed.

End EvaluationProperties.

(** ** Running monadic code *)

Lemma run_ret {A} (value : A) backend :
  (mret value : M A) backend = (Returned value, backend).
Proof. reflexivity. Qed.

Lemma run_bind {A B} (m : M A) (k : A → M B) backend :
  (m ≫= k) backend
  = match m backend with
    | (Returned value, backend') => k value backend'
    | (Raised error, backend') => (Raised error, backend')
    | (OutOfFuel, backend') => (OutOfFuel, backend')
    end.
Proof. reflexivity. Qed.

Lemma run_bind_returned {A B} (m : M A) (k : A → M B) backend value backend' :
  m backend = (Returned value, backend') →
  (m ≫= k) backend = k value backend'.
Proof. intros Hm. by rewrite run_bind, Hm. Qed.

Lemma for_loop_app {L I} (body : I → L → M L) (front back : list I) locals
    backend :
  for_loop (front ++ back) body locals backend
  = (for_loop front body locals ≫= for_loop back body) backend.
Proof.
  revert locals backend.
  induction front as [|index front IH]; intros locals backend; simpl.
  - reflexivity.
  - rewrite !run_bind.
    destruct (body index locals backend) as [[locals'| |] backend']; [|done..].
    by rewrite IH, run_bind.
Qed.

Lemma for_loop_snoc {L I} (body : I → L → M L) (front : list I) index locals
    backend :
  for_loop (front ++ [index]) body locals backend
  = (for_loop front body locals ≫= body index) backend.
Proof.
  rewrite for_loop_app, !run_bind.
  destruct (for_loop front body locals backend) as [[locals'| |] backend'];
    [|done..].
  simpl. rewrite run_bind.
  by destruct (body index locals' backend') as [[?| |] ?].
Qed.

(** ** What a run may raise and how it changes the backend *)

Section Maintains.
Context (R : relation Backend) `{!PreOrder R} (E : PgError → Prop).

Lemma maintains_ret {A} (value : A) : maintains R E (mret value).
Proof. intros backend. split; [reflexivity|done]. Qed.

Lemma maintains_out_of_fuel {A} : maintains R E (@out_of_fuel A).
Proof. intros backend. split; [reflexivity|done]. Qed.

Lemma maintains_bind {A B} (m : M A) (k : A → M B) :
  maintains R E m → (∀ value, maintains R E (k value)) →
  maintains R E (m ≫= k).
Proof.
  intros Hm Hk backend. rewrite run_bind.
  destruct (Hm backend) as [Hstep Herror].
  destruct (m backend) as [[value|error|] backend']; simpl in *.
  - destruct (Hk value backend') as [Hstep' Herror'].
    split; [by etrans|exact Herror'].
  - split; [done|]. intros ? [= <-]. auto.
  - split; [done|discriminate].
Qed.

Lemma maintains_for_loop {L I} (body : I → L → M L) (indices : list I) locals :
  (∀ index locals, maintains R E (body index locals)) →
  maintains R E (for_loop indices body locals).
Proof.
  intros Hbody. revert locals.
  induction indices as [|index rest IH]; intros locals; simpl.
  - apply maintains_ret.
  - apply maintains_bind; auto.
Qed.

End Maintains.

#[global] Instance grows_by_preorder P : PreOrder (grows_by P).
Proof.
  split.
  - intros backend. exists []. by rewrite app_nil_r.
  - intros b1 b2 b3 (events1 & Hlog1 & HP1) (events2 & Hlog2 & HP2).
    exists (events1 ++ events2). split.
    + by rewrite Hlog2, Hlog1, app_assoc.
    + by apply Forall_app.
Qed.

Lemma grows_by_event P event backend :
  P event → grows_by P backend (record_event event backend).
Proof. intros HP. exists [event]. split; [done|]. by constructor. Qed.

Section Primitives.
Context `{!RemoteEnv} (P : ConnEvent → Prop).

Lemma maintains_issue_handle connectionFlags nodeName nodePort :
  (∀ connection, P (Requested connectionFlags connection)) →
  maintains (grows_by P) cancel_only
    (issue_handle connectionFlags nodeName nodePort).
Proof.
  intros HP backend. split; [|done]. simpl.
  eexists [_]. split; [done|]. by constructor.
Qed.

Lemma maintains_SendRemoteCommand connection command :
  P (Sent connection command) →
  maintains (grows_by P) cancel_only (SendRemoteCommand connection command).
Proof. intros HP backend. split; [|done]. by apply grows_by_event. Qed.

Lemma maintains_CloseConnection connection :
  P (Closed connection) →
  maintains (grows_by P) cancel_only (CloseConnection connection).
Proof. intros HP backend. split; [|done]. by apply grows_by_event. Qed.

Lemma maintains_pg_usleep microseconds :
  P (Slept microseconds) →
  maintains (grows_by P) cancel_only (pg_usleep microseconds).
Proof. intros HP backend. split; [|done]. by apply grows_by_event. Qed.

Lemma maintains_ExecuteOptionalRemoteCommand connection command :
  P (Executed connection command) →
  maintains (grows_by P) cancel_only
    (ExecuteOptionalRemoteCommand connection command).
Proof.
  intros HP backend. split; [|done]. simpl.
  eexists [_]. split; [done|]. by constructor.
Qed.

Lemma maintains_CHECK_FOR_INTERRUPTS :
  maintains (grows_by P) cancel_only CHECK_FOR_INTERRUPTS.
Proof.
  intros backend. unfold CHECK_FOR_INTERRUPTS.
  destruct (InterruptPending _); simpl.
  - split; [|by intros ? [= <-]]. exists []. by rewrite app_nil_r.
  - split; [|done]. exists []. by rewrite app_nil_r.
Qed.

End Primitives.

Ltac maintains_step :=
  match goal with
  | |- maintains _ _ (mret _) => apply maintains_ret; try apply _
  | |- maintains _ _ (_ ≫= _) => apply maintains_bind; [apply _| |intros ?]
  | |- maintains _ _ (for_loop _ _ _) =>
      apply maintains_for_loop; [apply _|intros ? ?]
  | |- maintains _ _ (issue_handle _ _ _) =>
      apply maintains_issue_handle; intros; simpl; auto
  | |- maintains _ _ (GetNodeConnection _ _ _) =>
      apply maintains_issue_handle; intros; simpl; auto
  | |- maintains _ _ (StartNodeConnection _ _ _) =>
      apply maintains_issue_handle; intros; simpl; auto
  | |- maintains _ _ (FinishConnectionEstablishment _) =>
      apply maintains_ret; try apply _
  | |- maintains _ _ (SendRemoteCommand _ _) =>
      apply maintains_SendRemoteCommand; simpl; auto
  | |- maintains _ _ (CloseConnection _) =>
      apply maintains_CloseConnection; simpl; auto
  | |- maintains _ _ (pg_usleep _) =>
      apply maintains_pg_usleep; simpl; auto
  | |- maintains _ _ (ExecuteOptionalRemoteCommand _ _) =>
      apply maintains_ExecuteOptionalRemoteCommand; simpl; auto
  | |- maintains _ _ CHECK_FOR_INTERRUPTS =>
      apply maintains_CHECK_FOR_INTERRUPTS
  | |- maintains _ _ (match ?x with _ => _ end) => destruct x eqn:?
  | |- maintains _ _ (let '(_, _) := ?x in _) => destruct x eqn:?
  end.

Section ExecutorEvents.
Context `{!RemoteEnv}.

Lemma maintains_ExecuteRemoteQueryOrCommand nodeName nodePort queryString
    queryResultString :
  maintains (grows_by executor_event) cancel_only
    (ExecuteRemoteQueryOrCommand nodeName nodePort queryString
       queryResultString).
Proof. unfold ExecuteRemoteQueryOrCommand. repeat maintains_step. Qed.

Lemma maintains_ExecuteCommandsAndStoreResults nodeNameArray nodePortArray
    commandStringArray statuses results commandCount :
  maintains (grows_by executor_event) cancel_only
    (ExecuteCommandsAndStoreResults nodeNameArray nodePortArray
       commandStringArray statuses results commandCount).
Proof.
  unfold ExecuteCommandsAndStoreResults. maintains_step.
  unfold execute_command. destruct locals. maintains_step.
  - apply maintains_ExecuteRemoteQueryOrCommand.
  - repeat maintains_step.
Qed.

Lemma maintains_poll_loop fuel sweep commandCount locals :
  maintains (grows_by executor_event) cancel_only
    (poll_loop fuel sweep commandCount locals).
Proof.
  revert sweep locals. induction fuel as [|fuel IH]; intros sweep locals; simpl.
  - destruct (_ <? _); [apply maintains_out_of_fuel|apply maintains_ret];
      apply _.
  - destruct (_ <? _); [|apply maintains_ret; apply _].
    maintains_step.
    + maintains_step. unfold check_query_result. repeat maintains_step.
    + maintains_step; [apply maintains_CHECK_FOR_INTERRUPTS|].
      maintains_step; [|apply IH].
      repeat maintains_step.
Qed.

Lemma maintains_ExecuteCommandsInParallelAndStoreResults fuel nodeNameArray
    nodePortArray commandStringArray statuses results commandCount :
  maintains (grows_by executor_event) cancel_only
    (ExecuteCommandsInParallelAndStoreResults fuel nodeNameArray nodePortArray
       commandStringArray statuses results commandCount).
Proof.
  unfold ExecuteCommandsInParallelAndStoreResults.
  maintains_step.
  { maintains_step. unfold start_connection. repeat maintains_step. }
  maintains_step.
  { maintains_step. unfold establish_connection. repeat maintains_step. }
  maintains_step.
  { maintains_step. unfold send_query. repeat maintains_step. }
  maintains_step; [apply maintains_poll_loop|].
  repeat maintains_step.
Qed.

Lemma maintains_StoreAllConnectivityChecks nodes tupleStore :
  maintains (grows_by probe_event) cancel_only
    (StoreAllConnectivityChecks nodes tupleStore).
Proof.
  unfold StoreAllConnectivityChecks. maintains_step.
  unfold check_source. maintains_step; [maintains_step|].
  maintains_step. unfold check_target. repeat maintains_step.
Qed.

End ExecutorEvents.

(** ** Validation of the call *)

Lemma tuple_descriptor_check (tupleDescriptor : TupleDesc) :
  negb (natts tupleDescriptor =? 4)
  || negb (atttypid tupleDescriptor 0 =? TEXTOID)
  || negb (atttypid tupleDescriptor 1 =? INT4OID)
  || negb (atttypid tupleDescriptor 2 =? BOOLOID)
  || negb (atttypid tupleDescriptor 3 =? TEXTOID) = false
  ↔ tupleDescriptor = [TEXTOID; INT4OID; BOOLOID; TEXTOID].
Proof.
  split.
  - rewrite !orb_false_iff, !negb_false_iff, !Z.eqb_eq. unfold natts, atttypid.
    intros ((((Hlength & H0) & H1) & H2) & H3).
    destruct tupleDescriptor as [|a0 [|a1 [|a2 [|a3 [|a4 rest]]]]];
      simpl in Hlength; try lia.
    simpl in *. by subst.
  - by intros ->.
Qed.

Lemma length_check (nodeNames : list string) (nodePorts : list Z)
    (commands : list string) :
  negb (ArrayObjectCount nodeNames =? ArrayObjectCount nodePorts)
  || negb (ArrayObjectCount nodeNames =? ArrayObjectCount commands) = false
  ↔ same_length nodeNames nodePorts commands.
Proof.
  rewrite orb_false_iff, !negb_false_iff, !Z.eqb_eq.
  unfold ArrayObjectCount, same_length. lia.
Qed.

Section Validation.
Context `{!RemoteEnv}.

(** C5: the call is left with a report of the InputValidationError class
    exactly when the three arrays differ in length, the caller does not allow
    a materialized result, or the expected tuple descriptor is not (text,
    int4, bool, text); the backend is then as it was before the call: no
    connection was requested and no command sent. *)
Theorem master_run_on_worker_validation
    (fuel : nat) (rsinfo : option ReturnSetInfo) (nodeNames : list string)
    (nodePorts : list Z) (commands : list string) (parallel : bool)
    (backend : Backend) :
  let run :=
    master_run_on_worker fuel rsinfo nodeNames nodePorts commands parallel
      backend in
  ((∃ error, run.1 = Raised error ∧ InputValidationError error)
   ↔ (¬ same_length nodeNames nodePorts commands
      ∨ ¬ materialize_allowed rsinfo
      ∨ ¬ expected_shape rsinfo))
  ∧ (∀ error, run.1 = Raised error → InputValidationError error →
       run.2 = backend).
Proof.
  unfold master_run_on_worker.
  destruct rsinfo as [info|]; simpl.
  2: { split; [|done]. split.
       - intros _. right. left. by intros (? & [=] & _).
       - intros _. eexists. split; [done|]. by eexists _, _. }
  destruct (Z.land (allowedModes info) SFRM_Materialize =? 0) eqn:Hmode; simpl.
  { split; [|done]. apply Z.eqb_eq in Hmode. split.
    - intros _. right. left. by intros (? & [= <-] & ?).
    - intros _. eexists. split; [done|]. by eexists _, _. }
  apply Z.eqb_neq in Hmode.
  rewrite run_bind. unfold ParseCommandParameters.
  destruct (negb (ArrayObjectCount nodeNames =? ArrayObjectCount nodePorts)
            || negb (ArrayObjectCount nodeNames =? ArrayObjectCount commands))
    eqn:Hlength; simpl.
  { split; [|done]. split.
    - intros _. left. intros Hsame. apply length_check in Hsame. congruence.
    - intros _. eexists. split; [done|]. by eexists _, _. }
  apply length_check in Hlength.
  match goal with
  | |- context [if ?check then _ else _] => destruct check eqn:Hshape
  end; simpl.
  { split; [|done]. split.
    - intros _. right. right. intros (? & [= <-] & Hdesc).
      apply tuple_descriptor_check in Hdesc. congruence.
    - intros _. eexists. split; [done|]. by eexists _, _. }
  apply tuple_descriptor_check in Hshape.
  match goal with
  | |- context [(?executor ≫= ?k) backend] =>
      assert (maintains (grows_by executor_event) cancel_only (executor ≫= k))
        as Hrun
  end.
  { maintains_step; [|repeat maintains_step].
    destruct parallel.
    - apply maintains_ExecuteCommandsInParallelAndStoreResults.
    - apply maintains_ExecuteCommandsAndStoreResults. }
  destruct (Hrun backend) as [_ Hcancel].
  split.
  - split.
    + intros (error & Hraised & sqlerrcode & message & ->).
      by apply Hcancel in Hraised.
    + intros [Hfault|[Hfault|Hfault]]; exfalso; apply Hfault; [done|..];
        by exists info.
  - intros error Hraised (sqlerrcode & message & ->).
    by apply Hcancel in Hraised.
Qed.

End Validation.

(** ** The connectivity check, probe by probe *)

Section Probes.
Context `{!RemoteEnv}.

Lemma run_check_targets source connection targets tupleStore backend :
  for_loop targets (check_target source connection) tupleStore backend
  = (Returned
       (tupleStore
        ++ probe_rows source connection targets (commandsExecuted backend)),
     {| eventLog := eventLog backend ++ probe_events connection targets;
        handlesIssued := handlesIssued backend;
        interruptChecks := interruptChecks backend;
        commandsExecuted := commandsExecuted backend + length targets |}).
Proof.
  revert tupleStore backend.
  induction targets as [|target targets IH]; intros tupleStore backend.
  - destruct backend. simpl. rewrite run_ret. unfold probe_rows. simpl.
    by rewrite !app_nil_r, Nat.add_0_r.
  - simpl. rewrite run_bind. unfold check_target at 1.
    rewrite run_bind. simpl.
    destruct (optionalCommandAnswer _ _ _) as [executionResult result] eqn:Hanswer.
    rewrite run_ret, IH.
    cbn [commandsExecuted eventLog handlesIssued interruptChecks].
    f_equal.
    + rewrite <- app_assoc. do 2 f_equal. unfold probe_rows. rewrite imap_cons.
      cbn [app]. f_equal.
      * unfold probe_row. rewrite Nat.add_0_r, Hanswer. reflexivity.
      * apply imap_ext. intros j t _. simpl. f_equal. lia.
    + f_equal; [by rewrite <- app_assoc|simpl; lia].
Qed.

Lemma run_check_sources workerNodeList sources tupleStore backend :
  for_loop sources (check_source workerNodeList) tupleStore backend
  = (Returned
       (tupleStore
        ++ mjoin (imap (source_rows workerNodeList (handlesIssued backend)
                          (commandsExecuted backend)) sources)),
     {| eventLog :=
          eventLog backend
          ++ mjoin (imap (source_events workerNodeList (handlesIssued backend))
                      sources);
        handlesIssued := handlesIssued backend + length sources;
        interruptChecks := interruptChecks backend;
        commandsExecuted :=
          commandsExecuted backend + length sources * length workerNodeList |}).
Proof.
  revert tupleStore backend.
  induction sources as [|source sources IH]; intros tupleStore backend.
  - destruct backend. simpl. rewrite run_ret. simpl.
    by rewrite !app_nil_r, !Nat.add_0_r.
  - simpl. rewrite run_bind. unfold check_source at 1.
    rewrite run_bind. cbn [GetNodeConnection issue_handle].
    rewrite run_check_targets, IH.
    cbn [commandsExecuted eventLog handlesIssued interruptChecks].
    f_equal.
    + f_equal. rewrite <- app_assoc. f_equal. f_equal.
      * unfold source_rows, handle_for. simpl. by rewrite !Nat.add_0_r.
      * f_equal. apply imap_ext. intros i s _. unfold source_rows. simpl.
        f_equal; [f_equal; lia|lia].
    + f_equal; [|simpl; lia..].
      rewrite <- !app_assoc. f_equal. simpl.
      unfold source_events at 1, handle_for. rewrite Nat.add_0_r.
      f_equal. f_equal. f_equal. apply imap_ext. intros i s _.
      unfold source_events. simpl. by replace (handlesIssued backend + S i)%nat
        with (S (handlesIssued backend + i)) by lia.
Qed.

Lemma length_source_rows workerNodeList h e i source :
  length (source_rows workerNodeList h e i source) = length workerNodeList.
Proof. unfold source_rows, probe_rows. by rewrite length_imap. Qed.

End Probes.

(** ** The order of the worker nodes *)

Lemma string_compare_lt_trans (a b c : string) :
  String.compare a b = Lt → String.compare b c = Lt → String.compare a c = Lt.
Proof.
  intros Hab Hbc. apply OrderedTypeEx.String_as_OT.cmp_lt.
  apply OrderedTypeEx.String_as_OT.lt_trans with b;
    by apply OrderedTypeEx.String_as_OT.cmp_lt.
Qed.

Lemma string_compare_refl (a : string) : String.compare a a = Eq.
Proof. by apply OrderedTypeEx.String_as_OT.cmp_eq. Qed.

Lemma CompareWorkerNodes_antisym lhs rhs :
  CompareWorkerNodes rhs lhs = CompOpp (CompareWorkerNodes lhs rhs).
Proof.
  unfold CompareWorkerNodes.
  rewrite (String.compare_antisym (workerName lhs) (workerName rhs)).
  rewrite (Z.compare_antisym (workerPort lhs) (workerPort rhs)).
  by destruct (String.compare (workerName rhs) (workerName lhs)).
Qed.

Lemma CompareWorkerNodes_Eq lhs rhs :
  CompareWorkerNodes lhs rhs = Eq ↔ lhs = rhs.
Proof.
  unfold CompareWorkerNodes. split.
  - destruct (String.compare _ _) eqn:Hname; [|done..].
    apply String.compare_eq_iff in Hname. intros Hport%Z.compare_eq.
    destruct lhs, rhs; simpl in *. by subst.
  - intros ->. by rewrite string_compare_refl, Z.compare_refl.
Qed.

Lemma CompareWorkerNodes_Lt lhs rhs :
  CompareWorkerNodes lhs rhs = Lt
  ↔ String.compare (workerName lhs) (workerName rhs) = Lt
    ∨ (workerName lhs = workerName rhs ∧ workerPort lhs < workerPort rhs).
Proof.
  unfold CompareWorkerNodes. split.
  - destruct (String.compare _ _) eqn:Hname; [|by left|done].
    apply String.compare_eq_iff in Hname. intros Hport. right. split; [done|].
    by apply Z.compare_lt_iff.
  - intros [->|[-> Hport]]; [done|].
    rewrite string_compare_refl. by apply Z.compare_lt_iff.
Qed.

Lemma CompareWorkerNodes_Lt_trans a b c :
  CompareWorkerNodes a b = Lt → CompareWorkerNodes b c = Lt →
  CompareWorkerNodes a c = Lt.
Proof.
  rewrite !CompareWorkerNodes_Lt.
  intros [Hab|[Hab Hpab]] [Hbc|[Hbc Hpbc]].
  - left. by apply string_compare_lt_trans with (workerName b).
  - left. by rewrite <- Hbc.
  - left. by rewrite Hab.
  - right. split; [congruence|lia].
Qed.

#[global] Instance WorkerNode_le_total : Total WorkerNode_le.
Proof.
  intros a b. unfold WorkerNode_le.
  rewrite (CompareWorkerNodes_antisym a b).
  destruct (CompareWorkerNodes a b); simpl; auto.
Qed.

#[global] Instance WorkerNode_le_trans : Transitive WorkerNode_le.
Proof.
  intros a b c. unfold WorkerNode_le. intros Hab Hbc.
  destruct (CompareWorkerNodes a b) eqn:Eab; [| |done].
  { apply CompareWorkerNodes_Eq in Eab. by subst. }
  destruct (CompareWorkerNodes b c) eqn:Ebc; [| |done].
  { apply CompareWorkerNodes_Eq in Ebc. by subst; rewrite Eab. }
  by rewrite (CompareWorkerNodes_Lt_trans a b c).
Qed.

#[global] Instance WorkerNode_le_antisym : AntiSymm (=) WorkerNode_le.
Proof.
  intros a b. unfold WorkerNode_le. rewrite (CompareWorkerNodes_antisym a b).
  destruct (CompareWorkerNodes a b) eqn:Eab; simpl; [|done..].
  intros _ _. by apply CompareWorkerNodes_Eq.
Qed.

Lemma SortList_sorted (nodes : list WorkerNode) :
  StronglySorted WorkerNode_le (SortList nodes CompareWorkerNodes).
Proof. unfold SortList. apply (StronglySorted_merge_sort WorkerNode_le); apply _. Qed.

Lemma SortList_permutation (nodes : list WorkerNode) :
  SortList nodes CompareWorkerNodes ≡ₚ nodes.
Proof. unfold SortList. apply (merge_sort_Permutation WorkerNode_le). Qed.

(** ** The connectivity matrix *)

Section Matrix.
Context `{!RemoteEnv}.

Lemma reported_in_range node :
  int32_ok (workerPort node) → reported node = node.
Proof.
  intros Hport. destruct node as [name nodePort]. unfold reported. simpl in *.
  f_equal. unfold to_int32, int32_ok in *. rewrite Z.mod_small; lia.
Qed.

Lemma reported_list_in_range nodes :
  Forall (λ node, int32_ok (workerPort node)) nodes → reported <$> nodes = nodes.
Proof.
  induction 1 as [|node nodes Hnode _ IH]; [done|].
  by rewrite fmap_cons, IH, reported_in_range.
Qed.

Lemma row_pair_probe_row source connection target n :
  row_pair (probe_row source connection target n)
  = (reported source, reported target).
Proof. done. Qed.

Lemma probe_rows_pairs source connection targets n :
  row_pair <$> probe_rows source connection targets n
  = (λ target, (reported source, target)) <$> (reported <$> targets).
Proof.
  rewrite <- list_fmap_compose.
  unfold probe_rows. revert n.
  induction targets as [|target targets IH]; intros n; [done|].
  rewrite imap_cons, !fmap_cons, row_pair_probe_row. f_equal.
  rewrite <- (IH (S n)). f_equal. apply imap_ext. intros j t _. simpl.
  f_equal. lia.
Qed.

Lemma matrix_rows_pairs workerNodeList sources
    (f : nat → WorkerNode → list ConnectivityRow) :
  (∀ i source,
     row_pair <$> f i source
     = (λ target, (reported source, target)) <$> workerNodeList) →
  row_pair <$> mjoin (imap f sources)
  = (reported <$> sources)
    ≫= λ source, (λ target, (source, target)) <$> workerNodeList.
Proof.
  revert f. induction sources as [|source sources IH]; intros f Hf; [done|].
  rewrite imap_cons. csimpl. rewrite fmap_app, Hf. f_equal.
  apply IH. intros i s. apply Hf.
Qed.

Lemma elem_of_matrix_rows workerNodeList h e sources row :
  row ∈ mjoin (imap (source_rows workerNodeList h e) sources) →
  ∃ source connection target n,
    source ∈ sources ∧ target ∈ workerNodeList
    ∧ hostname connection = workerName source
    ∧ port connection = to_int32 (workerPort source)
    ∧ row = probe_row source connection target n.
Proof.
  intros (i & Hrow)%list_elem_of_lookup.
  apply join_lookup_Some in Hrow as (k & block & j & Hblock & Hrow & _).
  apply list_lookup_imap_Some in Hblock as (source & Hsource & ->).
  unfold source_rows, probe_rows in Hrow.
  apply list_lookup_imap_Some in Hrow as (target & Htarget & ->).
  exists source,
    (handle_for (h + k) (workerName source) (to_int32 (workerPort source))),
    target,
    (e + k * length workerNodeList + j)%nat.
  split; [by eapply list_elem_of_lookup_2|].
  split; [by eapply list_elem_of_lookup_2|]. done.
Qed.

Lemma lookup_matrix_rows workerNodeList h e i j source target :
  workerNodeList !! i = Some source →
  workerNodeList !! j = Some target →
  mjoin (imap (source_rows workerNodeList h e) workerNodeList)
    !! (i * length workerNodeList + j)%nat
  = Some (probe_row source
            (handle_for (h + i) (workerName source)
               (to_int32 (workerPort source)))
            target (e + i * length workerNodeList + j)).
Proof.
  intros Hsource Htarget.
  apply (join_lookup_Some_same_length' (length workerNodeList)).
  - apply Forall_forall. intros block (k & Hblock)%list_elem_of_lookup.
    apply list_lookup_imap_Some in Hblock as (s & _ & ->).
    apply length_source_rows.
  - by eapply lookup_lt_Some.
  - exists (source_rows workerNodeList h e i source). split.
    + by rewrite list_lookup_imap, Hsource.
    + unfold source_rows, probe_rows. rewrite list_lookup_imap, Htarget.
      simpl. do 2 f_equal.
Qed.

Lemma run_citus_check_cluster_node_health nodes backend :
  let workerNodeList := SortList nodes CompareWorkerNodes in
  ∃ backend',
    citus_check_cluster_node_health nodes backend
    = (Returned
         (mjoin (imap (source_rows workerNodeList (handlesIssued backend)
                         (commandsExecuted backend)) workerNodeList)),
       backend')
    ∧ eventLog backend'
      = eventLog backend
        ++ mjoin (imap (source_events workerNodeList (handlesIssued backend))
                    workerNodeList).
Proof.
  intros workerNodeList.
  unfold citus_check_cluster_node_health, StoreAllConnectivityChecks.
  fold workerNodeList. rewrite run_check_sources. eauto.
Qed.

Lemma elem_of_ordered_pairs nodes source target :
  (source, target) ∈ ordered_pairs nodes ↔ source ∈ nodes ∧ target ∈ nodes.
Proof.
  unfold ordered_pairs. rewrite list_elem_of_bind. split.
  - intros (s & (t & [= -> ->] & Ht)%list_elem_of_fmap & Hs). done.
  - intros [Hs Ht]. exists source. split; [|done].
    apply list_elem_of_fmap. by exists target.
Qed.

Lemma NoDup_ordered_pairs nodes : NoDup nodes → NoDup (ordered_pairs nodes).
Proof.
  intros Hnodes. unfold ordered_pairs. apply NoDup_bind; [| |done].
  - intros s1 s2 [s t] _ _ (? & [= -> ->] & _)%list_elem_of_fmap
      (? & [= -> _] & _)%list_elem_of_fmap. done.
  - intros s _. apply NoDup_fmap_2; [|done]. by intros t1 t2 [= ->].
Qed.

(** C6: for [N] active readable nodes the check stores [N * N] rows, the
    sources in the sorted order of the node list and, for each source, the
    targets in that same order, each node named with its port as a C [int];
    with ports that fit an [int] these are the ordered pairs of the nodes
    themselves, every pair once; when every probe completes and reports
    success, every row says [true]. *)
Theorem citus_check_cluster_node_health_matrix
    (nodes : list WorkerNode) (backend : Backend) :
  let workerNodeList := SortList nodes CompareWorkerNodes in
  workerNodeList ≡ₚ nodes
  ∧ StronglySorted (λ lhs rhs, CompareWorkerNodes lhs rhs ≠ Gt) workerNodeList
  ∧ ∃ rows backend',
      citus_check_cluster_node_health nodes backend = (Returned rows, backend')
      ∧ length rows = (length nodes * length nodes)%nat
      ∧ row_pair <$> rows = ordered_pairs (reported <$> workerNodeList)
      ∧ (Forall (λ node, int32_ok (workerPort node)) nodes →
         row_pair <$> rows = ordered_pairs workerNodeList
         ∧ (NoDup nodes →
            NoDup (row_pair <$> rows)
            ∧ ∀ source target,
                source ∈ nodes → target ∈ nodes →
                (source, target) ∈ row_pair <$> rows))
      ∧ (all_reachable →
         ∀ row, row ∈ rows → check_result row = Some true).
Proof.
  intros workerNodeList.
  pose proof (SortList_permutation nodes) as Hperm. fold workerNodeList in Hperm.
  split; [done|]. split; [apply SortList_sorted|].
  destruct (run_citus_check_cluster_node_health nodes backend)
    as (backend' & Hrun & _).
  fold workerNodeList in Hrun.
  eexists _, backend'. split; [exact Hrun|].
  assert (row_pair
            <$> mjoin (imap (source_rows workerNodeList (handlesIssued backend)
                               (commandsExecuted backend)) workerNodeList)
          = ordered_pairs (reported <$> workerNodeList)) as Hpairs.
  { apply matrix_rows_pairs. intros i source. apply probe_rows_pairs. }
  split; [|split; [done|split]].
  - rewrite <- (length_fmap row_pair), Hpairs. unfold ordered_pairs.
    rewrite <- Hperm, <- (length_fmap reported workerNodeList).
    generalize (reported <$> workerNodeList) as sources. clear.
    intros sources. generalize sources at 1 3 as targets.
    intros targets. induction sources as [|s l IH]; [done|].
    csimpl. rewrite length_app, length_fmap, IH. lia.
  - intros Hports. rewrite Hpairs.
    assert (reported <$> workerNodeList = workerNodeList) as ->.
    { apply reported_list_in_range. by rewrite Hperm. }
    split; [done|]. intros Hnodes. split.
    + apply NoDup_ordered_pairs. by rewrite Hperm.
    + intros source target Hs Ht. apply elem_of_ordered_pairs.
      by rewrite Hperm.
  - intros Hreachable row Hrow.
    apply elem_of_matrix_rows in Hrow
      as (source & connection & target & n & _ & _ & _ & _ & ->).
    unfold probe_row. simpl.
    destruct (Hreachable connection
                (GetConnectivityCheckCommand (workerName target)
                   (to_int32 (workerPort target))) n) as [-> ->].
    done.
Qed.

(** C2: the result of a row is NULL exactly when the probe run over the
    connection to the source did not end with [RESPONSE_OKAY], and is
    otherwise the boolean parsed from what the source answered; so every row
    whose source cannot be reached from here is NULL, whatever its target,
    and a row whose probe completed is never NULL, whatever its target.  The
    connection and the row name each node with its port as a C [int]. *)
Theorem citus_check_cluster_node_health_unknown
    (nodes : list WorkerNode) (backend : Backend) :
  let workerNodeList := SortList nodes CompareWorkerNodes in
  let N := length workerNodeList in
  ∃ rows backend',
    citus_check_cluster_node_health nodes backend = (Returned rows, backend')
    ∧ (∀ i j source target,
         workerNodeList !! i = Some source →
         workerNodeList !! j = Some target →
         let connection :=
           handle_for (handlesIssued backend + i) (workerName source)
             (to_int32 (workerPort source)) in
         let answer :=
           optionalCommandAnswer connection
             (GetConnectivityCheckCommand (workerName target)
                (to_int32 (workerPort target)))
             (commandsExecuted backend + i * N + j) in
         ∃ row,
           rows !! (i * N + j)%nat = Some row
           ∧ row_pair row = (reported source, reported target)
           ∧ (int32_ok (workerPort source) → int32_ok (workerPort target) →
              row_pair row = (source, target))
           ∧ (check_result row = None ↔ answer.1 ≠ RESPONSE_OKAY)
           ∧ (answer.1 = RESPONSE_OKAY →
              check_result row = Some (ParseBoolField answer.2 0 0)))
    ∧ (∀ node row,
         unreachable_from_controller node →
         row ∈ rows → row_source row = reported node →
         check_result row = None).
Proof.
  intros workerNodeList N.
  destruct (run_citus_check_cluster_node_health nodes backend)
    as (backend' & Hrun & _).
  fold workerNodeList in Hrun.
  eexists _, backend'. split; [exact Hrun|]. split.
  - intros i j source target Hsource Htarget connection answer.
    eexists. split; [by apply lookup_matrix_rows|].
    split; [apply row_pair_probe_row|].
    split.
    { intros Hs Ht. by rewrite row_pair_probe_row, !reported_in_range. }
    unfold probe_row. simpl. fold connection. fold N. fold answer.
    destruct (answer.1 =? RESPONSE_OKAY) eqn:Hanswer; simpl.
    + apply Z.eqb_eq in Hanswer. split; [|done]. split; [done|]. by intros [].
    + apply Z.eqb_neq in Hanswer. split; [done|]. by intros ?.
  - intros node row Hnode Hrow Hsource.
    apply elem_of_matrix_rows in Hrow
      as (source & connection & target & n & _ & _ & Hname & Hport & ->).
    injection Hsource as Hsame_name Hsame_port.
    unfold probe_row. simpl.
    assert (((optionalCommandAnswer connection
               (GetConnectivityCheckCommand (workerName target)
                  (to_int32 (workerPort target))) n).1 =? RESPONSE_OKAY)
            = false) as ->; [|done].
    apply Z.eqb_neq. apply Hnode; congruence.
Qed.

End Matrix.

(** A port of [2 ^ 32 - 1] is requested, named in the probe and stored as
    the [int] it is held in, [-1]. *)
Example connectivity_check_port_as_int :
  let node := {| workerName := "a"; workerPort := 4294967295 |} in
  let connection := handle_for 0 "a" (-1) in
  citus_check_cluster_node_health (H := calm) [node] idle
  = (Returned [{| from_nodename := "a"; from_nodeport := -1;
                  to_nodename := "a"; to_nodeport := -1;
                  check_result := Some true |}],
     {| eventLog :=
          [Requested 0 connection;
           Executed connection
             "SELECT citus_check_connection_to_node('a', -1)"];
        handlesIssued := 1; interruptChecks := 0; commandsExecuted := 1 |}).
Proof. vm_compute. reflexivity. Qed.

(** ** The parallel executor, slot by slot *)

Lemma count_closed_insert_None connections i connection :
  connections !! i = Some (Some connection) →
  count_closed (<[i := None]> connections) = S (count_closed connections).
Proof.
  revert i. induction connections as [|c connections IH]; intros i; [done|].
  destruct i as [|i]; simpl.
  - by intros [= ->].
  - intros Hi. destruct c; simpl; by rewrite IH.
Qed.

Lemma count_closed_le connections :
  (count_closed connections ≤ length connections)%nat.
Proof. induction connections as [|[c|] l IH]; simpl; lia. Qed.

Lemma count_closed_full connections i :
  count_closed connections = length connections →
  (i < length connections)%nat →
  connections !!! i = None.
Proof.
  revert i. induction connections as [|[c|] l IH]; intros i; simpl.
  - lia.
  - pose proof (count_closed_le l). lia.
  - intros [= Hfull] Hi. destruct i as [|i]; [done|]. apply IH; [done|lia].
Qed.

Lemma count_closed_none connections :
  (∀ i, (i < length connections)%nat → connections !!! i = None) →
  count_closed connections = length connections.
Proof.
  induction connections as [|[c|] l IH]; intros Hnone; simpl.
  - done.
  - by specialize (Hnone 0%nat ltac:(simpl; lia)).
  - f_equal. apply IH. intros i Hi. apply (Hnone (S i)). simpl. lia.
Qed.

Lemma count_closed_open (f : nat → MultiConnection) (indices : list nat) :
  count_closed ((λ i, Some (f i)) <$> indices) = 0%nat.
Proof. induction indices as [|i l IH]; [done|]. by rewrite fmap_cons. Qed.

Section SlotLoops.
Context `{!RemoteEnv}.

(** A loop whose body at index [i] rewrites slot [i] by [step i] and leaves
    the other slots alone does so for every index it runs over. *)
Lemma slot_loop (K : nat) (step : nat → slot → slot)
    (events : nat → slot → list ConnEvent)
    (body : nat → ParallelLocals → M ParallelLocals) :
  (∀ i locals backend,
     (i < K)%nat → slots_ok K locals →
     ∃ locals' backend',
       body i locals backend = (Returned locals', backend')
       ∧ interruptChecks backend' = interruptChecks backend
       ∧ handlesIssued backend' = handlesIssued backend
       ∧ eventLog backend' = eventLog backend ++ events i (get_slot locals i)
       ∧ slots_ok K locals'
       ∧ get_slot locals' i = step i (get_slot locals i)
       ∧ ∀ j, j ≠ i → get_slot locals' j = get_slot locals j) →
  ∀ n locals backend,
    (n ≤ K)%nat → slots_ok K locals →
    ∃ locals' backend',
      for_loop (seq 0 n) body locals backend = (Returned locals', backend')
      ∧ interruptChecks backend' = interruptChecks backend
      ∧ handlesIssued backend' = handlesIssued backend
      ∧ eventLog backend'
        = eventLog backend
          ++ mjoin ((λ j, events j (get_slot locals j)) <$> seq 0 n)
      ∧ slots_ok K locals'
      ∧ (∀ j, (j < n)%nat → get_slot locals' j = step j (get_slot locals j))
      ∧ (∀ j, (n ≤ j)%nat → get_slot locals' j = get_slot locals j).
Proof.
  intros Hbody n. induction n as [|n IH]; intros locals backend Hn Hok.
  - exists locals, backend. simpl. rewrite run_ret, app_nil_r.
    split; [done|]. split; [done|]. split; [done|]. split; [done|].
    split; [done|]. split; [intros j Hj; lia|done].
  - destruct (IH locals backend ltac:(lia) Hok)
      as (locals1 & backend1 & Hrun1 & Hchecks1 & Hhandles1 & Hlog1 & Hok1
          & Hdone1 & Hrest1).
    destruct (Hbody n locals1 backend1 ltac:(lia) Hok1)
      as (locals2 & backend2 & Hrun2 & Hchecks2 & Hhandles2 & Hlog2 & Hok2
          & Hat2 & Hother2).
    exists locals2, backend2.
    rewrite seq_S, for_loop_snoc. simpl.
    rewrite (run_bind_returned _ _ _ _ _ Hrun1), Hrun2.
    split; [done|]. split; [congruence|]. split; [congruence|]. split.
    { rewrite Hlog2, Hlog1, Hrest1 by lia.
      rewrite fmap_app, join_app, <- app_assoc. simpl.
      by rewrite app_nil_r. }
    split; [done|]. split.
    + intros j Hj. destruct (decide (j = n)) as [->|Hne].
      * by rewrite Hat2, Hrest1.
      * rewrite Hother2 by done. apply Hdone1. lia.
    + intros j Hj. rewrite Hother2 by lia. apply Hrest1. lia.
Qed.

Ltac slot_lookups K :=
  unfold get_slot; cbn [statusArray resultStringArray connectionArray
                        finishedCount set_status set_result set_connection
                        increment_finished];
  rewrite ?list_lookup_total_insert_eq, ?list_lookup_total_insert_ne
    by (rewrite ?length_insert; (done || lia)).

Ltac slots_ok_step Hok Hopen :=
  destruct Hok as [? ? ? ?];
  constructor;
  cbn [statusArray resultStringArray connectionArray finishedCount
       set_status set_result set_connection increment_finished];
  rewrite ?length_insert; try done;
  try (erewrite count_closed_insert_None by exact Hopen; lia).

Lemma lookup_open_connection K locals i connection :
  slots_ok K locals → (i < K)%nat →
  connectionArray locals !!! i = Some connection →
  connectionArray locals !! i = Some (Some connection).
Proof.
  intros [_ _ Hconnection _] Hi <-.
  apply list_lookup_lookup_total_lt. lia.
Qed.

Lemma establish_connection_slot nodeNameArray nodePortArray K i locals backend :
  (i < K)%nat → slots_ok K locals →
  ∃ locals' backend',
    establish_connection nodeNameArray nodePortArray i locals backend
    = (Returned locals', backend')
    ∧ interruptChecks backend' = interruptChecks backend
    ∧ handlesIssued backend' = handlesIssued backend
    ∧ eventLog backend'
      = eventLog backend ++ establish_events (get_slot locals i)
    ∧ slots_ok K locals'
    ∧ get_slot locals' i
      = establish_slot (nodeNameArray !!! i) (nodePortArray !!! i)
          (get_slot locals i)
    ∧ ∀ j, j ≠ i → get_slot locals' j = get_slot locals j.
Proof.
  intros Hi Hok. unfold establish_connection, establish_slot, establish_events.
  rewrite app_nil_r. unfold get_slot at 2.
  destruct (connectionArray locals !!! i) as [connection|] eqn:Hslot.
  - pose proof (lookup_open_connection K locals i connection Hok Hi Hslot)
      as Hopen.
    pose proof Hok as [Hstatus Hresult Hconnection Hfinished].
    rewrite run_bind. unfold FinishConnectionEstablishment. rewrite run_ret.
    destruct (decide (PQstatus connection ≠ CONNECTION_OK)).
    + eexists _, backend. rewrite run_ret. do 4 (split; [done|]).
      split; [slots_ok_step Hok Hopen|].
      split; [by slot_lookups K|]. intros j Hj. by slot_lookups K.
    + eexists _, backend. rewrite run_ret. do 4 (split; [done|]).
      split; [slots_ok_step Hok Hopen|].
      split; [slot_lookups K; by rewrite Hslot|].
      intros j Hj. by slot_lookups K.
  - exists locals, backend. rewrite run_ret. by repeat (split; [done|]).
Qed.

Lemma send_query_slot commandStringArray K i locals backend :
  (i < K)%nat → slots_ok K locals →
  ∃ locals' backend',
    send_query commandStringArray i locals backend = (Returned locals', backend')
    ∧ interruptChecks backend' = interruptChecks backend
    ∧ handlesIssued backend' = handlesIssued backend
    ∧ eventLog backend'
      = eventLog backend
        ++ send_events (commandStringArray !!! i) (get_slot locals i)
    ∧ slots_ok K locals'
    ∧ get_slot locals' i
      = send_slot (commandStringArray !!! i) (get_slot locals i)
    ∧ ∀ j, j ≠ i → get_slot locals' j = get_slot locals j.
Proof.
  intros Hi Hok. unfold send_query, send_slot, send_events, get_slot.
  destruct (connectionArray locals !!! i) as [connection|] eqn:Hslot.
  - pose proof (lookup_open_connection K locals i connection Hok Hi Hslot)
      as Hopen.
    pose proof Hok as [Hstatus Hresult Hconnection Hfinished].
    rewrite run_bind. unfold SendRemoteCommand at 1.
    destruct (querySentAnswer connection (commandStringArray !!! i) =? 0).
    + rewrite run_bind. unfold CloseConnection at 1. rewrite run_ret.
      eexists _, _. do 3 (split; [done|]).
      split; [unfold record_event; cbn [eventLog]; by rewrite <- app_assoc|].
      split; [slots_ok_step Hok Hopen|].
      split; [by slot_lookups K|]. intros j Hj. by slot_lookups K.
    + rewrite run_ret. eexists _, _. do 5 (split; [done|]).
      split; [unfold get_slot; by rewrite Hslot|done].
  - exists locals, backend. rewrite run_ret, app_nil_r.
    do 5 (split; [done|]). split; [by rewrite Hslot|done].
Qed.

Lemma check_query_result_slot sweep K i locals backend :
  (i < K)%nat → slots_ok K locals →
  ∃ locals' backend',
    check_query_result sweep i locals backend = (Returned locals', backend')
    ∧ interruptChecks backend' = interruptChecks backend
    ∧ handlesIssued backend' = handlesIssued backend
    ∧ eventLog backend'
      = eventLog backend ++ sweep_events sweep (get_slot locals i)
    ∧ slots_ok K locals'
    ∧ get_slot locals' i = sweep_slot sweep (get_slot locals i)
    ∧ ∀ j, j ≠ i → get_slot locals' j = get_slot locals j.
Proof.
  intros Hi Hok. unfold check_query_result, sweep_slot, sweep_events, get_slot.
  destruct (connectionArray locals !!! i) as [connection|] eqn:Hslot.
  - pose proof (lookup_open_connection K locals i connection Hok Hi Hslot)
      as Hopen.
    pose proof Hok as [Hstatus Hresult Hconnection Hfinished].
    destruct (GetConnectionStatusAndResult connection sweep
                (resultStringArray locals !!! i))
      as [[queryFinished success] text'].
    destruct queryFinished.
    + rewrite run_bind. unfold CloseConnection at 1. rewrite run_ret.
      eexists _, _. do 4 (split; [done|]).
      split; [slots_ok_step Hok Hopen|].
      split; [by slot_lookups K|]. intros j Hj. by slot_lookups K.
    + rewrite run_ret. eexists _, _. do 3 (split; [done|]).
      split; [by rewrite app_nil_r|].
      split; [slots_ok_step Hok Hopen|].
      split; [slot_lookups K; by rewrite Hslot|].
      intros j Hj. by slot_lookups K.
  - exists locals, backend. rewrite run_ret, app_nil_r.
    do 5 (split; [done|]). split; [by rewrite Hslot|done].
Qed.

Lemma run_CHECK_FOR_INTERRUPTS backend :
  no_interrupt →
  ∃ backend',
    CHECK_FOR_INTERRUPTS backend = (Returned (), backend')
    ∧ handlesIssued backend' = handlesIssued backend.
Proof.
  intros Hquiet. unfold CHECK_FOR_INTERRUPTS. rewrite Hquiet. eauto.
Qed.

Lemma poll_loop_run K fuel sweep locals backend :
  no_interrupt →
  slots_ok K locals →
  (∀ i connection,
     (i < K)%nat → connectionArray locals !!! i = Some connection →
     is_Some (poll_outcome fuel sweep connection)) →
  ∃ locals' backend',
    poll_loop fuel sweep (Z.of_nat K) locals backend
    = (Returned locals', backend')
    ∧ length (statusArray locals') = K
    ∧ length (resultStringArray locals') = K
    ∧ ∀ i, (i < K)%nat →
        match connectionArray locals !!! i with
        | Some connection =>
            poll_outcome fuel sweep connection
            = Some (statusArray locals' !!! i, resultStringArray locals' !!! i)
        | None =>
            statusArray locals' !!! i = statusArray locals !!! i
            ∧ resultStringArray locals' !!! i = resultStringArray locals !!! i
        end.
Proof.
  intros Hquiet. revert sweep locals backend.
  assert (∀ locals, slots_ok K locals →
            (finishedCount locals <? Z.of_nat K) = false →
            ∀ i, (i < K)%nat → connectionArray locals !!! i = None) as Hfull.
  { intros locals [_ _ Hconnection Hfinished] Hdone%Z.ltb_ge i Hi.
    pose proof (count_closed_le (connectionArray locals)).
    apply count_closed_full; lia. }
  induction fuel as [|fuel IH]; intros sweep locals backend Hok Hends.
  - assert (∀ i, (i < K)%nat → connectionArray locals !!! i = None) as Hnone.
    { intros i Hi. destruct (connectionArray locals !!! i) eqn:Hslot; [|done].
      by destruct (Hends i _ Hi Hslot). }
    simpl.
    assert ((finishedCount locals <? Z.of_nat K) = false) as ->.
    { destruct Hok as [_ _ Hconnection Hfinished]. apply Z.ltb_ge.
      rewrite Hfinished, count_closed_none; [lia|].
      intros i Hi. apply Hnone. lia. }
    exists locals, backend. rewrite run_ret.
    destruct Hok as [Hstatus Hresult _ _]. repeat (split; [done|]).
    intros i Hi. by rewrite Hnone.
  - simpl. destruct (finishedCount locals <? Z.of_nat K) eqn:Htest.
    2: { exists locals, backend. rewrite run_ret.
         pose proof Hok as [Hstatus Hresult _ _]. repeat (split; [done|]).
         intros i Hi. by rewrite (Hfull locals Hok Htest i Hi). }
    rewrite Nat2Z.id.
    destruct (slot_loop K (λ _, sweep_slot sweep) (λ _, sweep_events sweep)
                (check_query_result sweep)
                (λ i l b, check_query_result_slot sweep K i l b)
                K locals backend ltac:(lia) Hok)
      as (locals1 & backend1 & Hrun1 & _ & _ & _ & Hok1 & Hswept & _).
    rewrite (run_bind_returned _ _ _ _ _ Hrun1).
    destruct (run_CHECK_FOR_INTERRUPTS backend1 Hquiet)
      as (backend2 & Hrun2 & _).
    rewrite (run_bind_returned _ _ _ _ _ Hrun2).
    assert (∃ backend3,
              (if finishedCount locals1 <? Z.of_nat K
               then pg_usleep (RemoteTaskCheckInterval * 1000)
               else mret ()) backend2 = (Returned (), backend3))
      as (backend3 & Hrun3).
    { destruct (finishedCount locals1 <? Z.of_nat K); eexists; reflexivity. }
    rewrite (run_bind_returned _ _ _ _ _ Hrun3).
    destruct (IH (S sweep) locals1 backend3 Hok1)
      as (locals' & backend' & Hrun & Hstatus & Hresult & Hfinal).
    { intros i connection Hi Hslot.
      specialize (Hswept i Hi). specialize (Hends i).
      unfold get_slot in Hswept. rewrite Hslot in Hswept.
      unfold sweep_slot in Hswept.
      destruct (connectionArray locals !!! i) as [c|]; [|congruence].
      specialize (Hends c Hi eq_refl). simpl in Hends.
      change (GetConnectionStatusAndResult c sweep "")
        with (GetConnectionStatusAndResult c sweep
                (resultStringArray locals !!! i)) in Hends.
      destruct (GetConnectionStatusAndResult c sweep _)
        as [[queryFinished success] text'].
      destruct queryFinished; [congruence|]. congruence. }
    exists locals', backend'. split; [done|]. split; [done|]. split; [done|].
    intros i Hi. specialize (Hswept i Hi). specialize (Hfinal i Hi).
    unfold get_slot in Hswept. unfold sweep_slot in Hswept.
    destruct (connectionArray locals !!! i) as [c|].
    + simpl.
      change (GetConnectionStatusAndResult c sweep "")
        with (GetConnectionStatusAndResult c sweep
                (resultStringArray locals !!! i)).
      destruct (GetConnectionStatusAndResult c sweep _)
        as [[queryFinished success] text'].
      destruct queryFinished.
      * injection Hswept as Hs Hr Hc. rewrite Hc in Hfinal.
        destruct Hfinal as [-> ->]. by rewrite Hs, Hr.
      * injection Hswept as Hs Hr Hc. by rewrite Hc in Hfinal.
    + injection Hswept as Hs Hr Hc. rewrite Hc in Hfinal.
      destruct Hfinal as [-> ->]. by rewrite Hs, Hr.
Qed.

Lemma start_phase nodeNameArray nodePortArray statuses results K n backend :
  (n ≤ K)%nat →
  for_loop (seq 0 n) (start_connection nodeNameArray nodePortArray)
    {| statusArray := statuses;
       resultStringArray := results;
       connectionArray := replicate K None;
       finishedCount := 0 |} backend
  = (Returned
       {| statusArray := statuses;
          resultStringArray := results;
          connectionArray :=
            ((λ i, Some (handle_for (handlesIssued backend + i)
                           (nodeNameArray !!! i) (nodePortArray !!! i)))
             <$> seq 0 n)
            ++ replicate (K - n) None;
          finishedCount := 0 |},
     {| eventLog :=
          eventLog backend
          ++ ((λ i, Requested FORCE_NEW_CONNECTION
                      (handle_for (handlesIssued backend + i)
                         (nodeNameArray !!! i) (nodePortArray !!! i)))
              <$> seq 0 n);
        handlesIssued := handlesIssued backend + n;
        interruptChecks := interruptChecks backend;
        commandsExecuted := commandsExecuted backend |}).
Proof.
  induction n as [|n IH]; intros Hn.
  - destruct backend. simpl. rewrite run_ret. simpl.
    by rewrite app_nil_r, Nat.add_0_r, Nat.sub_0_r.
  - rewrite seq_S, for_loop_snoc. simpl.
    rewrite (run_bind_returned _ _ _ _ _ (IH ltac:(lia))).
    unfold start_connection. rewrite run_bind.
    cbn [StartNodeConnection issue_handle handlesIssued eventLog
         interruptChecks commandsExecuted].
    rewrite run_ret. unfold set_connection.
    cbn [statusArray resultStringArray connectionArray finishedCount].
    f_equal.
    + f_equal. rewrite !fmap_app. simpl. rewrite <- app_assoc.
      rewrite insert_app_r_alt by (rewrite length_fmap, length_seq; lia).
      rewrite length_fmap, length_seq, Nat.sub_diag.
      replace (K - n)%nat with (S (K - S n)) by lia. done.
    + f_equal; [|lia]. by rewrite fmap_app, app_assoc.
Qed.

(** The parallel executor returns, for every command, the outcome of its
    slot, provided that no interrupt is pending and that [fuel] sweeps are
    enough for every slot. *)
Lemma run_parallel_executor fuel nodeNameArray nodePortArray
    commandStringArray K backend :
  no_interrupt →
  (∀ i, (i < K)%nat →
     is_Some (slot_outcome fuel
                (handle_for (handlesIssued backend + i)
                   (nodeNameArray !!! i) (nodePortArray !!! i))
                (nodeNameArray !!! i) (nodePortArray !!! i)
                (commandStringArray !!! i))) →
  ∃ statuses results backend',
    ExecuteCommandsInParallelAndStoreResults fuel nodeNameArray nodePortArray
      commandStringArray (replicate K false) (replicate K makeStringInfo)
      (Z.of_nat K) backend
    = (Returned (statuses, results), backend')
    ∧ length statuses = K
    ∧ length results = K
    ∧ ∀ i, (i < K)%nat →
        slot_outcome fuel
          (handle_for (handlesIssued backend + i)
             (nodeNameArray !!! i) (nodePortArray !!! i))
          (nodeNameArray !!! i) (nodePortArray !!! i)
          (commandStringArray !!! i)
        = Some (statuses !!! i, results !!! i).
Proof.
  intros Hquiet Hends. unfold ExecuteCommandsInParallelAndStoreResults.
  rewrite Nat2Z.id.
  rewrite (run_bind_returned _ _ _ _ _
             (start_phase nodeNameArray nodePortArray _ _ K K backend
                ltac:(lia))).
  rewrite Nat.sub_diag, app_nil_r.
  set (connectionOf i :=
         handle_for (handlesIssued backend + i) (nodeNameArray !!! i)
           (nodePortArray !!! i)) in *.
  set (locals1 := {| statusArray := replicate K false;
                     resultStringArray := replicate K makeStringInfo;
                     connectionArray := (λ i, Some (connectionOf i)) <$> seq 0 K;
                     finishedCount := 0 |}).
  set (backend1 := {| eventLog := _; handlesIssued := _; interruptChecks := _;
                      commandsExecuted := _ |}).
  assert (slots_ok K locals1) as Hok1.
  { constructor; simpl.
    - by rewrite length_replicate.
    - by rewrite length_replicate.
    - by rewrite length_fmap, length_seq.
    - by rewrite count_closed_open. }
  assert (∀ i, (i < K)%nat →
            get_slot locals1 i = (false, makeStringInfo, Some (connectionOf i)))
    as Hslot1.
  { intros i Hi. unfold get_slot, locals1. simpl.
    rewrite !lookup_total_replicate_2 by done.
    rewrite (list_lookup_total_fmap (λ i, Some (connectionOf i)))
      by (by rewrite length_seq).
    by rewrite lookup_total_seq_lt. }
  destruct (slot_loop K
              (λ i, establish_slot (nodeNameArray !!! i) (nodePortArray !!! i))
              (λ _, establish_events)
              (establish_connection nodeNameArray nodePortArray)
              (λ i l b, establish_connection_slot nodeNameArray nodePortArray
                          K i l b)
              K locals1 backend1 ltac:(lia) Hok1)
    as (locals2 & backend2 & Hrun2 & _ & _ & _ & Hok2 & Hslot2 & _).
  rewrite (run_bind_returned _ _ _ _ _ Hrun2).
  destruct (slot_loop K (λ i, send_slot (commandStringArray !!! i))
              (λ i, send_events (commandStringArray !!! i))
              (send_query commandStringArray)
              (λ i l b, send_query_slot commandStringArray K i l b)
              K locals2 backend2 ltac:(lia) Hok2)
    as (locals3 & backend3 & Hrun3 & _ & _ & _ & Hok3 & Hslot3 & _).
  rewrite (run_bind_returned _ _ _ _ _ Hrun3).
  assert (∀ i, (i < K)%nat →
            get_slot locals3 i
            = send_slot (commandStringArray !!! i)
                (establish_slot (nodeNameArray !!! i) (nodePortArray !!! i)
                   (false, makeStringInfo, Some (connectionOf i)))) as Hslot.
  { intros i Hi. by rewrite Hslot3, Hslot2, Hslot1. }
  destruct (poll_loop_run K fuel 0 locals3 backend3 Hquiet Hok3)
    as (locals4 & backend4 & Hrun4 & Hstatus & Hresult & Hfinal).
  { intros i connection Hi Hopen. specialize (Hends i Hi).
    unfold slot_outcome in Hends. fold (connectionOf i) in Hends.
    rewrite <- (Hslot i Hi) in Hends. unfold get_slot in Hends.
    by rewrite Hopen in Hends. }
  rewrite (run_bind_returned _ _ _ _ _ Hrun4).
  destruct locals4 as [statuses results connections finished].
  exists statuses, results, backend4. rewrite run_ret.
  split; [done|]. split; [done|]. split; [done|].
  intros i Hi. specialize (Hfinal i Hi). simpl in Hfinal.
  unfold slot_outcome. fold (connectionOf i).
  rewrite <- (Hslot i Hi). unfold get_slot.
  destruct (connectionArray locals3 !!! i); [done|].
  by destruct Hfinal as [-> ->].
Qed.

End SlotLoops.

(** ** The sequential executor, command by command *)

Section Sequential.
Context `{!RemoteEnv}.

Lemma run_ExecuteRemoteQueryOrCommand nodeName nodePort queryString buffer
    backend :
  ∃ backend',
    ExecuteRemoteQueryOrCommand nodeName nodePort queryString buffer backend
    = (Returned
         (command_outcome
            (handle_for (handlesIssued backend) nodeName
               (to_int32 (to_uint32 nodePort)))
            nodeName nodePort queryString buffer),
       backend')
    ∧ handlesIssued backend' = S (handlesIssued backend)
    ∧ interruptChecks backend' = interruptChecks backend.
Proof.
  unfold ExecuteRemoteQueryOrCommand, command_outcome.
  rewrite run_bind. cbn [GetNodeConnection issue_handle].
  fold (handle_for (handlesIssued backend) nodeName
          (to_int32 (to_uint32 nodePort))).
  destruct (decide (PQstatus _ ≠ CONNECTION_OK)).
  { rewrite run_ret. eauto. }
  rewrite run_bind. unfold SendRemoteCommand at 1.
  destruct (querySentAnswer _ queryString =? 0).
  { rewrite run_ret. eauto. }
  destruct (EvaluateQueryResult _ _ buffer) as [success text].
  rewrite run_bind. unfold CloseConnection at 1. rewrite run_ret. eauto.
Qed.

Lemma sequential_loop nodeNameArray nodePortArray commandStringArray K n
    statuses results backend :
  no_interrupt →
  (n ≤ K)%nat → length statuses = K → length results = K →
  ∃ statuses' results' backend',
    for_loop (seq 0 n)
      (execute_command nodeNameArray nodePortArray commandStringArray)
      (statuses, results) backend
    = (Returned (statuses', results'), backend')
    ∧ handlesIssued backend' = (handlesIssued backend + n)%nat
    ∧ length statuses' = K
    ∧ length results' = K
    ∧ (∀ i, (i < n)%nat →
         (statuses' !!! i, results' !!! i)
         = command_outcome
             (handle_for (handlesIssued backend + i) (nodeNameArray !!! i)
                (to_int32 (to_uint32 (nodePortArray !!! i))))
             (nodeNameArray !!! i) (nodePortArray !!! i)
             (commandStringArray !!! i) (results !!! i))
    ∧ (∀ i, (n ≤ i)%nat → results' !!! i = results !!! i).
Proof.
  intros Hquiet. induction n as [|n IH]; intros Hn Hstatuses Hresults.
  - exists statuses, results, backend. simpl. rewrite run_ret.
    split; [done|]. split; [lia|]. split; [done|]. split; [done|].
    split; [intros i Hi; lia|done].
  - destruct (IH ltac:(lia) Hstatuses Hresults)
      as (statuses1 & results1 & backend1 & Hrun1 & Hhandles1 & Hlen1 & Hlen1'
          & Hdone1 & Hrest1).
    rewrite seq_S, for_loop_snoc. simpl.
    rewrite (run_bind_returned _ _ _ _ _ Hrun1).
    unfold execute_command.
    destruct (run_ExecuteRemoteQueryOrCommand (nodeNameArray !!! n)
                (nodePortArray !!! n) (commandStringArray !!! n)
                (results1 !!! n) backend1)
      as (backend2 & Hrun2 & Hhandles2 & Hchecks2).
    rewrite (run_bind_returned _ _ _ _ _ Hrun2).
    destruct (command_outcome _ _ _ _ (results1 !!! n))
      as [success text] eqn:Houtcome.
    destruct (run_CHECK_FOR_INTERRUPTS backend2 Hquiet)
      as (backend3 & Hrun3 & Hhandles3).
    rewrite (run_bind_returned _ _ _ _ _ Hrun3), run_ret.
    eexists _, _, backend3. split; [done|].
    split; [lia|]. rewrite !length_insert.
    split; [done|]. split; [done|]. split.
    + intros i Hi. destruct (decide (i = n)) as [->|Hne].
      * rewrite !list_lookup_total_insert_eq by lia.
        rewrite <- Houtcome, Hhandles1, Hrest1 by lia. done.
      * rewrite !list_lookup_total_insert_ne by done. apply Hdone1. lia.
    + intros i Hi. rewrite list_lookup_total_insert_ne by lia.
      apply Hrest1. lia.
Qed.

Lemma run_sequential_executor nodeNameArray nodePortArray commandStringArray K
    backend :
  no_interrupt →
  ∃ statuses results backend',
    ExecuteCommandsAndStoreResults nodeNameArray nodePortArray
      commandStringArray (replicate K false) (replicate K makeStringInfo)
      (Z.of_nat K) backend
    = (Returned (statuses, results), backend')
    ∧ length statuses = K
    ∧ length results = K
    ∧ ∀ i, (i < K)%nat →
        (statuses !!! i, results !!! i)
        = command_outcome
            (handle_for (handlesIssued backend + i) (nodeNameArray !!! i)
               (to_int32 (to_uint32 (nodePortArray !!! i))))
            (nodeNameArray !!! i) (nodePortArray !!! i)
            (commandStringArray !!! i) makeStringInfo.
Proof.
  intros Hquiet. unfold ExecuteCommandsAndStoreResults. rewrite Nat2Z.id.
  destruct (sequential_loop nodeNameArray nodePortArray commandStringArray K K
              (replicate K false) (replicate K makeStringInfo) backend Hquiet
              ltac:(lia) ltac:(by rewrite length_replicate)
              ltac:(by rewrite length_replicate))
    as (statuses & results & backend' & Hrun & _ & Hlen & Hlen' & Hdone & _).
  exists statuses, results, backend'. split; [done|].
  split; [done|]. split; [done|].
  intros i Hi. rewrite (Hdone i Hi).
  by rewrite lookup_total_replicate_2.
Qed.

End Sequential.

(** ** The entry point, row by row *)

Lemma fmap_lookup_total_seq {A} `{!Inhabited A} (l : list A) (n : nat) :
  n = length l → (λ i, l !!! i) <$> seq 0 n = l.
Proof.
  intros ->. apply list_eq. intros i. rewrite list_lookup_fmap.
  destruct (decide (i < length l)%nat) as [Hi|Hi].
  - rewrite lookup_seq_lt by done. simpl.
    symmetry. by apply list_lookup_lookup_total_lt.
  - rewrite (lookup_ge_None_2 l) by lia.
    by rewrite lookup_ge_None_2 by (rewrite length_seq; lia).
Qed.

Section Rows.
Context `{!RemoteEnv}.

Lemma responds_finished connection sweep text :
  responds connection sweep →
  (GetConnectionStatusAndResult connection sweep text).1.1 = true.
Proof.
  unfold responds, GetConnectionStatusAndResult.
  intros Hresponds.
  destruct (decide (PQstatusAt connection sweep = CONNECTION_BAD)); [done|].
  destruct (PQconsumeInput connection sweep =? 0) eqn:Hconsume; [done|].
  destruct (PQisBusy connection sweep =? 0) eqn:Hbusy; simpl.
  - by destruct (EvaluateQueryResult _ _ _).
  - apply Z.eqb_neq in Hconsume, Hbusy. by destruct Hresponds as [|[|]].
Qed.

Lemma poll_outcome_ends fuel sweep connection k :
  responds connection k →
  (sweep ≤ k)%nat → (k < sweep + fuel)%nat →
  is_Some (poll_outcome fuel sweep connection).
Proof.
  intros Hresponds. revert sweep.
  induction fuel as [|fuel IH]; intros sweep Hfrom Huntil; [lia|].
  simpl.
  destruct (GetConnectionStatusAndResult connection sweep "")
    as [[queryFinished success] text] eqn:Hpoll.
  destruct queryFinished; [done|].
  apply IH; [|lia].
  destruct (decide (sweep = k)) as [->|]; [|lia].
  pose proof (responds_finished connection k "" Hresponds) as Hfinished.
  by rewrite Hpoll in Hfinished.
Qed.

Lemma slot_outcome_ends fuel connection nodeName nodePort queryString k :
  responds connection k → (k < fuel)%nat →
  is_Some (slot_outcome fuel connection nodeName nodePort queryString).
Proof.
  intros Hresponds Hk. unfold slot_outcome, establish_slot, send_slot.
  destruct (decide (PQstatus connection ≠ CONNECTION_OK)); [done|].
  destruct (querySentAnswer connection queryString =? 0); [done|].
  apply (poll_outcome_ends fuel 0 connection k); [done|lia..].
Qed.

Lemma bounded_choice (P : nat → nat → Prop) (K : nat) :
  (∀ i, (i < K)%nat → ∃ k, P i k) →
  ∃ bound, ∀ i, (i < K)%nat → ∃ k, (k < bound)%nat ∧ P i k.
Proof.
  induction K as [|K IH]; intros Hall.
  - exists 0%nat. intros i Hi. lia.
  - destruct IH as [bound Hbound]; [intros i Hi; apply Hall; lia|].
    destruct (Hall K ltac:(lia)) as [k Hk].
    exists (bound `max` S k)%nat. intros i Hi.
    destruct (decide (i = K)) as [->|Hne].
    + exists k. split; [lia|done].
    + destruct (Hbound i ltac:(lia)) as (k' & Hk' & HP).
      exists k'. split; [lia|done].
Qed.

Lemma run_master_run_on_worker fuel rsinfo nodeNames nodePorts commands
    parallel backend :
  valid_call rsinfo nodeNames nodePorts commands →
  no_interrupt →
  (∀ i, (i < length nodeNames)%nat →
     is_Some (row_outcome parallel fuel (handlesIssued backend + i)
                (nodeNames !!! i) (nodePorts !!! i) (commands !!! i))) →
  ∃ rows backend',
    master_run_on_worker fuel rsinfo nodeNames nodePorts commands parallel
      backend
    = (Returned rows, backend')
    ∧ length rows = length nodeNames
    ∧ ∀ i, (i < length nodeNames)%nat →
        ∃ status text,
          row_outcome parallel fuel (handlesIssued backend + i)
            (nodeNames !!! i) (nodePorts !!! i) (commands !!! i)
          = Some (status, text)
          ∧ rows !! i
            = Some {| node_name := nodeNames !!! i;
                      node_port := nodePorts !!! i;
                      success := status;
                      result := text |}.
Proof.
  intros ((info & -> & Hmode) & (info' & [= <-] & Hshape) & Hsame) Hquiet Hends.
  unfold master_run_on_worker.
  apply Z.eqb_neq in Hmode. rewrite Hmode.
  rewrite run_bind. unfold ParseCommandParameters.
  rewrite (proj2 (length_check _ _ _) Hsame), run_ret.
  rewrite (proj2 (tuple_descriptor_check _) Hshape).
  unfold ArrayObjectCount. rewrite !Nat2Z.id.
  destruct Hsame as [Hports Hcommands].
  rewrite (fmap_lookup_total_seq nodeNames) by done.
  rewrite (fmap_lookup_total_seq nodePorts) by done.
  rewrite (fmap_lookup_total_seq commands) by done.
  set (K := length nodeNames) in *.
  assert (∃ statuses results backend',
            (if parallel
             then ExecuteCommandsInParallelAndStoreResults fuel nodeNames
                    nodePorts commands (replicate K false)
                    (replicate K makeStringInfo) (Z.of_nat K)
             else ExecuteCommandsAndStoreResults nodeNames nodePorts commands
                    (replicate K false) (replicate K makeStringInfo)
                    (Z.of_nat K)) backend
            = (Returned (statuses, results), backend')
            ∧ length statuses = K ∧ length results = K
            ∧ ∀ i, (i < K)%nat →
                row_outcome parallel fuel (handlesIssued backend + i)
                  (nodeNames !!! i) (nodePorts !!! i) (commands !!! i)
                = Some (statuses !!! i, results !!! i))
    as (statuses & results & backend' & Hrun & Hstatuses & Hresults & Hrows).
  { unfold row_outcome in *. destruct parallel.
    - by apply run_parallel_executor.
    - destruct (run_sequential_executor nodeNames nodePorts commands K backend
                  Hquiet)
        as (statuses & results & backend' & Hrun & ? & ? & Hrows).
      exists statuses, results, backend'. repeat (split; [done|]).
      intros i Hi. by rewrite <- Hrows. }
  rewrite (run_bind_returned _ _ _ _ _ Hrun), run_ret.
  eexists _, backend'. split; [done|]. unfold CreateTupleStore.
  split; [by rewrite length_fmap, length_seq, Nat2Z.id|].
  intros i Hi. exists (statuses !!! i), (results !!! i).
  split; [by apply Hrows|].
  by rewrite Nat2Z.id, list_lookup_fmap, lookup_seq_lt.
Qed.

End Rows.

Lemma to_int32_to_uint32 (x : Z) : int32_ok x → to_int32 (to_uint32 x) = x.
Proof.
  unfold int32_ok, to_int32, to_uint32.
  change (2 ^ 32) with 4294967296. change (2 ^ 31) with 2147483648.
  intros Hx. rewrite Zplus_mod_idemp_l, Z.mod_small; lia.
Qed.

Section RowTheorems.
Context `{!RemoteEnv}.

Lemma enough_fuel nodeNames nodePorts commands parallel backend :
  same_length nodeNames nodePorts commands →
  (parallel = true → responsive nodeNames nodePorts backend) →
  ∃ enough, ∀ fuel, (enough ≤ fuel)%nat →
    ∀ i, (i < length nodeNames)%nat →
      is_Some (row_outcome parallel fuel (handlesIssued backend + i)
                 (nodeNames !!! i) (nodePorts !!! i) (commands !!! i)).
Proof.
  intros [Hports Hcommands] Hresponsive. destruct parallel.
  - destruct (bounded_choice
                (λ i k, responds (handle_for (handlesIssued backend + i)
                                    (nodeNames !!! i) (nodePorts !!! i)) k)
                (length nodeNames)) as [enough Henough].
    { intros i Hi. apply (Hresponsive eq_refl i).
      - by apply list_lookup_lookup_total_lt.
      - apply list_lookup_lookup_total_lt. lia. }
    exists enough. intros fuel Hfuel i Hi.
    destruct (Henough i Hi) as (k & Hk & Hresponds).
    apply (slot_outcome_ends fuel _ _ _ _ k); [done|lia].
  - exists 0%nat. intros fuel _ i Hi. done.
Qed.

(** C1: a valid call that is not interrupted, and whose connections all
    answer or fail in the end when they are polled, returns one row per
    command, row [i] carrying the node name and the port of input [i], in
    the sequential and in the parallel mode alike and whatever the sweeps in
    which the commands complete. *)
Theorem master_run_on_worker_rows
    (rsinfo : option ReturnSetInfo) (nodeNames : list string)
    (nodePorts : list Z) (commands : list string) (parallel : bool)
    (backend : Backend) :
  valid_call rsinfo nodeNames nodePorts commands →
  no_interrupt →
  (parallel = true → responsive nodeNames nodePorts backend) →
  ∃ enough, ∀ fuel, (enough ≤ fuel)%nat →
    ∃ rows backend',
      master_run_on_worker fuel rsinfo nodeNames nodePorts commands parallel
        backend
      = (Returned rows, backend')
      ∧ length rows = length nodeNames
      ∧ ∀ i nodeName nodePort,
          nodeNames !! i = Some nodeName → nodePorts !! i = Some nodePort →
          ∃ row,
            rows !! i = Some row
            ∧ node_name row = nodeName
            ∧ node_port row = nodePort.
Proof.
  intros Hvalid Hquiet Hresponsive.
  destruct (enough_fuel nodeNames nodePorts commands parallel backend
              (proj2 (proj2 Hvalid)) Hresponsive) as [enough Henough].
  exists enough. intros fuel Hfuel.
  destruct (run_master_run_on_worker fuel rsinfo nodeNames nodePorts commands
              parallel backend Hvalid Hquiet (Henough fuel Hfuel))
    as (rows & backend' & Hrun & Hlength & Hrows).
  exists rows, backend'. split; [done|]. split; [done|].
  intros i nodeName nodePort Hname Hport.
  destruct (Hrows i) as (status & text & _ & Hrow).
  { by eapply lookup_lt_Some. }
  eexists. split; [exact Hrow|]. simpl.
  by rewrite (list_lookup_total_correct _ _ _ Hname),
    (list_lookup_total_correct _ _ _ Hport).
Qed.

End RowTheorems.

(** ** The connections an executor requests, uses and closes *)

Lemma sent_over_app events1 events2 :
  sent_over (events1 ++ events2) = sent_over events1 ++ sent_over events2.
Proof. apply omap_app. Qed.

Lemma closed_in_app events1 events2 :
  closed_in (events1 ++ events2) = closed_in events1 ++ closed_in events2.
Proof. apply omap_app. Qed.

Lemma elem_of_sent_over events connection :
  connection ∈ sent_over events ↔ ∃ command, Sent connection command ∈ events.
Proof.
  unfold sent_over. rewrite list_elem_of_omap. split.
  - intros (event & Hin & Hsent). destruct event; try done.
    injection Hsent as ->. eauto.
  - intros (command & Hin). by exists (Sent connection command).
Qed.

Lemma elem_of_closed_in events connection :
  connection ∈ closed_in events ↔ Closed connection ∈ events.
Proof.
  unfold closed_in. rewrite list_elem_of_omap. split.
  - intros (event & Hin & Hclosed). destruct event; try done.
    by injection Hclosed as ->.
  - intros Hin. by exists (Closed connection).
Qed.

Lemma sent_over_settling events :
  Forall settling_event events → sent_over events = [].
Proof.
  induction 1 as [|event events Hevent _ IH]; [done|].
  destruct event; try done; exact IH.
Qed.

(** A loop that logs, for index [j], the events [events j], of which [pick]
    selects the connection [connectionOf j] when [mark j] holds and nothing
    otherwise: what [pick] selects from the whole log. *)
Lemma phase_pick (pick : list ConnEvent → list MultiConnection) (h K : nat)
    (connectionOf : nat → MultiConnection) (events : nat → list ConnEvent)
    (mark : nat → Prop) :
  (∀ front back, pick (front ++ back) = pick front ++ pick back) →
  pick [] = [] →
  (∀ j, connectionId (connectionOf j) = (h + j)%nat) →
  (∀ j, (j < K)%nat →
     (pick (events j) = [connectionOf j] ∧ mark j)
     ∨ (pick (events j) = [] ∧ ¬ mark j)) →
  (∀ connection,
     connection ∈ pick (mjoin (events <$> seq 0 K))
     ↔ ∃ j, (j < K)%nat ∧ connection = connectionOf j ∧ mark j)
  ∧ NoDup (connectionId <$> pick (mjoin (events <$> seq 0 K))).
Proof.
  intros Happ Hnil Hids. induction K as [|K IH]; intros Hevents.
  - simpl. rewrite Hnil. split; [|constructor].
    intros connection. split; [by intros ?%not_elem_of_nil|].
    intros (j & Hj & _). lia.
  - destruct IH as [Hin Hone]; [intros j Hj; apply Hevents; lia|].
    rewrite seq_S, fmap_app, join_app, Happ. simpl. rewrite app_nil_r.
    destruct (Hevents K ltac:(lia)) as [[-> Hmark]|[-> Hmark]].
    + split.
      * intros connection. rewrite elem_of_app, Hin, list_elem_of_singleton.
        split.
        -- intros [(j & Hj & -> & Hmarked)| ->].
           ++ exists j. split; [lia|done].
           ++ exists K. split; [lia|done].
        -- intros (j & Hj & -> & Hmarked).
           destruct (decide (j = K)) as [->|]; [by right|].
           left. exists j. split; [lia|done].
      * rewrite fmap_app. apply NoDup_app. split; [done|].
        split; [|apply NoDup_singleton].
        intros id (c & -> & Hc)%list_elem_of_fmap Hid.
        apply Hin in Hc as (j & Hj & -> & _).
        apply list_elem_of_singleton in Hid. rewrite !Hids in Hid. lia.
    + rewrite app_nil_r. split; [|done].
      intros connection. rewrite Hin. split.
      * intros (j & Hj & -> & Hmarked). exists j. split; [lia|done].
      * intros (j & Hj & -> & Hmarked).
        destruct (decide (j = K)) as [->|]; [done|].
        exists j. split; [lia|done].
Qed.

Lemma Forall_phase (P : ConnEvent → Prop) (K : nat)
    (events : nat → list ConnEvent) :
  (∀ j, (j < K)%nat → Forall P (events j)) →
  Forall P (mjoin (events <$> seq 0 K)).
Proof.
  intros Hevents. apply Forall_join, Forall_forall.
  intros l (j & -> & Hj%elem_of_seq)%list_elem_of_fmap.
  apply Hevents. lia.
Qed.

Section Discipline.
Context `{!RemoteEnv}.

Lemma fresh_use_nil lo hi : fresh_use lo hi [].
Proof.
  split; [constructor|]. split; [by intros ? ? ?%not_elem_of_nil|].
  split; [by intros ? ?%not_elem_of_nil|]. split; [constructor|].
  split; [by intros ? ?%not_elem_of_nil|constructor].
Qed.

#[global] Instance uses_fresh_preorder : PreOrder uses_fresh.
Proof.
  split.
  - intros backend. split; [done|]. exists []. rewrite app_nil_r.
    split; [done|]. apply fresh_use_nil.
  - intros b1 b2 b3
      (Hle1 & events1 & Hlog1 & Hforced1 & Hrange1 & Hasked1 & Hone1 & Hclosed1
       & Honce1)
      (Hle2 & events2 & Hlog2 & Hforced2 & Hrange2 & Hasked2 & Hone2 & Hclosed2
       & Honce2).
    split; [lia|]. exists (events1 ++ events2).
    split; [by rewrite Hlog2, Hlog1, app_assoc|].
    split; [by apply Forall_app|].
    split; [|split; [|split; [|split]]].
    + intros connectionFlags connection [Hin|Hin]%elem_of_app.
      * apply Hrange1 in Hin. lia.
      * apply Hrange2 in Hin. lia.
    + intros connection. rewrite sent_over_app, !elem_of_app.
      intros [Hin|Hin]; [left|right]; auto.
    + rewrite sent_over_app, fmap_app. apply NoDup_app.
      split; [done|]. split; [|done].
      intros id (c1 & -> & Hc1)%list_elem_of_fmap
        (c2 & Hid & Hc2)%list_elem_of_fmap.
      apply Hasked1, Hrange1 in Hc1. apply Hasked2, Hrange2 in Hc2. lia.
    + intros connection. rewrite closed_in_app, sent_over_app, !elem_of_app.
      intros [Hin|Hin].
      * destruct (Hclosed1 _ Hin). auto.
      * destruct (Hclosed2 _ Hin). auto.
    + rewrite closed_in_app, fmap_app. apply NoDup_app.
      split; [done|]. split; [|done].
      intros id (c1 & -> & Hc1)%list_elem_of_fmap
        (c2 & Hid & Hc2)%list_elem_of_fmap.
      apply Hclosed1 in Hc1 as [Hc1 _]. apply Hclosed2 in Hc2 as [Hc2 _].
      apply Hasked1, Hrange1 in Hc1. apply Hasked2, Hrange2 in Hc2. lia.
Qed.

#[global] Instance sent_are_closed_preorder : PreOrder sent_are_closed.
Proof.
  split.
  - intros backend. exists []. rewrite app_nil_r. split; [done|].
    by intros ? ? ?%not_elem_of_nil.
  - intros b1 b2 b3 (events1 & Hlog1 & Hclosed1) (events2 & Hlog2 & Hclosed2).
    exists (events1 ++ events2). split; [by rewrite Hlog2, Hlog1, app_assoc|].
    intros connection command. rewrite closed_in_app, !elem_of_app.
    intros [Hin|Hin] Hsent; [left|right]; eauto.
Qed.

(** *** The sequential executor *)

(** The three logs a single command can leave. *)
Lemma log_ExecuteRemoteQueryOrCommand nodeName nodePort queryString buffer
    backend :
  let connection :=
    handle_for (handlesIssued backend) nodeName
      (to_int32 (to_uint32 nodePort)) in
  let backend' :=
    (ExecuteRemoteQueryOrCommand nodeName nodePort queryString buffer
       backend).2 in
  handlesIssued backend' = S (handlesIssued backend)
  ∧ ((PQstatus connection ≠ CONNECTION_OK
      ∧ eventLog backend'
        = eventLog backend ++ [Requested FORCE_NEW_CONNECTION connection])
     ∨ (PQstatus connection = CONNECTION_OK
        ∧ querySentAnswer connection queryString = 0
        ∧ eventLog backend'
          = eventLog backend
            ++ [Requested FORCE_NEW_CONNECTION connection;
                Sent connection queryString])
     ∨ (PQstatus connection = CONNECTION_OK
        ∧ querySentAnswer connection queryString ≠ 0
        ∧ eventLog backend'
          = eventLog backend
            ++ [Requested FORCE_NEW_CONNECTION connection;
                Sent connection queryString;
                Closed connection])).
Proof.
  intros connection. unfold ExecuteRemoteQueryOrCommand.
  rewrite run_bind. cbn [GetNodeConnection issue_handle].
  fold (handle_for (handlesIssued backend) nodeName
          (to_int32 (to_uint32 nodePort))).
  fold connection.
  destruct (decide (PQstatus connection ≠ CONNECTION_OK)) as [Hbad|Hgood].
  { rewrite run_ret. split; [done|]. by left. }
  assert (PQstatus connection = CONNECTION_OK) as Hok.
  { by destruct (decide (PQstatus connection = CONNECTION_OK)). }
  rewrite run_bind. unfold SendRemoteCommand.
  destruct (querySentAnswer connection queryString =? 0) eqn:Hsent.
  { rewrite run_ret. split; [done|]. right. left.
    apply Z.eqb_eq in Hsent. split; [done|]. split; [done|].
    unfold record_event. cbn [eventLog snd]. by rewrite <- app_assoc. }
  destruct (EvaluateQueryResult _ _ buffer) as [success text].
  rewrite run_bind. unfold CloseConnection. rewrite run_ret.
  split; [done|]. right. right.
  apply Z.eqb_neq in Hsent. split; [done|]. split; [done|].
  unfold record_event. cbn [eventLog snd]. by rewrite <- !app_assoc.
Qed.

Lemma uses_fresh_ExecuteRemoteQueryOrCommand nodeName nodePort queryString
    buffer backend :
  uses_fresh backend
    (ExecuteRemoteQueryOrCommand nodeName nodePort queryString buffer
       backend).2
  ∧ sent_are_closed backend
      (ExecuteRemoteQueryOrCommand nodeName nodePort queryString buffer
         backend).2.
Proof.
  destruct (log_ExecuteRemoteQueryOrCommand nodeName nodePort queryString
              buffer backend) as [Hhandles Hlog].
  set (connection := handle_for (handlesIssued backend) nodeName
                       (to_int32 (to_uint32 nodePort))) in *.
  set (backend' := (ExecuteRemoteQueryOrCommand _ _ _ _ _).2) in *.
  assert (∀ events,
            eventLog backend' = eventLog backend ++ events →
            Forall executor_event events →
            (∀ flags c, Requested flags c ∈ events → c = connection) →
            Requested FORCE_NEW_CONNECTION connection ∈ events →
            sent_over events = [] ∨ sent_over events = [connection] →
            closed_in events = []
            ∨ (closed_in events = [connection]
               ∧ sent_over events = [connection]
               ∧ PQstatus connection = CONNECTION_OK) →
            uses_fresh backend backend') as Hfresh.
  { intros events Hevents Hforced Hrequested Hasked Hsent Hclosed.
    split; [lia|]. exists events. split; [done|]. rewrite Hhandles.
    split; [done|]. split; [|split; [|split; [|split]]].
    - intros flags c ->%Hrequested. simpl. lia.
    - intros c Hc. destruct Hsent as [Hsent|Hsent]; rewrite Hsent in Hc.
      + by apply not_elem_of_nil in Hc.
      + by apply list_elem_of_singleton in Hc as ->.
    - destruct Hsent as [->| ->]; [constructor|apply NoDup_singleton].
    - intros c Hc. destruct Hclosed as [Hnone|(Hone & Hsent' & Hgood)].
      + rewrite Hnone in Hc. by apply not_elem_of_nil in Hc.
      + rewrite Hone in Hc. apply list_elem_of_singleton in Hc as ->.
        rewrite Hsent'. split; [by apply list_elem_of_singleton|done].
    - destruct Hclosed as [->|(-> & _)]; [constructor|apply NoDup_singleton]. }
  destruct Hlog as [[Hbad Hlog]|[(Hgood & Hsent & Hlog)|(Hgood & Hsent & Hlog)]].
  - split.
    + apply (Hfresh _ Hlog).
      * by repeat constructor.
      * by intros flags c [= _ ->]%list_elem_of_singleton.
      * by apply list_elem_of_singleton.
      * by left.
      * by left.
    + eexists. split; [exact Hlog|].
      intros c command Hin%list_elem_of_singleton. done.
  - split.
    + apply (Hfresh _ Hlog).
      * by repeat constructor.
      * intros flags c Hin. rewrite !elem_of_cons in Hin.
        destruct Hin as [[= _ ->]|[[=]|Hin]]; [done|].
        by apply not_elem_of_nil in Hin.
      * by left.
      * by right.
      * by left.
    + eexists. split; [exact Hlog|].
      intros c command Hin [[=]|Hanswer]. rewrite !elem_of_cons in Hin.
      destruct Hin as [[=]|[[= -> ->]|Hin]]; [done|].
      by apply not_elem_of_nil in Hin.
  - split.
    + apply (Hfresh _ Hlog).
      * by repeat constructor.
      * intros flags c Hin. rewrite !elem_of_cons in Hin.
        destruct Hin as [[= _ ->]|[[=]|[[=]|Hin]]]; [done|].
        by apply not_elem_of_nil in Hin.
      * by left.
      * by right.
      * by right.
    + eexists. split; [exact Hlog|].
      intros c command Hin _. rewrite !elem_of_cons in Hin.
      destruct Hin as [[=]|[[= -> ->]|[[=]|Hin]]].
      * by apply list_elem_of_singleton.
      * by apply not_elem_of_nil in Hin.
Qed.

Lemma maintains_discipline_sequential (R : relation Backend) `{!PreOrder R}
    nodeNameArray nodePortArray commandStringArray statuses results
    commandCount :
  (∀ nodeName nodePort queryString buffer backend,
     R backend
       (ExecuteRemoteQueryOrCommand nodeName nodePort queryString buffer
          backend).2) →
  (∀ backend, R backend (CHECK_FOR_INTERRUPTS backend).2) →
  maintains R (λ _, True)
    (ExecuteCommandsAndStoreResults nodeNameArray nodePortArray
       commandStringArray statuses results commandCount).
Proof.
  intros Hcommand Hcheck. unfold ExecuteCommandsAndStoreResults.
  apply maintains_for_loop; [apply _|]. intros i [statuses' results'].
  unfold execute_command. apply maintains_bind; [apply _| |].
  { intros backend. split; [apply Hcommand|done]. }
  intros [success text]. apply maintains_bind; [apply _| |].
  { intros backend. split; [apply Hcheck|done]. }
  intros _. apply maintains_ret; apply _.
Qed.

Lemma discipline_sequential nodeNameArray nodePortArray commandStringArray
    statuses results commandCount backend :
  let backend' :=
    (ExecuteCommandsAndStoreResults nodeNameArray nodePortArray
       commandStringArray statuses results commandCount backend).2 in
  uses_fresh backend backend' ∧ sent_are_closed backend backend'.
Proof.
  split.
  - apply (maintains_discipline_sequential uses_fresh).
    + intros. apply uses_fresh_ExecuteRemoteQueryOrCommand.
    + intros b. unfold CHECK_FOR_INTERRUPTS.
      destruct (InterruptPending _); (split; [done|]); exists [];
        (split; [by rewrite app_nil_r|apply fresh_use_nil]).
  - apply (maintains_discipline_sequential sent_are_closed).
    + intros. apply uses_fresh_ExecuteRemoteQueryOrCommand.
    + intros b. unfold CHECK_FOR_INTERRUPTS.
      destruct (InterruptPending _); exists [];
        (split; [by rewrite app_nil_r|by intros ? ? ?%not_elem_of_nil]).
Qed.

(** *** The parallel executor *)

Lemma send_slot_cases queryString (s : slot) :
  (s.2 = None
   ∧ send_events queryString s = []
   ∧ (send_slot queryString s).2 = None)
  ∨ ∃ connection,
      s.2 = Some connection
      ∧ ((send_events queryString s
          = [Sent connection queryString; Closed connection]
          ∧ (send_slot queryString s).2 = None)
         ∨ (send_events queryString s = [Sent connection queryString]
            ∧ (send_slot queryString s).2 = Some connection)).
Proof.
  destruct s as [[status text] [connection|]]; [|by left].
  right. exists connection. split; [done|]. simpl.
  destruct (querySentAnswer connection queryString =? 0); [by left|by right].
Qed.

Lemma sweep_slot_cases sweep (s : slot) :
  (∃ connection,
     s.2 = Some connection
     ∧ (sweep_slot sweep s).2 = None
     ∧ sweep_events sweep s = [Closed connection])
  ∨ ((sweep_slot sweep s).2 = s.2 ∧ sweep_events sweep s = []).
Proof.
  destruct s as [[status text] [connection|]]; [|by right].
  simpl.
  destruct (GetConnectionStatusAndResult connection sweep text)
    as [[[] success] text']; simpl; [left|right]; eauto.
Qed.

(** The poll loop closes connections that are open when it starts, none of
    them twice, and all of them when it returns. *)
Lemma poll_loop_closes K (h : nat) (connectionOf : nat → MultiConnection)
    fuel :
  (∀ j, connectionId (connectionOf j) = (h + j)%nat) →
  ∀ sweep locals backend,
    slots_ok K locals →
    (∀ j connection,
       (j < K)%nat → connectionArray locals !!! j = Some connection →
       connection = connectionOf j) →
    ∃ outcome backend' events,
      poll_loop fuel sweep (Z.of_nat K) locals backend = (outcome, backend')
      ∧ eventLog backend' = eventLog backend ++ events
      ∧ handlesIssued backend' = handlesIssued backend
      ∧ Forall settling_event events
      ∧ NoDup (connectionId <$> closed_in events)
      ∧ (∀ connection,
           connection ∈ closed_in events →
           ∃ j, (j < K)%nat
                ∧ connectionArray locals !!! j = Some connection)
      ∧ (∀ locals',
           outcome = Returned locals' →
           ∀ j connection,
             (j < K)%nat → connectionArray locals !!! j = Some connection →
             connection ∈ closed_in events).
Proof.
  intros Hids.
  assert (∀ locals, slots_ok K locals →
            (finishedCount locals <? Z.of_nat K) = false →
            ∀ i, (i < K)%nat → connectionArray locals !!! i = None) as Hfull.
  { intros locals [_ _ Hconnection Hfinished] Hdone%Z.ltb_ge i Hi.
    pose proof (count_closed_le (connectionArray locals)).
    apply count_closed_full; lia. }
  assert (∀ locals backend,
            slots_ok K locals →
            (finishedCount locals <? Z.of_nat K) = false →
            ∃ outcome backend' events,
              (mret locals : M ParallelLocals) backend = (outcome, backend')
              ∧ eventLog backend' = eventLog backend ++ events
              ∧ handlesIssued backend' = handlesIssued backend
              ∧ Forall settling_event events
              ∧ NoDup (connectionId <$> closed_in events)
              ∧ (∀ connection,
                   connection ∈ closed_in events →
                   ∃ j, (j < K)%nat
                        ∧ connectionArray locals !!! j = Some connection)
              ∧ (∀ locals',
                   outcome = Returned locals' →
                   ∀ j connection,
                     (j < K)%nat →
                     connectionArray locals !!! j = Some connection →
                     connection ∈ closed_in events)) as Hdone.
  { intros locals backend Hok Htest.
    exists (Returned locals), backend, []. rewrite app_nil_r.
    split; [done|]. split; [done|]. split; [done|]. split; [constructor|].
    split; [constructor|]. split; [by intros ? ?%not_elem_of_nil|].
    intros _ _ j connection Hj Hslot.
    by rewrite (Hfull locals Hok Htest j Hj) in Hslot. }
  induction fuel as [|fuel IH]; intros sweep locals backend Hok Hopen.
  - simpl. destruct (finishedCount locals <? Z.of_nat K) eqn:Htest;
      [|by apply Hdone].
    exists OutOfFuel, backend, []. rewrite app_nil_r.
    split; [done|]. split; [done|]. split; [done|]. split; [constructor|].
    split; [constructor|]. split; [by intros ? ?%not_elem_of_nil|done].
  - simpl. destruct (finishedCount locals <? Z.of_nat K) eqn:Htest;
      [|by apply Hdone].
    rewrite Nat2Z.id.
    destruct (slot_loop K (λ _, sweep_slot sweep) (λ _, sweep_events sweep)
                (check_query_result sweep)
                (λ i l b, check_query_result_slot sweep K i l b)
                K locals backend ltac:(lia) Hok)
      as (locals1 & backend1 & Hrun1 & _ & Hhandles1 & Hlog1 & Hok1 & Hswept
          & _).
    rewrite (run_bind_returned _ _ _ _ _ Hrun1).
    set (swept := mjoin ((λ j, sweep_events sweep (get_slot locals j))
                         <$> seq 0 K)) in *.
    destruct (phase_pick closed_in h K connectionOf
                (λ j, sweep_events sweep (get_slot locals j))
                (λ j, connectionArray locals !!! j = Some (connectionOf j)
                      ∧ connectionArray locals1 !!! j = None)
                closed_in_app eq_refl Hids) as [Hin1 Hone1].
    { intros j Hj. specialize (Hswept j Hj).
      destruct (sweep_slot_cases sweep (get_slot locals j))
        as [(c & Hc & Hnone & Hevents)|[Hsame Hevents]];
        rewrite Hevents; rewrite <- Hswept in *; simpl in *.
      - left. pose proof (Hopen j c Hj Hc) as ->. done.
      - right. split; [done|]. intros [Hsome Hnone]. congruence. }
    fold swept in Hin1, Hone1.
    assert (Forall settling_event swept) as Hsettle1.
    { apply Forall_phase. intros j Hj.
      destruct (sweep_slot_cases sweep (get_slot locals j))
        as [(c & _ & _ & ->)|[_ ->]]; by repeat constructor. }
    assert (∀ j connection,
              (j < K)%nat → connectionArray locals1 !!! j = Some connection →
              connectionArray locals !!! j = Some connection) as Hopen1.
    { intros j connection Hj Hslot. specialize (Hswept j Hj).
      destruct (sweep_slot_cases sweep (get_slot locals j))
        as [(c & _ & Hnone & _)|[Hsame _]];
        rewrite <- Hswept in *; simpl in *; congruence. }
    rewrite run_bind. unfold CHECK_FOR_INTERRUPTS at 1.
    destruct (InterruptPending (interruptChecks backend1)).
    { eexists _, _, swept. split; [reflexivity|]. simpl.
      split; [done|]. split; [done|]. split; [done|]. split; [done|].
      split; [|done].
      intros connection (j & Hj & -> & Hsome & _)%Hin1. eauto. }
    set (backend2 := {| eventLog := eventLog backend1;
                        handlesIssued := handlesIssued backend1;
                        interruptChecks := S (interruptChecks backend1);
                        commandsExecuted := commandsExecuted backend1 |}).
    rewrite run_bind.
    assert (∃ backend3 slept,
              (if finishedCount locals1 <? Z.of_nat K
               then pg_usleep (RemoteTaskCheckInterval * 1000)
               else mret ()) backend2 = (Returned (), backend3)
              ∧ eventLog backend3 = eventLog backend1 ++ slept
              ∧ handlesIssued backend3 = handlesIssued backend1
              ∧ Forall settling_event slept
              ∧ closed_in slept = [])
      as (backend3 & slept & -> & Hlog3 & Hhandles3 & Hsettle3 & Hquiet3).
    { destruct (finishedCount locals1 <? Z.of_nat K).
      - eexists _, [Slept _]. split; [reflexivity|]. simpl.
        split; [done|]. split; [done|]. split; [by repeat constructor|done].
      - eexists _, []. split; [reflexivity|]. simpl. rewrite app_nil_r.
        split; [done|]. split; [done|]. split; [constructor|done]. }
    destruct (IH (S sweep) locals1 backend3 Hok1)
      as (outcome & backend' & events2 & Hrun & Hlog & Hhandles & Hsettle2
          & Hone2 & Hin2 & Hall2).
    { intros j connection Hj Hslot. apply (Hopen j); [done|].
      by apply Hopen1. }
    exists outcome, backend', (swept ++ slept ++ events2).
    split; [done|].
    split; [by rewrite Hlog, Hlog3, Hlog1, <- !app_assoc|].
    split; [congruence|].
    split; [by rewrite !Forall_app|].
    rewrite !closed_in_app, Hquiet3. simpl.
    split; [|split].
    + rewrite fmap_app. apply NoDup_app. split; [done|]. split; [|done].
      intros id (c1 & -> & Hc1)%list_elem_of_fmap
        (c2 & Hid & Hc2)%list_elem_of_fmap.
      apply Hin1 in Hc1 as (j1 & Hj1 & -> & _ & Hnone).
      apply Hin2 in Hc2 as (j2 & Hj2 & Hsome).
      pose proof (Hopen j2 c2 Hj2 (Hopen1 j2 c2 Hj2 Hsome)) as ->.
      rewrite !Hids in Hid. assert (j1 = j2) as -> by lia. congruence.
    + intros connection [Hin|Hin]%elem_of_app.
      * apply Hin1 in Hin as (j & Hj & -> & Hsome & _). eauto.
      * apply Hin2 in Hin as (j & Hj & Hsome). eauto.
    + intros locals' Hreturned j connection Hj Hslot. apply elem_of_app.
      destruct (connectionArray locals1 !!! j) as [c|] eqn:Hslot1.
      * right. apply (Hall2 locals' Hreturned j); [done|].
        pose proof (Hopen1 j c Hj Hslot1). congruence.
      * left. apply Hin1. exists j. split; [done|].
        pose proof (Hopen j connection Hj Hslot) as ->. done.
Qed.

(** The parallel executor: the connections it requests, sends over and
    closes, whatever the outcome of the run. *)
Lemma discipline_parallel fuel nodeNameArray nodePortArray commandStringArray
    K backend :
  ∃ outcome backend' events,
    ExecuteCommandsInParallelAndStoreResults fuel nodeNameArray nodePortArray
      commandStringArray (replicate K false) (replicate K makeStringInfo)
      (Z.of_nat K) backend
    = (outcome, backend')
    ∧ eventLog backend' = eventLog backend ++ events
    ∧ (handlesIssued backend ≤ handlesIssued backend')%nat
    ∧ fresh_use (handlesIssued backend) (handlesIssued backend') events
    ∧ (∀ value, outcome = Returned value → closes_sent true events).
Proof.
  unfold ExecuteCommandsInParallelAndStoreResults. rewrite Nat2Z.id.
  rewrite (run_bind_returned _ _ _ _ _
             (start_phase nodeNameArray nodePortArray _ _ K K backend
                ltac:(lia))).
  rewrite Nat.sub_diag, app_nil_r.
  set (connectionOf i :=
         handle_for (handlesIssued backend + i) (nodeNameArray !!! i)
           (nodePortArray !!! i)).
  assert (∀ j, connectionId (connectionOf j) = (handlesIssued backend + j)%nat)
    as Hids by done.
  set (requests := (λ i, Requested FORCE_NEW_CONNECTION (connectionOf i))
                   <$> seq 0 K).
  set (locals1 := {| statusArray := replicate K false;
                     resultStringArray := replicate K makeStringInfo;
                     connectionArray := (λ i, Some (connectionOf i)) <$> seq 0 K;
                     finishedCount := 0 |}).
  set (backend1 := {| eventLog := _; handlesIssued := _; interruptChecks := _;
                      commandsExecuted := _ |}).
  assert (slots_ok K locals1) as Hok1.
  { constructor; simpl.
    - by rewrite length_replicate.
    - by rewrite length_replicate.
    - by rewrite length_fmap, length_seq.
    - by rewrite count_closed_open. }
  assert (∀ i, (i < K)%nat →
            get_slot locals1 i = (false, makeStringInfo, Some (connectionOf i)))
    as Hslot1.
  { intros i Hi. unfold get_slot, locals1. simpl.
    rewrite !lookup_total_replicate_2 by done.
    rewrite (list_lookup_total_fmap (λ i, Some (connectionOf i)))
      by (by rewrite length_seq).
    by rewrite lookup_total_seq_lt. }
  destruct (slot_loop K
              (λ i, establish_slot (nodeNameArray !!! i) (nodePortArray !!! i))
              (λ _, establish_events)
              (establish_connection nodeNameArray nodePortArray)
              (λ i l b, establish_connection_slot nodeNameArray nodePortArray
                          K i l b)
              K locals1 backend1 ltac:(lia) Hok1)
    as (locals2 & backend2 & Hrun2 & _ & Hhandles2 & Hlog2 & Hok2 & Hslot2 & _).
  rewrite (run_bind_returned _ _ _ _ _ Hrun2).
  destruct (slot_loop K (λ i, send_slot (commandStringArray !!! i))
              (λ i, send_events (commandStringArray !!! i))
              (send_query commandStringArray)
              (λ i l b, send_query_slot commandStringArray K i l b)
              K locals2 backend2 ltac:(lia) Hok2)
    as (locals3 & backend3 & Hrun3 & _ & Hhandles3 & Hlog3 & Hok3 & Hslot3 & _).
  rewrite (run_bind_returned _ _ _ _ _ Hrun3).
  assert (eventLog backend2 = eventLog backend ++ requests) as Hlog2'.
  { rewrite Hlog2. unfold establish_events.
    rewrite (join_nil_2 _); [by rewrite app_nil_r|].
    apply Forall_forall. by intros l (j & -> & _)%list_elem_of_fmap. }
  set (sends := mjoin ((λ j, send_events (commandStringArray !!! j)
                               (get_slot locals2 j)) <$> seq 0 K)) in *.
  assert (∀ j connection,
            (j < K)%nat → connectionArray locals2 !!! j = Some connection →
            connection = connectionOf j
            ∧ PQstatus connection = CONNECTION_OK) as Hopen2.
  { intros j connection Hj Hslot. specialize (Hslot2 j Hj).
    rewrite (Hslot1 j Hj) in Hslot2. unfold get_slot in Hslot2.
    unfold establish_slot in Hslot2.
    destruct (decide (PQstatus (connectionOf j) ≠ CONNECTION_OK)) as [|Hgood];
      injection Hslot2 as _ _ Hc; rewrite Hc in Hslot; [done|].
    injection Hslot as <-. split; [done|].
    by destruct (decide (PQstatus (connectionOf j) = CONNECTION_OK)). }
  destruct (phase_pick sent_over (handlesIssued backend) K connectionOf
              (λ j, send_events (commandStringArray !!! j) (get_slot locals2 j))
              (λ j, connectionArray locals2 !!! j = Some (connectionOf j))
              sent_over_app eq_refl Hids) as [Hsent Hone].
  { intros j Hj.
    destruct (send_slot_cases (commandStringArray !!! j) (get_slot locals2 j))
      as [(Hnone & -> & _)|(c & Hc & [[-> _]|[-> _]])]; simpl in *.
    - right. split; [done|]. congruence.
    - left. by destruct (Hopen2 j c Hj Hc) as [-> _].
    - left. by destruct (Hopen2 j c Hj Hc) as [-> _]. }
  destruct (phase_pick closed_in (handlesIssued backend) K connectionOf
              (λ j, send_events (commandStringArray !!! j) (get_slot locals2 j))
              (λ j, connectionArray locals2 !!! j = Some (connectionOf j)
                    ∧ connectionArray locals3 !!! j = None)
              closed_in_app eq_refl Hids) as [Hclosed Honce].
  { intros j Hj. specialize (Hslot3 j Hj).
    destruct (send_slot_cases (commandStringArray !!! j) (get_slot locals2 j))
      as [(Hnone & -> & _)|(c & Hc & [[-> Hafter]|[-> Hafter]])];
      rewrite <- ?Hslot3 in *; simpl in *.
    - right. split; [done|]. intros [? _]. congruence.
    - left. by destruct (Hopen2 j c Hj Hc) as [-> _].
    - right. split; [done|]. intros [_ ?]. congruence. }
  fold sends in Hsent, Hone, Hclosed, Honce.
  assert (Forall (λ event,
                    executor_event event
                    ∧ ∀ connectionFlags connection,
                        event ≠ Requested connectionFlags connection) sends)
    as Hforced.
  { apply Forall_phase. intros j Hj.
    destruct (send_slot_cases (commandStringArray !!! j) (get_slot locals2 j))
      as [(_ & -> & _)|(c & _ & [[-> _]|[-> _]])]; by repeat constructor. }
  assert (∀ j connection,
            (j < K)%nat → connectionArray locals3 !!! j = Some connection →
            connectionArray locals2 !!! j = Some connection) as Hopen3.
  { intros j connection Hj Hslot. specialize (Hslot3 j Hj).
    destruct (send_slot_cases (commandStringArray !!! j) (get_slot locals2 j))
      as [(_ & _ & Hafter)|(c & Hc & [[_ Hafter]|[_ Hafter]])];
      rewrite <- Hslot3 in *; simpl in *; congruence. }
  destruct (poll_loop_closes K (handlesIssued backend) connectionOf fuel Hids 0
              locals3 backend3 Hok3)
    as (outcome & backend4 & settled & Hrun4 & Hlog4 & Hhandles4 & Hsettled
        & Honce4 & Hclosed4 & Hall4).
  { intros j connection Hj Hslot.
    by destruct (Hopen2 j connection Hj (Hopen3 j connection Hj Hslot)). }
  assert (∃ outcome',
            (poll_loop fuel 0 (Z.of_nat K) locals3
             ≫= (λ locals,
                   let '{| statusArray := statusArray;
                           resultStringArray := resultStringArray |} :=
                     locals in
                   mret (statusArray, resultStringArray))) backend3
            = (outcome', backend4)
            ∧ ∀ value, outcome' = Returned value →
                       ∃ locals4, outcome = Returned locals4)
    as (outcome' & Hrun & Hreturned).
  { rewrite run_bind, Hrun4. destruct outcome as [[? ? ? ?]| |].
    - eexists. split; [reflexivity|]. eauto.
    - eexists. split; [reflexivity|]. done.
    - eexists. split; [reflexivity|]. done. }
  exists outcome', backend4, (requests ++ sends ++ settled).
  split; [exact Hrun|].
  split; [by rewrite Hlog4, Hlog3, Hlog2', <- !app_assoc|].
  rewrite Hhandles4, Hhandles3, Hhandles2. simpl.
  split; [lia|].
  assert (∀ event, event ∈ requests →
            ∃ i, (i < K)%nat
                 ∧ event = Requested FORCE_NEW_CONNECTION (connectionOf i))
    as Hrequests.
  { intros event (i & -> & Hi%elem_of_seq)%list_elem_of_fmap.
    exists i. split; [lia|done]. }
  assert (sent_over requests = [] ∧ closed_in requests = [])
    as [Hquiet1 Hquiet1'].
  { unfold requests. generalize (seq 0 K). intros l.
    induction l as [|i l IH]; [done|]. by rewrite fmap_cons. }
  assert (closed_in (requests ++ sends ++ settled)
          = closed_in sends ++ closed_in settled) as Hclosed_all.
  { by rewrite !closed_in_app, Hquiet1'. }
  assert (sent_over (requests ++ sends ++ settled) = sent_over sends)
    as Hsent_all.
  { rewrite !sent_over_app, Hquiet1.
    by rewrite (sent_over_settling settled Hsettled), app_nil_r. }
  split; [split; [|split; [|split; [|split; [|split]]]]|].
  - rewrite !Forall_app. split; [|split].
    + apply Forall_forall. by intros event (i & _ & ->)%Hrequests.
    + eapply Forall_impl; [exact Hforced|]. by intros event [? _].
    + eapply Forall_impl; [exact Hsettled|]. by intros [].
  - intros connectionFlags connection.
    rewrite !elem_of_app. intros [Hin|[Hin|Hin]].
    + apply Hrequests in Hin as (i & Hi & [= _ ->]). simpl. lia.
    + rewrite Forall_forall in Hforced.
      destruct (Hforced _ Hin) as [_ Hnot].
      by destruct (Hnot connectionFlags connection).
    + rewrite Forall_forall in Hsettled. by apply Hsettled in Hin.
  - intros connection. rewrite Hsent_all.
    intros (j & Hj & -> & _)%Hsent.
    apply elem_of_app. left. apply list_elem_of_fmap.
    exists j. split; [done|]. apply elem_of_seq. lia.
  - by rewrite Hsent_all.
  - intros connection. rewrite Hclosed_all, Hsent_all.
    intros [Hin|Hin]%elem_of_app.
    + apply Hclosed in Hin as (j & Hj & -> & Hsome & _).
      split; [apply Hsent; eauto|].
      by destruct (Hopen2 j _ Hj Hsome).
    + apply Hclosed4 in Hin as (j & Hj & Hsome%Hopen3); [|done].
      destruct (Hopen2 j _ Hj Hsome) as [-> Hgood].
      split; [apply Hsent; eauto|done].
  - rewrite Hclosed_all, fmap_app. apply NoDup_app.
    split; [done|]. split; [|done].
    intros id (c1 & -> & Hc1)%list_elem_of_fmap
      (c2 & Hid & Hc2)%list_elem_of_fmap.
    apply Hclosed in Hc1 as (j1 & Hj1 & -> & _ & Hnone).
    apply Hclosed4 in Hc2 as (j2 & Hj2 & Hsome).
    destruct (Hopen2 j2 c2 Hj2 (Hopen3 j2 c2 Hj2 Hsome)) as [-> _].
    rewrite !Hids in Hid. assert (j1 = j2) as -> by lia. congruence.
  - intros value (locals4 & Hreturned4)%Hreturned connection command Hin _.
    rewrite Hclosed_all.
    assert (connection ∈ sent_over sends) as Hover.
    { rewrite <- Hsent_all. apply elem_of_sent_over. eauto. }
    apply Hsent in Hover as (j & Hj & -> & Hsome).
    apply elem_of_app.
    destruct (connectionArray locals3 !!! j) as [c|] eqn:Hslot.
    + right. apply (Hall4 locals4 Hreturned4 j); [done|].
      pose proof (Hopen3 j c Hj Hslot). congruence.
    + left. apply Hclosed. eauto.
Qed.

(** *** Both executors, from the entry point *)

Lemma discipline_master_run_on_worker fuel rsinfo nodeNames nodePorts commands
    parallel backend :
  ∃ outcome backend' events,
    master_run_on_worker fuel rsinfo nodeNames nodePorts commands parallel
      backend
    = (outcome, backend')
    ∧ eventLog backend' = eventLog backend ++ events
    ∧ fresh_use (handlesIssued backend) (handlesIssued backend') events
    ∧ (∀ rows, outcome = Returned rows → closes_sent parallel events).
Proof.
  assert (∀ code message,
            ∃ outcome backend' events,
              (ereport code message : M (list ResultRow)) backend
              = (outcome, backend')
              ∧ eventLog backend' = eventLog backend ++ events
              ∧ fresh_use (handlesIssued backend) (handlesIssued backend')
                  events
              ∧ (∀ rows, outcome = Returned rows →
                         closes_sent parallel events)) as Hraised.
  { intros code message. eexists _, _, []. split; [reflexivity|].
    rewrite app_nil_r. split; [done|]. split; [apply fresh_use_nil|done]. }
  unfold master_run_on_worker, ParseCommandParameters.
  destruct rsinfo as [info|]; [|apply Hraised].
  destruct (_ =? _); [apply Hraised|].
  rewrite run_bind.
  destruct (_ || _); [apply Hraised|]. rewrite run_ret.
  destruct (_ || _); [apply Hraised|].
  unfold ArrayObjectCount. rewrite Nat2Z.id.
  match goal with
  | |- ∃ _ _ _, (?executor ≫= ?k) _ = _ ∧ _ =>
      assert (∃ outcome backend' events,
                executor backend = (outcome, backend')
                ∧ eventLog backend' = eventLog backend ++ events
                ∧ fresh_use (handlesIssued backend) (handlesIssued backend')
                    events
                ∧ (∀ value, outcome = Returned value →
                            closes_sent parallel events))
        as (outcome & backend' & events & Hrun & Hlog & Hfresh & Hclosed)
  end.
  { destruct parallel; cbv iota.
    - match goal with
      | |- context [ExecuteCommandsInParallelAndStoreResults _ ?names ?ports
                      ?queries] =>
          destruct (discipline_parallel fuel names ports queries
                      (length nodeNames) backend)
            as (outcome & backend' & events & Hrun & Hlog & _ & Hfresh
                & Hclosed)
      end.
      exists outcome, backend', events. split; [exact Hrun|]. done.
    - match goal with
      | |- ∃ _ _ _, ?run = _ ∧ _ =>
          destruct run as [outcome backend'] eqn:Hrun
      end.
      match type of Hrun with
      | ExecuteCommandsAndStoreResults ?names ?ports ?queries _ _ _ _ = _ =>
          destruct (discipline_sequential names ports queries
                      (replicate (length nodeNames) false)
                      (replicate (length nodeNames) makeStringInfo)
                      (Z.of_nat (length nodeNames)) backend)
            as [(_ & events & Hlog & Hfresh) (events' & Hlog' & Hclosed)]
      end.
      rewrite Hrun in *. simpl in *.
      assert (events' = events) as ->.
      { apply (app_inv_head (eventLog backend)). congruence. }
      exists outcome, backend', events. done. }
  rewrite run_bind, Hrun.
  destruct outcome as [[statuses results]| |].
  - eexists _, _, events. split; [reflexivity|]. split; [done|].
    split; [done|]. eauto.
  - eexists _, _, events. split; [reflexivity|]. done.
  - eexists _, _, events. split; [reflexivity|]. done.
Qed.

End Discipline.

(** ** Connections: how they are requested and when they are closed *)

Lemma closed_once before after connection :
  NoDup (connectionId <$> closed_in (before ++ Closed connection :: after)) →
  (Closed connection ∉ before) ∧ (Closed connection ∉ after).
Proof.
  rewrite closed_in_app. simpl. rewrite fmap_app, fmap_cons.
  intros (_ & Hapart & [Hafter _]%NoDup_cons)%NoDup_app. split.
  - intros Hin%elem_of_closed_in.
    apply (Hapart (connectionId connection)).
    + apply list_elem_of_fmap. eauto.
    + by left.
  - intros Hin%elem_of_closed_in. apply Hafter.
    apply list_elem_of_fmap. eauto.
Qed.

Section Requests.
Context `{!RemoteEnv}.

(** C8, as the code has it: every connection the two executors request is
    requested with [FORCE_NEW_CONNECTION], every command they send goes over
    a connection requested so within the call, and no connection carries two
    commands; the connectivity check requests one connection per source node
    with no flag set, so not forced new, to the port of the node as a C
    [int], and runs the probes of all targets of that source over it. *)
Theorem connection_requests :
  (∀ fuel rsinfo nodeNames nodePorts commands parallel backend,
     ∃ events,
       eventLog (master_run_on_worker fuel rsinfo nodeNames nodePorts commands
                   parallel backend).2
       = eventLog backend ++ events
       ∧ (∀ connectionFlags connection,
            Requested connectionFlags connection ∈ events →
            connectionFlags = FORCE_NEW_CONNECTION
            ∧ forced_new connectionFlags = true)
       ∧ (∀ connection command,
            Sent connection command ∈ events →
            Requested FORCE_NEW_CONNECTION connection ∈ events)
       ∧ NoDup (connectionId <$> sent_over events))
  ∧ (∀ nodes backend,
       let workerNodeList := SortList nodes CompareWorkerNodes in
       let connectionTo i source :=
         handle_for (handlesIssued backend + i) (workerName source)
           (to_int32 (workerPort source)) in
       eventLog (citus_check_cluster_node_health nodes backend).2
       = eventLog backend
         ++ mjoin (imap (λ i source,
                           Requested 0 (connectionTo i source)
                           :: ((λ target,
                                  Executed (connectionTo i source)
                                    (GetConnectivityCheckCommand
                                       (workerName target)
                                       (to_int32 (workerPort target))))
                               <$> workerNodeList))
                     workerNodeList)
       ∧ forced_new 0 = false).
Proof.
  split.
  - intros fuel rsinfo nodeNames nodePorts commands parallel backend.
    destruct (discipline_master_run_on_worker fuel rsinfo nodeNames nodePorts
                commands parallel backend)
      as (outcome & backend' & events & Hrun & Hlog
          & (Hevents & _ & Hasked & Hone & _) & _).
    rewrite Hrun. simpl.
    exists events. split; [done|]. split; [|split; [|done]].
    + intros connectionFlags connection Hin.
      rewrite Forall_forall in Hevents. apply Hevents in Hin. simpl in Hin.
      by subst.
    + intros connection command Hin. apply Hasked.
      apply elem_of_sent_over. eauto.
  - intros nodes backend workerNodeList connectionTo. split; [|done].
    destruct (run_citus_check_cluster_node_health nodes backend)
      as (backend' & Hrun & Hlog).
    rewrite Hrun. simpl. rewrite Hlog. reflexivity.
Qed.

(** C7, as the code has it: whatever the outcome of a call of
    [master_run_on_worker], no connection is closed twice, and a connection
    that is closed was requested in the call, was established and had a
    command sent over it; when the call returns its rows, every connection
    over which a command was sent is closed exactly once, in the sequential
    mode provided that the command could be sent. *)
Theorem connections_closed_once fuel rsinfo nodeNames nodePorts commands
    parallel backend :
  ∃ outcome backend' events,
    master_run_on_worker fuel rsinfo nodeNames nodePorts commands parallel
      backend
    = (outcome, backend')
    ∧ eventLog backend' = eventLog backend ++ events
    ∧ NoDup (connectionId <$> closed_in events)
    ∧ (∀ connection,
         Closed connection ∈ events →
         PQstatus connection = CONNECTION_OK
         ∧ Requested FORCE_NEW_CONNECTION connection ∈ events
         ∧ ∃ command, Sent connection command ∈ events)
    ∧ (∀ rows,
         outcome = Returned rows →
         ∀ connection command,
           Sent connection command ∈ events →
           parallel = true ∨ querySentAnswer connection command ≠ 0 →
           ∃ before after,
             events = before ++ Closed connection :: after
             ∧ (Closed connection ∉ before)
             ∧ (Closed connection ∉ after)).
Proof.
  destruct (discipline_master_run_on_worker fuel rsinfo nodeNames nodePorts
              commands parallel backend)
    as (outcome & backend' & events & Hrun & Hlog
        & (_ & _ & Hasked & _ & Hclosed & Honce) & Hall).
  exists outcome, backend', events.
  split; [done|]. split; [done|]. split; [done|]. split.
  - intros connection [Hsent Hgood]%elem_of_closed_in%Hclosed.
    split; [done|]. split; [by apply Hasked|].
    by apply elem_of_sent_over.
  - intros rows Hreturned connection command Hin Hsent.
    pose proof (Hall rows Hreturned connection command Hin Hsent) as Hc.
    apply elem_of_closed_in, list_elem_of_split in Hc
      as (before & after & ->).
    exists before, after. split; [done|]. by apply closed_once.
Qed.

End Requests.

(** C8, as it is stated, fails: the connection the connectivity check opens
    to its one source node is requested with no flag set. *)
Lemma connectivity_check_connection_not_forced :
  let connection := handle_for 0 "a" 5432 in
  eventLog (citus_check_cluster_node_health (H := calm) [node_a] idle).2
  = [Requested 0 connection;
     Executed connection "SELECT citus_check_connection_to_node('a', 5432)"]
  ∧ ¬ (∀ connectionFlags connection,
         Requested connectionFlags connection
         ∈ eventLog
             (citus_check_cluster_node_health (H := calm) [node_a] idle).2 →
         forced_new connectionFlags = true).
Proof.
  split; [reflexivity|].
  intros Hforced.
  specialize (Hforced 0 (handle_for 0 "a" 5432)).
  assert (forced_new 0 = true) as Hzero; [|done].
  apply Hforced. vm_compute. by left.
Qed.

(** C7, as it is stated, fails: a cancel request found by the poll loop is
    raised with the connection still open, and a connection that could not be
    established is not closed by either executor. *)
Lemma connection_left_open :
  let connection := handle_for 0 "a" 5432 in
  let closes_all (events : list ConnEvent) :=
    ∀ connectionFlags connection,
      Requested connectionFlags connection ∈ events →
      Closed connection ∈ events in
  master_run_on_worker (H := cancelled) 1 set_returning ["a"] [5432]
    ["SELECT 1"] true idle
  = (Raised QueryCanceled,
     {| eventLog := [Requested FORCE_NEW_CONNECTION connection;
                     Sent connection "SELECT 1"];
        handlesIssued := 1; interruptChecks := 1; commandsExecuted := 0 |})
  ∧ ¬ closes_all
        (eventLog (master_run_on_worker (H := cancelled) 1 set_returning ["a"]
                     [5432] ["SELECT 1"] true idle).2)
  ∧ (∀ parallel,
       master_run_on_worker (H := node_down "a") 1 set_returning ["a"] [5432]
         ["SELECT 1"] parallel idle
       = (Returned [{| node_name := "a"; node_port := 5432; success := false;
                       result := "failed to connect to a:5432" |}],
          {| eventLog := [Requested FORCE_NEW_CONNECTION connection];
             handlesIssued := 1;
             interruptChecks := if parallel then 0 else 1;
             commandsExecuted := 0 |})
       ∧ ¬ closes_all
             (eventLog (master_run_on_worker (H := node_down "a") 1
                          set_returning ["a"] [5432] ["SELECT 1"] parallel
                          idle).2)).
Proof.
  assert (∀ events : list ConnEvent,
            events = [Requested FORCE_NEW_CONNECTION (handle_for 0 "a" 5432);
                      Sent (handle_for 0 "a" 5432) "SELECT 1"]
            ∨ events = [Requested FORCE_NEW_CONNECTION (handle_for 0 "a" 5432)]
            → ¬ ∀ connectionFlags connection,
                  Requested connectionFlags connection ∈ events →
                  Closed connection ∈ events) as Hopen.
  { intros events Hevents Hcloses.
    assert (Closed (handle_for 0 "a" 5432) ∈ events) as Hin.
    { apply (Hcloses FORCE_NEW_CONNECTION).
      destruct Hevents as [-> | ->]; by left. }
    destruct Hevents as [-> | ->]; rewrite !elem_of_cons in Hin.
    - destruct Hin as [[=]|[[=]|Hin]]. by apply not_elem_of_nil in Hin.
    - destruct Hin as [[=]|Hin]. by apply not_elem_of_nil in Hin. }
  cbv zeta. split; [vm_compute; reflexivity|]. split.
  - apply Hopen. left. vm_compute. reflexivity.
  - intros parallel. split.
    + destruct parallel; vm_compute; reflexivity.
    + apply Hopen. right. destruct parallel; vm_compute; reflexivity.
Qed.

(** When a command cannot be sent, the sequential executor returns without
    closing the connection it opened, where the parallel executor closes
    it. *)
Lemma send_failure_left_open :
  let connection := handle_for 0 "a" 5432 in
  master_run_on_worker (H := send_fails) 1 set_returning ["a"] [5432]
    ["SELECT 1"] false idle
  = (Returned [{| node_name := "a"; node_port := 5432; success := false;
                  result := "failed to send query to a:5432" |}],
     {| eventLog := [Requested FORCE_NEW_CONNECTION connection;
                     Sent connection "SELECT 1"];
        handlesIssued := 1; interruptChecks := 1; commandsExecuted := 0 |})
  ∧ eventLog (master_run_on_worker (H := send_fails) 1 set_returning ["a"]
                [5432] ["SELECT 1"] true idle).2
    = [Requested FORCE_NEW_CONNECTION connection;
       Sent connection "SELECT 1";
       Closed connection].
Proof. split; vm_compute; reflexivity. Qed.

(* ================================================================== *)
(** * The executors and the entry points in more detail *)

(** ** More on the result evaluator *)

Lemma append_empty (text : string) : text +:+ "" = text.
Proof.
  induction text as [|c text IH]; [done|].
  change (String c (text +:+ "") = String c text). by rewrite IH.
Qed.

Section EvaluationMore.
Context `{!RemoteEnv}.

(** The evaluator reports success exactly for a command that completed and
    for a query that returned one column and at most one row; whatever the
    result, it only appends to the result string, and what it appends for a
    command that completed is the command status. *)
Theorem EvaluateQueryResult_success connection queryResult buffer :
  ((EvaluateQueryResult connection queryResult buffer).1 = true
   ↔ PQresultStatus queryResult = PGRES_COMMAND_OK
     ∨ (PQresultStatus queryResult = PGRES_TUPLES_OK
        ∧ PQnfields queryResult = 1
        ∧ PQntuples queryResult <= 1))
  ∧ ∃ appended,
      (EvaluateQueryResult connection queryResult buffer).2
      = buffer +:+ appended
      ∧ (PQresultStatus queryResult = PGRES_COMMAND_OK →
           appended = PQcmdStatus queryResult).
Proof.
  unfold EvaluateQueryResult, StoreErrorMessage, appendStringInfo.
  destruct (decide (PQresultStatus queryResult = PGRES_COMMAND_OK))
    as [Hcommand|Hcommand]; simpl.
  { split; [|eexists; split; [reflexivity|done]]. split; [by left|done]. }
  destruct (decide (PQresultStatus queryResult = PGRES_TUPLES_OK))
    as [Htuples|Htuples]; simpl.
  2: { split; [|eexists; split; [reflexivity|done]]. split; [done|]. by intros [?|[? _]]. }
  destruct (PQnfields queryResult =? 1) eqn:Hfields; simpl.
  2: { split; [|eexists; split; [reflexivity|done]]. apply Z.eqb_neq in Hfields.
       split; [done|]. by intros [?|(_ & ? & _)]. }
  apply Z.eqb_eq in Hfields.
  destruct (1 <? PQntuples queryResult) eqn:Hrows; simpl.
  { split; [|eexists; split; [reflexivity|done]]. apply Z.ltb_lt in Hrows.
    split; [done|]. intros [?|(_ & _ & ?)]; [done|lia]. }
  apply Z.ltb_ge in Hrows.
  destruct (PQgetisnull queryResult 0 0 =? 0); simpl.
  - split; [|eexists; split; [reflexivity|done]]. split; [|done]. intros _. right. done.
  - split; [|exists ""; split; [by rewrite append_empty|done]].
    split; [|done]. intros _. right. done.
Qed.

End EvaluationMore.

Section PollingMore.
Context `{!RemoteEnv}.

(** One look at a connection during a sweep: what the result string held
    before is dropped; the command is finished exactly when the connection
    is broken, delivers no input or is not busy any more, a broken connection
    being reported before a failure to read; a command that is still busy is
    left with the status false and an empty result string. *)
Theorem GetConnectionStatusAndResult_sweep connection sweep buffer :
  let poll := GetConnectionStatusAndResult connection sweep buffer in
  poll = GetConnectionStatusAndResult connection sweep makeStringInfo
  ∧ (poll.1.1 = true ↔ responds connection sweep)
  ∧ (poll.1.1 = false → poll.1.2 = false ∧ poll.2 = "")
  ∧ (PQstatusAt connection sweep = CONNECTION_BAD →
       poll = (true, false, "connection lost"))
  ∧ (PQstatusAt connection sweep ≠ CONNECTION_BAD →
       PQconsumeInput connection sweep = 0 →
       poll = (true, false, "query result unavailable"))
  ∧ (PQstatusAt connection sweep ≠ CONNECTION_BAD →
       PQconsumeInput connection sweep ≠ 0 →
       PQisBusy connection sweep = 0 →
       poll.1.1 = true
       ∧ (poll.1.2, poll.2)
         = EvaluateQueryResult connection (PQgetResult connection sweep)
             makeStringInfo).
Proof.
  cbv zeta. split; [reflexivity|].
  unfold GetConnectionStatusAndResult, responds, resetStringInfo.
  destruct (decide (PQstatusAt connection sweep = CONNECTION_BAD))
    as [Hbad|Hgood]; simpl.
  { split; [split; [by left|done]|]. by repeat split. }
  destruct (PQconsumeInput connection sweep =? 0) eqn:Hconsume; simpl.
  { apply Z.eqb_eq in Hconsume.
    split; [split; [by right; left|done]|]. by repeat split. }
  apply Z.eqb_neq in Hconsume.
  destruct (PQisBusy connection sweep =? 0) eqn:Hbusy; simpl.
  - apply Z.eqb_eq in Hbusy.
    destruct (EvaluateQueryResult connection (PQgetResult connection sweep) "")
      as [success text] eqn:Hevaluated.
    simpl. split; [split; [by right; right|done]|].
    split; [done|]. split; [done|]. split; [done|]. done.
  - apply Z.eqb_neq in Hbusy.
    split; [split; [done|by intros [?|[?|?]]]|].
    split; [done|]. split; [done|]. split; [done|]. done.
Qed.

End PollingMore.

(** ** More on the entry points *)

Section EntryPoints.
Context `{!RemoteEnv}.

(** Which report a call of [master_run_on_worker] is left with: the one for
    the materialize mode comes first, then the one for the lengths of the
    three arrays, then the one for the tuple descriptor; each time the
    backend is as before the call. *)
Theorem master_run_on_worker_first_error fuel rsinfo nodeNames nodePorts
    commands parallel backend :
  let run :=
    master_run_on_worker fuel rsinfo nodeNames nodePorts commands parallel
      backend in
  (¬ materialize_allowed rsinfo →
     run
     = (Raised
          (ErrorReport ERRCODE_SYNTAX_ERROR
             "materialize mode required, but it is not allowed in this context"),
        backend))
  ∧ (materialize_allowed rsinfo →
     ¬ same_length nodeNames nodePorts commands →
     run
     = (Raised
          (ErrorReport ERRCODE_SYNTAX_ERROR
             "expected same number of node name, port, and query string"),
        backend))
  ∧ (materialize_allowed rsinfo →
     same_length nodeNames nodePorts commands →
     ¬ expected_shape rsinfo →
     run
     = (Raised
          (ErrorReport ERRCODE_INVALID_COLUMN_DEFINITION
             "query-specified return tuple and function return type are not compatible"),
        backend)).
Proof.
  cbv zeta. unfold master_run_on_worker.
  destruct rsinfo as [info|].
  2: { split; [done|]. split; by intros (? & [=] & _). }
  destruct (Z.land (allowedModes info) SFRM_Materialize =? 0) eqn:Hmode.
  { apply Z.eqb_eq in Hmode.
    split; [done|]. split; by intros (? & [= <-] & ?). }
  apply Z.eqb_neq in Hmode.
  split; [intros Hnot; destruct Hnot; by exists info|].
  rewrite run_bind. unfold ParseCommandParameters.
  destruct (negb (ArrayObjectCount nodeNames =? ArrayObjectCount nodePorts)
            || negb (ArrayObjectCount nodeNames =? ArrayObjectCount commands))
    eqn:Hlengths.
  { split; [done|]. intros _ Hsame%length_check. congruence. }
  apply length_check in Hlengths. rewrite run_ret.
  split; [done|]. intros _ _ Hshape.
  match goal with
  | |- (if ?test then _ else _) _ = _ => destruct test eqn:Hdescriptor
  end; [done|].
  apply tuple_descriptor_check in Hdescriptor.
  destruct Hshape. by exists info.
Qed.

(** When the three arrays have the same length, [ParseCommandParameters]
    hands them back as they are, with their common length, and leaves the
    backend alone. *)
Theorem ParseCommandParameters_arrays nodeNames nodePorts commands backend :
  same_length nodeNames nodePorts commands →
  ParseCommandParameters nodeNames nodePorts commands backend
  = (Returned (Z.of_nat (length nodeNames), nodeNames, nodePorts, commands),
     backend).
Proof.
  intros Hsame. unfold ParseCommandParameters.
  rewrite (proj2 (length_check _ _ _) Hsame), run_ret.
  unfold ArrayObjectCount. rewrite Nat2Z.id.
  destruct Hsame as [Hports Hcommands].
  rewrite (fmap_lookup_total_seq nodeNames) by done.
  rewrite (fmap_lookup_total_seq nodePorts) by done.
  by rewrite (fmap_lookup_total_seq commands) by done.
Qed.

(** [citus_check_connection_to_node] asks for one connection to the node,
    with no flag set, runs the connectivity query once over it and answers
    whether the round trip completed; it does not look at the state of the
    connection and does not close it.  A port of the [int] range reaches the
    connection layer as it was given. *)
Theorem citus_check_connection_to_node_probe nodeName nodePort backend :
  int32_ok nodePort →
  let connection := handle_for (handlesIssued backend) nodeName nodePort in
  citus_check_connection_to_node nodeName nodePort backend
  = (Returned
       (bool_decide
          ((optionalCommandAnswer connection CONNECTIVITY_CHECK_QUERY
              (commandsExecuted backend)).1 = RESPONSE_OKAY)),
     {| eventLog :=
          eventLog backend
          ++ [Requested 0 connection;
              Executed connection CONNECTIVITY_CHECK_QUERY];
        handlesIssued := S (handlesIssued backend);
        interruptChecks := interruptChecks backend;
        commandsExecuted := S (commandsExecuted backend) |}).
Proof.
  intros Hport connection.
  unfold citus_check_connection_to_node, CheckConnectionToNode.
  assert (to_int32 (to_uint32 (to_uint32 nodePort)) = nodePort) as Hsame.
  { replace (to_uint32 (to_uint32 nodePort)) with (to_uint32 nodePort)
      by (unfold to_uint32; by rewrite Z.mod_mod).
    by apply to_int32_to_uint32. }
  rewrite run_bind, run_bind. cbn [GetNodeConnection issue_handle].
  rewrite Hsame. fold (handle_for (handlesIssued backend) nodeName nodePort).
  fold connection. rewrite run_bind. unfold ExecuteOptionalRemoteCommand.
  cbn [commandsExecuted eventLog handlesIssued interruptChecks].
  destruct (optionalCommandAnswer connection CONNECTIVITY_CHECK_QUERY
              (commandsExecuted backend)) as [responseStatus result].
  rewrite !run_ret. simpl. f_equal.
  - f_equal. destruct (responseStatus =? RESPONSE_OKAY) eqn:Htest.
    + apply Z.eqb_eq in Htest. by rewrite bool_decide_eq_true_2.
    + apply Z.eqb_neq in Htest. by rewrite bool_decide_eq_false_2.
  - by rewrite <- app_assoc.
Qed.

Lemma length_matrix_rows targets sources h e :
  length (mjoin (imap (source_rows targets h e) sources))
  = (length sources * length targets)%nat.
Proof.
  revert h e. induction sources as [|source sources IH]; intros h e; [done|].
  rewrite imap_cons. simpl. rewrite length_app, length_source_rows.
  f_equal.
  rewrite <- (IH (S h) (e + length targets)%nat).
  f_equal. f_equal. apply imap_ext. intros i s _. unfold source_rows. simpl.
  f_equal; [f_equal; lia|lia].
Qed.

(** [StoreAllConnectivityChecks] adds one row per ordered pair of nodes to
    the tuple store it is given, after the rows already there; it asks for
    one connection per node and runs one remote command per ordered pair. *)
Theorem StoreAllConnectivityChecks_accounting nodes tupleStore backend :
  ∃ rows backend',
    StoreAllConnectivityChecks nodes tupleStore backend
    = (Returned (tupleStore ++ rows), backend')
    ∧ length rows = (length nodes * length nodes)%nat
    ∧ handlesIssued backend' = (handlesIssued backend + length nodes)%nat
    ∧ commandsExecuted backend'
      = (commandsExecuted backend + length nodes * length nodes)%nat.
Proof.
  unfold StoreAllConnectivityChecks.
  rewrite run_check_sources.
  assert (length (SortList nodes CompareWorkerNodes) = length nodes) as Hsorted.
  { apply Permutation_length, SortList_permutation. }
  eexists _, _. split; [reflexivity|].
  cbn [commandsExecuted eventLog handlesIssued interruptChecks].
  rewrite Hsorted. split; [|done].
  rewrite length_matrix_rows. by rewrite Hsorted.
Qed.

End EntryPoints.

(** ** The text of the connectivity check command *)

Lemma append_cons c (front back : string) :
  String c front +:+ back = String c (front +:+ back).
Proof. reflexivity. Qed.

Lemma append_assoc (a b c : string) : (a +:+ b) +:+ c = a +:+ (b +:+ c).
Proof.
  induction a as [|x a IH]; [done|]. by rewrite !append_cons, IH.
Qed.

Lemma occurs_append c (front back : string) :
  occurs c (front +:+ String c back) = true.
Proof.
  induction front as [|x front IH].
  - simpl. by rewrite Ascii.eqb_refl.
  - rewrite append_cons. simpl. rewrite IH. by destruct (Ascii.eqb x c).
Qed.

(** A text is cut in one way only at the last occurrence of a character. *)
Lemma cut_at_last c (front front' back back' : string) :
  occurs c back = false → occurs c back' = false →
  front +:+ String c back = front' +:+ String c back' →
  front = front' ∧ back = back'.
Proof.
  intros Hback Hback'. revert front'.
  induction front as [|x front IH]; intros [|x' front'].
  - by intros [= ->].
  - rewrite append_cons. intros [= <- ->].
    by rewrite occurs_append in Hback.
  - rewrite append_cons. intros [= -> <-].
    by rewrite occurs_append in Hback'.
  - rewrite !append_cons. intros [= -> Hrest].
    by destruct (IH front' Hrest) as [-> ->].
Qed.

Lemma occurs_string_of_uint d :
  occurs " " (NilEmpty.string_of_uint d) = false.
Proof. induction d; simpl; done. Qed.

Lemma occurs_format_d x : occurs " " (format_d x) = false.
Proof.
  unfold format_d, NilZero.string_of_int, NilZero.string_of_uint.
  destruct (Z.to_int x) as [[]|[]]; simpl; try done;
    apply occurs_string_of_uint.
Qed.

Lemma format_d_inj x y : format_d x = format_d y → x = y.
Proof.
  unfold format_d. intros Hsame.
  assert (∀ z, NilZero.int_of_string (NilZero.string_of_int (Z.to_int z))
               = Some (Z.to_int z)) as Hparse.
  { intros z. apply NilZero.isi; destruct z as [|p|p]; simpl; try done;
      intros [= Hnil]; by apply DecimalPos.Unsigned.to_uint_nonnil in Hnil. }
  pose proof (Hparse x) as Hx. rewrite Hsame, Hparse in Hx.
  injection Hx as Hx.
  by rewrite <- (DecimalZ.of_to x), <- (DecimalZ.of_to y), Hx.
Qed.

(** Two connectivity check commands are the same text only if they name the
    same node and the same port: the name is cut off the port at the last
    blank of the command, and the decimal text of a port determines it. *)
Theorem GetConnectivityCheckCommand_inj nodeName nodePort nodeName' nodePort' :
  int32_ok nodePort → int32_ok nodePort' →
  GetConnectivityCheckCommand nodeName nodePort
  = GetConnectivityCheckCommand nodeName' nodePort' →
  nodeName = nodeName' ∧ nodePort = nodePort'.
Proof.
  intros Hport Hport'. unfold GetConnectivityCheckCommand.
  rewrite !to_int32_to_uint32 by done.
  intros Hsame%(inj (String.append _)).
  change (nodeName +:+ "', " +:+ format_d nodePort +:+ ")")
    with (nodeName +:+ ("'," +:+ String " " (format_d nodePort +:+ ")")))
    in Hsame.
  change (nodeName' +:+ "', " +:+ format_d nodePort' +:+ ")")
    with (nodeName' +:+ ("'," +:+ String " " (format_d nodePort' +:+ ")")))
    in Hsame.
  rewrite <- !append_assoc in Hsame.
  assert (∀ x, occurs " " (format_d x +:+ ")") = false) as Hblank.
  { intros x. generalize (occurs_format_d x).
    induction (format_d x) as [|c text IH]; [done|].
    rewrite append_cons. simpl. intros [? ?]%orb_false_iff.
    rewrite IH by done. by rewrite orb_false_r. }
  apply cut_at_last in Hsame as [Hname Hdecimal]; [|apply Hblank..].
  change (nodeName +:+ "',") with (nodeName +:+ ("'" +:+ String "," ""))
    in Hname.
  change (nodeName' +:+ "',") with (nodeName' +:+ ("'" +:+ String "," ""))
    in Hname.
  rewrite <- !append_assoc in Hname.
  apply cut_at_last in Hname as [Hname _]; [|done..].
  apply (cut_at_last "'" nodeName nodeName' "" "") in Hname as [-> _];
    [|done..].
  split; [done|].
  apply (cut_at_last ")" _ _ "" "") in Hdecimal as [Hdecimal _]; [|done..].
  by apply format_d_inj.
Qed.

(** ** Interrupt checks, sleeps and connections, counted *)

Lemma requested_in_app events1 events2 :
  requested_in (events1 ++ events2)
  = requested_in events1 ++ requested_in events2.
Proof. apply omap_app. Qed.

Lemma slept_in_app events1 events2 :
  slept_in (events1 ++ events2) = slept_in events1 ++ slept_in events2.
Proof. apply omap_app. Qed.

Section Counting.
Context `{!RemoteEnv}.

(** A call that passes the three checks is the executor of its mode
    followed by [CreateTupleStore]. *)
Lemma master_run_on_worker_valid fuel rsinfo nodeNames nodePorts commands
    parallel backend :
  valid_call rsinfo nodeNames nodePorts commands →
  let K := length nodeNames in
  master_run_on_worker fuel rsinfo nodeNames nodePorts commands parallel
    backend
  = ((if parallel
      then ExecuteCommandsInParallelAndStoreResults fuel nodeNames nodePorts
             commands (replicate K false) (replicate K makeStringInfo)
             (Z.of_nat K)
      else ExecuteCommandsAndStoreResults nodeNames nodePorts commands
             (replicate K false) (replicate K makeStringInfo) (Z.of_nat K))
     ≫= λ '(statusArray, resultArray),
          mret (CreateTupleStore nodeNames nodePorts statusArray resultArray
                  (Z.of_nat K))) backend.
Proof.
  intros ((info & -> & Hmode) & (info' & [= <-] & Hshape) & Hsame) K.
  unfold master_run_on_worker.
  apply Z.eqb_neq in Hmode. rewrite Hmode.
  rewrite run_bind. unfold ParseCommandParameters.
  rewrite (proj2 (length_check _ _ _) Hsame), run_ret.
  rewrite (proj2 (tuple_descriptor_check _) Hshape).
  unfold ArrayObjectCount. rewrite !Nat2Z.id.
  destruct Hsame as [Hports Hcommands].
  rewrite (fmap_lookup_total_seq nodeNames) by done.
  rewrite (fmap_lookup_total_seq nodePorts) by done.
  rewrite (fmap_lookup_total_seq commands) by done.
  reflexivity.
Qed.

(** A call with no command returns no row and leaves the backend as it
    is, in either mode and whatever sweeps the poll loop is allowed: it
    requests no connection and makes no interrupt check. *)
Theorem master_run_on_worker_empty fuel rsinfo parallel backend :
  valid_call rsinfo [] [] [] →
  master_run_on_worker fuel rsinfo [] [] [] parallel backend
  = (Returned [], backend).
Proof.
  intros Hvalid.
  rewrite (master_run_on_worker_valid _ _ _ _ _ _ _ Hvalid).
  destruct parallel; [|reflexivity].
  unfold ExecuteCommandsInParallelAndStoreResults. simpl.
  by destruct fuel.
Qed.

(** One turn of the loop of the sequential executor: one connection
    requested, one interrupt check; the turn is left by the cancellation
    when the check finds an interrupt pending. *)
Lemma run_execute_command nodeNameArray nodePortArray commandStringArray i
    arrays backend :
  ∃ outcome backend',
    execute_command nodeNameArray nodePortArray commandStringArray i arrays
      backend
    = (outcome, backend')
    ∧ handlesIssued backend' = S (handlesIssued backend)
    ∧ interruptChecks backend' = S (interruptChecks backend)
    ∧ eventLog backend'
      = eventLog backend
        ++ command_events
             (handle_for (handlesIssued backend) (nodeNameArray !!! i)
                (to_int32 (to_uint32 (nodePortArray !!! i))))
             (commandStringArray !!! i)
    ∧ (InterruptPending (interruptChecks backend) = false →
         ∃ statuses results,
           outcome = Returned (statuses, results)
           ∧ length statuses = length arrays.1
           ∧ length results = length arrays.2)
    ∧ (InterruptPending (interruptChecks backend) = true →
         outcome = Raised QueryCanceled).
Proof.
  destruct arrays as [statuses results]. unfold execute_command.
  destruct (run_ExecuteRemoteQueryOrCommand (nodeNameArray !!! i)
              (nodePortArray !!! i) (commandStringArray !!! i)
              (results !!! i) backend)
    as (backend1 & Hrun1 & Hhandles1 & Hchecks1).
  pose proof (log_ExecuteRemoteQueryOrCommand (nodeNameArray !!! i)
                (nodePortArray !!! i) (commandStringArray !!! i)
                (results !!! i) backend) as [_ Hlog1].
  rewrite Hrun1 in Hlog1. cbn [snd] in Hlog1.
  rewrite (run_bind_returned _ _ _ _ _ Hrun1).
  destruct (command_outcome _ _ _ _ (results !!! i)) as [success text].
  rewrite run_bind. unfold CHECK_FOR_INTERRUPTS. rewrite Hchecks1.
  set (connection := handle_for (handlesIssued backend) (nodeNameArray !!! i)
                       (to_int32 (to_uint32 (nodePortArray !!! i)))) in *.
  assert (eventLog backend1
          = eventLog backend
            ++ command_events connection (commandStringArray !!! i)) as Hlog.
  { unfold command_events.
    destruct Hlog1 as [[Hbad ->]|[(Hgood & Hsent & ->)|(Hgood & Hsent & ->)]].
    - by rewrite decide_True.
    - rewrite decide_False by (by intros ?). by rewrite Hsent.
    - rewrite decide_False by (by intros ?).
      apply Z.eqb_neq in Hsent. by rewrite Hsent. }
  destruct (InterruptPending (interruptChecks backend)).
  - eexists _, _. split; [reflexivity|]. simpl.
    split; [done|]. split; [done|]. split; [done|]. done.
  - rewrite run_ret. eexists _, _. split; [reflexivity|]. simpl.
    split; [done|]. split; [done|]. split; [done|]. split; [|done].
    intros _. eexists _, _. split; [reflexivity|].
    by rewrite !length_insert.
Qed.

(** The first [n] turns of the loop, when none of their interrupt checks
    finds an interrupt pending. *)
Lemma sequential_turns nodeNameArray nodePortArray commandStringArray n
    statuses results backend :
  (∀ j, (j < n)%nat →
     InterruptPending (interruptChecks backend + j) = false) →
  ∃ statuses' results' backend',
    for_loop (seq 0 n)
      (execute_command nodeNameArray nodePortArray commandStringArray)
      (statuses, results) backend
    = (Returned (statuses', results'), backend')
    ∧ length statuses' = length statuses
    ∧ length results' = length results
    ∧ handlesIssued backend' = (handlesIssued backend + n)%nat
    ∧ interruptChecks backend' = (interruptChecks backend + n)%nat
    ∧ eventLog backend'
      = eventLog backend
        ++ mjoin ((λ i, command_events
                          (handle_for (handlesIssued backend + i)
                             (nodeNameArray !!! i)
                             (to_int32 (to_uint32 (nodePortArray !!! i))))
                          (commandStringArray !!! i)) <$> seq 0 n).
Proof.
  induction n as [|n IH]; intros Hquiet.
  - exists statuses, results, backend. simpl. rewrite run_ret, app_nil_r.
    split; [done|]. split; [done|]. split; [done|]. split; [lia|].
    split; [lia|]. done.
  - destruct IH
      as (statuses1 & results1 & backend1 & Hrun1 & Hlen1 & Hlen1'
          & Hhandles1 & Hchecks1 & Hlog1).
    { intros j Hj. apply Hquiet. lia. }
    destruct (run_execute_command nodeNameArray nodePortArray
                commandStringArray n (statuses1, results1) backend1)
      as (outcome & backend2 & Hrun2 & Hhandles2 & Hchecks2 & Hlog2
          & Hreturns & _).
    destruct Hreturns as (statuses2 & results2 & -> & Hlen2 & Hlen2').
    { rewrite Hchecks1. apply Hquiet. lia. }
    rewrite seq_S, for_loop_snoc. simpl.
    rewrite (run_bind_returned _ _ _ _ _ Hrun1), Hrun2.
    exists statuses2, results2, backend2.
    split; [done|]. simpl in *.
    split; [congruence|]. split; [congruence|].
    split; [lia|]. split; [lia|].
    rewrite Hlog2, Hlog1, Hhandles1, fmap_app, join_app, <- app_assoc.
    simpl. by rewrite app_nil_r.
Qed.

(** In the sequential mode a call whose interrupt checks find nothing
    pending returns one row per command after one interrupt check per
    command; it has run the commands one after the other, each over a
    connection of its own: requested, sent over if it is established, and
    closed if the command could be sent, before the next one is
    requested. *)
Theorem sequential_run_accounting fuel rsinfo nodeNames nodePorts commands
    backend :
  valid_call rsinfo nodeNames nodePorts commands →
  (∀ j, (j < length nodeNames)%nat →
     InterruptPending (interruptChecks backend + j) = false) →
  ∃ rows backend',
    master_run_on_worker fuel rsinfo nodeNames nodePorts commands false
      backend
    = (Returned rows, backend')
    ∧ length rows = length nodeNames
    ∧ handlesIssued backend'
      = (handlesIssued backend + length nodeNames)%nat
    ∧ interruptChecks backend'
      = (interruptChecks backend + length nodeNames)%nat
    ∧ eventLog backend'
      = eventLog backend
        ++ mjoin ((λ i, command_events
                          (handle_for (handlesIssued backend + i)
                             (nodeNames !!! i)
                             (to_int32 (to_uint32 (nodePorts !!! i))))
                          (commands !!! i)) <$> seq 0 (length nodeNames)).
Proof.
  intros Hvalid Hquiet.
  rewrite (master_run_on_worker_valid _ _ _ _ _ _ _ Hvalid).
  unfold ExecuteCommandsAndStoreResults. rewrite Nat2Z.id.
  destruct (sequential_turns nodeNames nodePorts commands (length nodeNames)
              (replicate (length nodeNames) false)
              (replicate (length nodeNames) makeStringInfo) backend Hquiet)
    as (statuses & results & backend' & Hrun & _ & _ & Hhandles & Hchecks
        & Hlog).
  rewrite (run_bind_returned _ _ _ _ _ Hrun), run_ret.
  eexists _, backend'. split; [reflexivity|].
  unfold CreateTupleStore. rewrite length_fmap, length_seq, Nat2Z.id. done.
Qed.

(** In the sequential mode the first interrupt check that finds an
    interrupt pending, the one after command [n], ends the call with the
    cancellation: the commands up to [n] have been run, the later ones are
    not started, and no row is returned. *)
Theorem sequential_cancellation fuel rsinfo nodeNames nodePorts commands
    backend n :
  valid_call rsinfo nodeNames nodePorts commands →
  (n < length nodeNames)%nat →
  (∀ j, (j < n)%nat →
     InterruptPending (interruptChecks backend + j) = false) →
  InterruptPending (interruptChecks backend + n) = true →
  ∃ backend',
    master_run_on_worker fuel rsinfo nodeNames nodePorts commands false
      backend
    = (Raised QueryCanceled, backend')
    ∧ handlesIssued backend' = (handlesIssued backend + S n)%nat
    ∧ interruptChecks backend' = (interruptChecks backend + S n)%nat
    ∧ eventLog backend'
      = eventLog backend
        ++ mjoin ((λ i, command_events
                          (handle_for (handlesIssued backend + i)
                             (nodeNames !!! i)
                             (to_int32 (to_uint32 (nodePorts !!! i))))
                          (commands !!! i)) <$> seq 0 (S n)).
Proof.
  intros Hvalid Hn Hquiet Hpending.
  rewrite (master_run_on_worker_valid _ _ _ _ _ _ _ Hvalid).
  unfold ExecuteCommandsAndStoreResults. rewrite Nat2Z.id.
  assert (seq 0 (length nodeNames)
          = seq 0 n ++ n :: seq (S n) (length nodeNames - S n)) as ->.
  { replace (length nodeNames) with (n + S (length nodeNames - S n))%nat
      at 1 by lia.
    by rewrite seq_app. }
  destruct (sequential_turns nodeNames nodePorts commands n
              (replicate (length nodeNames) false)
              (replicate (length nodeNames) makeStringInfo) backend Hquiet)
    as (statuses & results & backend1 & Hrun1 & _ & _ & Hhandles1
        & Hchecks1 & Hlog1).
  destruct (run_execute_command nodeNames nodePorts commands n
              (statuses, results) backend1)
    as (outcome & backend2 & Hrun2 & Hhandles2 & Hchecks2 & Hlog2 & _
        & Hraised).
  rewrite Hchecks1 in Hraised. specialize (Hraised Hpending). subst outcome.
  rewrite run_bind, for_loop_app, run_bind, Hrun1. cbn [for_loop].
  rewrite run_bind, Hrun2.
  exists backend2. split; [done|].
  split; [lia|]. split; [lia|].
  rewrite Hlog2, Hlog1, Hhandles1, seq_S, fmap_app, join_app, <- app_assoc.
  simpl. by rewrite app_nil_r.
Qed.

(** *** The parallel executor *)

Lemma phase_silent {A} (pick : list ConnEvent → list A) (K : nat)
    (events : nat → list ConnEvent) :
  (∀ front back, pick (front ++ back) = pick front ++ pick back) →
  pick [] = [] →
  (∀ j, (j < K)%nat → pick (events j) = []) →
  pick (mjoin (events <$> seq 0 K)) = [].
Proof.
  intros Happ Hnil. induction K as [|K IH]; intros Hevents; [done|].
  rewrite seq_S, fmap_app, join_app, Happ. simpl.
  rewrite app_nil_r, IH, Hevents by (intros; try apply Hevents; lia). done.
Qed.

Lemma requested_in_settling events :
  Forall settling_event events → requested_in events = [].
Proof.
  induction 1 as [|event events Hevent _ IH]; [done|].
  destruct event; try done; exact IH.
Qed.

Lemma send_events_established nodeName nodePort queryString status text
    connection :
  send_events queryString
    (establish_slot nodeName nodePort (status, text, Some connection))
  = sending_events connection queryString.
Proof.
  unfold establish_slot, sending_events.
  by destruct (decide (PQstatus connection ≠ CONNECTION_OK)).
Qed.

Lemma phase_events_quiet connectionOf query K :
  requested_in (phase_events connectionOf query K) = connectionOf <$> seq 0 K
  ∧ slept_in (phase_events connectionOf query K) = [].
Proof.
  unfold phase_events. rewrite requested_in_app, slept_in_app.
  assert (∀ j, requested_in (sending_events (connectionOf j) (query j)) = []
               ∧ slept_in (sending_events (connectionOf j) (query j)) = [])
    as Hsending.
  { intros j. unfold sending_events.
    destruct (decide _); [done|]. by destruct (_ =? _). }
  rewrite (phase_silent requested_in), (phase_silent slept_in);
    [|apply slept_in_app|done|intros; apply Hsending
     |apply requested_in_app|done|intros; apply Hsending].
  rewrite !app_nil_r. generalize (seq 0 K). intros l.
  induction l as [|i l [IH IH']]; [done|].
  rewrite !fmap_cons. split; [|done].
  change (connectionOf i :: requested_in
            ((λ i, Requested FORCE_NEW_CONNECTION (connectionOf i)) <$> l)
          = connectionOf i :: (connectionOf <$> l)).
  by rewrite IH.
Qed.

(** The three loops before the poll loop: what they leave in the slots and
    in the backend. *)
Lemma parallel_phases fuel nodeNameArray nodePortArray commandStringArray K
    backend :
  let connectionOf i :=
    handle_for (handlesIssued backend + i) (nodeNameArray !!! i)
      (nodePortArray !!! i) in
  ∃ locals backend',
    ExecuteCommandsInParallelAndStoreResults fuel nodeNameArray nodePortArray
      commandStringArray (replicate K false) (replicate K makeStringInfo)
      (Z.of_nat K) backend
    = (poll_loop fuel 0 (Z.of_nat K) locals
       ≫= (λ locals,
             let '{| statusArray := statusArray;
                     resultStringArray := resultStringArray |} := locals in
             mret (statusArray, resultStringArray))) backend'
    ∧ slots_ok K locals
    ∧ (∀ i, (i < K)%nat →
         get_slot locals i
         = send_slot (commandStringArray !!! i)
             (establish_slot (nodeNameArray !!! i) (nodePortArray !!! i)
                (false, makeStringInfo, Some (connectionOf i))))
    ∧ handlesIssued backend' = (handlesIssued backend + K)%nat
    ∧ interruptChecks backend' = interruptChecks backend
    ∧ eventLog backend'
      = eventLog backend
        ++ phase_events connectionOf (λ i, commandStringArray !!! i) K.
Proof.
  intros connectionOf.
  unfold ExecuteCommandsInParallelAndStoreResults. rewrite Nat2Z.id.
  rewrite (run_bind_returned _ _ _ _ _
             (start_phase nodeNameArray nodePortArray _ _ K K backend
                ltac:(lia))).
  rewrite Nat.sub_diag, app_nil_r.
  fold connectionOf.
  set (requests := (λ i, Requested FORCE_NEW_CONNECTION (connectionOf i))
                   <$> seq 0 K).
  set (locals1 := {| statusArray := replicate K false;
                     resultStringArray := replicate K makeStringInfo;
                     connectionArray := (λ i, Some (connectionOf i)) <$> seq 0 K;
                     finishedCount := 0 |}).
  set (backend1 := {| eventLog := _; handlesIssued := _; interruptChecks := _;
                      commandsExecuted := _ |}).
  assert (slots_ok K locals1) as Hok1.
  { constructor; simpl.
    - by rewrite length_replicate.
    - by rewrite length_replicate.
    - by rewrite length_fmap, length_seq.
    - by rewrite count_closed_open. }
  assert (∀ i, (i < K)%nat →
            get_slot locals1 i = (false, makeStringInfo, Some (connectionOf i)))
    as Hslot1.
  { intros i Hi. unfold get_slot, locals1. simpl.
    rewrite !lookup_total_replicate_2 by done.
    rewrite (list_lookup_total_fmap (λ i, Some (connectionOf i)))
      by (by rewrite length_seq).
    by rewrite lookup_total_seq_lt. }
  destruct (slot_loop K
              (λ i, establish_slot (nodeNameArray !!! i) (nodePortArray !!! i))
              (λ _, establish_events)
              (establish_connection nodeNameArray nodePortArray)
              (λ i l b, establish_connection_slot nodeNameArray nodePortArray
                          K i l b)
              K locals1 backend1 ltac:(lia) Hok1)
    as (locals2 & backend2 & Hrun2 & Hchecks2 & Hhandles2 & Hlog2 & Hok2
        & Hslot2 & _).
  rewrite (run_bind_returned _ _ _ _ _ Hrun2).
  destruct (slot_loop K (λ i, send_slot (commandStringArray !!! i))
              (λ i, send_events (commandStringArray !!! i))
              (send_query commandStringArray)
              (λ i l b, send_query_slot commandStringArray K i l b)
              K locals2 backend2 ltac:(lia) Hok2)
    as (locals3 & backend3 & Hrun3 & Hchecks3 & Hhandles3 & Hlog3 & Hok3
        & Hslot3 & _).
  rewrite (run_bind_returned _ _ _ _ _ Hrun3).
  assert (eventLog backend2 = eventLog backend ++ requests) as Hlog2'.
  { rewrite Hlog2. unfold establish_events.
    rewrite (join_nil_2 _); [by rewrite app_nil_r|].
    apply Forall_forall. by intros l (j & -> & _)%list_elem_of_fmap. }
  exists locals3, backend3.
  split; [reflexivity|]. split; [done|]. split.
  { intros i Hi. by rewrite (Hslot3 i Hi), (Hslot2 i Hi), (Hslot1 i Hi). }
  split; [by rewrite Hhandles3, Hhandles2|].
  split; [by rewrite Hchecks3, Hchecks2|].
  rewrite Hlog3, Hlog2', <- app_assoc. unfold phase_events. fold requests.
  do 3 f_equal. apply list_fmap_ext. intros j i [-> Hj]%lookup_seq.
  change (0 + j)%nat with j. cbv beta. rewrite (Hslot2 j Hj), (Hslot1 j Hj).
  apply send_events_established.
Qed.

(** The poll loop: it makes one interrupt check after each sweep and sleeps
    between two sweeps only, each time for the configured interval. *)
Lemma poll_loop_sweeps K fuel :
  ∀ sweep locals backend,
    slots_ok K locals →
    ∃ outcome backend' events,
      poll_loop fuel sweep (Z.of_nat K) locals backend = (outcome, backend')
      ∧ eventLog backend' = eventLog backend ++ events
      ∧ handlesIssued backend' = handlesIssued backend
      ∧ Forall settling_event events
      ∧ Forall (λ microseconds,
                  microseconds = RemoteTaskCheckInterval * 1000)
          (slept_in events)
      ∧ ((finishedCount locals <? Z.of_nat K) = false →
           outcome = Returned locals
           ∧ interruptChecks backend' = interruptChecks backend
           ∧ events = [])
      ∧ ((finishedCount locals <? Z.of_nat K) = true →
           (outcome ≠ OutOfFuel →
              interruptChecks backend'
              = (interruptChecks backend + S (length (slept_in events)))%nat)
           ∧ (outcome = OutOfFuel →
                interruptChecks backend'
                = (interruptChecks backend + length (slept_in events))%nat)
           ∧ ((0 < fuel)%nat →
              InterruptPending (interruptChecks backend) = true →
              outcome = Raised QueryCanceled
              ∧ slept_in events = [])).
Proof.
  induction fuel as [|fuel IH]; intros sweep locals backend Hok.
  - simpl. destruct (finishedCount locals <? Z.of_nat K) eqn:Htest.
    + exists OutOfFuel, backend, []. rewrite app_nil_r.
      split; [done|]. split; [done|]. split; [done|]. split; [done|].
      split; [constructor|]. split; [done|]. intros _.
      split; [done|]. split; [simpl; lia|]. lia.
    + exists (Returned locals), backend, []. rewrite app_nil_r.
      split; [done|]. split; [done|]. split; [done|]. split; [done|].
      split; [constructor|]. split; [done|]. done.
  - simpl. destruct (finishedCount locals <? Z.of_nat K) eqn:Htest.
    2: { exists (Returned locals), backend, []. rewrite app_nil_r.
         split; [done|]. split; [done|]. split; [done|]. split; [done|].
         split; [constructor|]. split; [done|]. done. }
    rewrite Nat2Z.id.
    destruct (slot_loop K (λ _, sweep_slot sweep) (λ _, sweep_events sweep)
                (check_query_result sweep)
                (λ i l b, check_query_result_slot sweep K i l b)
                K locals backend ltac:(lia) Hok)
      as (locals1 & backend1 & Hrun1 & Hchecks1 & Hhandles1 & Hlog1 & Hok1
          & _ & _).
    rewrite (run_bind_returned _ _ _ _ _ Hrun1).
    set (swept := mjoin ((λ j, sweep_events sweep (get_slot locals j))
                         <$> seq 0 K)) in *.
    assert (Forall settling_event swept ∧ slept_in swept = [])
      as [Hsettling1 Hslept1].
    { split.
      - apply Forall_phase. intros j _.
        destruct (sweep_slot_cases sweep (get_slot locals j))
          as [(c & _ & _ & ->)|[_ ->]]; by repeat constructor.
      - apply phase_silent; [apply slept_in_app|done|]. intros j _.
        by destruct (sweep_slot_cases sweep (get_slot locals j))
          as [(c & _ & _ & ->)|[_ ->]]. }
    rewrite run_bind. unfold CHECK_FOR_INTERRUPTS at 1. rewrite Hchecks1.
    destruct (InterruptPending (interruptChecks backend)) eqn:Hpending.
    { eexists _, _, swept. split; [reflexivity|]. simpl.
      rewrite Hslept1.
      split; [done|]. split; [done|]. split; [done|]. split; [constructor|].
      split; [done|]. intros _. split; [simpl; lia|]. split; [done|]. done. }
    set (backend2 := {| eventLog := eventLog backend1;
                        handlesIssued := handlesIssued backend1;
                        interruptChecks := S (interruptChecks backend);
                        commandsExecuted := commandsExecuted backend1 |}).
    rewrite run_bind.
    destruct (finishedCount locals1 <? Z.of_nat K) eqn:Htest1.
    + unfold pg_usleep at 1.
      destruct (IH (S sweep) locals1
                  (record_event (Slept (RemoteTaskCheckInterval * 1000))
                     backend2) Hok1)
        as (outcome & backend' & events2 & Hrun & Hlog & Hhandles
            & Hsettling2 & Hpaced2 & _ & Hmore).
      destruct (Hmore Htest1) as (Hchecks & Hchecks' & _).
      exists outcome, backend',
        (swept ++ [Slept (RemoteTaskCheckInterval * 1000)] ++ events2).
      split; [done|].
      split; [rewrite Hlog; simpl; by rewrite Hlog1, <- !app_assoc|].
      split; [rewrite Hhandles; simpl; congruence|].
      rewrite !slept_in_app, Hslept1.
      split; [rewrite !Forall_app; by repeat constructor|].
      change (slept_in [Slept (RemoteTaskCheckInterval * 1000)])
        with [RemoteTaskCheckInterval * 1000].
      split; [by constructor|]. split; [done|]. intros _.
      simpl in Hchecks, Hchecks'. simpl.
      split; [intros Hout; rewrite (Hchecks Hout); lia|].
      split; [intros Hout; rewrite (Hchecks' Hout); lia|]. done.
    + rewrite run_ret.
      destruct (IH (S sweep) locals1 backend2 Hok1)
        as (outcome & backend' & events2 & Hrun & Hlog & Hhandles
            & Hsettling2 & Hpaced2 & Hdone & _).
      destruct (Hdone Htest1) as (-> & Hchecks & ->).
      exists (Returned locals1), backend', swept.
      split; [done|]. simpl in *. rewrite app_nil_r in Hlog.
      split; [by rewrite Hlog, Hlog1|].
      split; [congruence|]. rewrite Hslept1.
      split; [done|]. split; [constructor|]. split; [done|]. intros _.
      split; [intros _; simpl; lia|]. done.
Qed.

(** A parallel call that passes the three checks: the three loops, then
    the poll loop, whose outcome is the outcome of the call. *)
Lemma parallel_call fuel rsinfo nodeNames nodePorts commands backend :
  valid_call rsinfo nodeNames nodePorts commands →
  let K := length nodeNames in
  let connectionOf i :=
    handle_for (handlesIssued backend + i) (nodeNames !!! i)
      (nodePorts !!! i) in
  ∃ locals backend1,
    slots_ok K locals
    ∧ (∀ i, (i < K)%nat →
         get_slot locals i
         = send_slot (commands !!! i)
             (establish_slot (nodeNames !!! i) (nodePorts !!! i)
                (false, makeStringInfo, Some (connectionOf i))))
    ∧ handlesIssued backend1 = (handlesIssued backend + K)%nat
    ∧ interruptChecks backend1 = interruptChecks backend
    ∧ eventLog backend1
      = eventLog backend ++ phase_events connectionOf (λ i, commands !!! i) K
    ∧ ∀ outcome backend',
        poll_loop fuel 0 (Z.of_nat K) locals backend1 = (outcome, backend') →
        master_run_on_worker fuel rsinfo nodeNames nodePorts commands true
          backend
        = (match outcome with
           | Returned locals' =>
               Returned
                 (CreateTupleStore nodeNames nodePorts (statusArray locals')
                    (resultStringArray locals') (Z.of_nat K))
           | Raised error => Raised error
           | OutOfFuel => OutOfFuel
           end, backend').
Proof.
  intros Hvalid K connectionOf.
  destruct (parallel_phases fuel nodeNames nodePorts commands K backend)
    as (locals & backend1 & Hrun & Hok & Hslots & Hhandles & Hchecks & Hlog).
  exists locals, backend1.
  do 5 (split; [done|]).
  intros outcome backend' Hpoll.
  rewrite (master_run_on_worker_valid _ _ _ _ _ _ _ Hvalid).
  fold K. rewrite run_bind, Hrun, run_bind, Hpoll.
  by destruct outcome as [[? ? ? ?]| |].
Qed.

(** After the three loops the slot of a command is closed exactly when its
    connection could not be established or its command could not be sent. *)
Lemma slot_closed_before_polling nodeName nodePort queryString connection :
  (send_slot queryString
     (establish_slot nodeName nodePort
        (false, makeStringInfo, Some connection))).2 = None
  ↔ PQstatus connection ≠ CONNECTION_OK
    ∨ querySentAnswer connection queryString = 0.
Proof.
  unfold establish_slot, send_slot.
  destruct (decide (PQstatus connection ≠ CONNECTION_OK)) as [Hbad|Hgood].
  { split; [by left|done]. }
  destruct (querySentAnswer connection queryString =? 0) eqn:Hsent; simpl.
  - apply Z.eqb_eq in Hsent. split; [by right|done].
  - apply Z.eqb_neq in Hsent. split; [done|]. by intros [?|?].
Qed.

Lemma slot_failed_before_polling nodeName nodePort queryString connection :
  (send_slot queryString
     (establish_slot nodeName nodePort
        (false, makeStringInfo, Some connection))).2 = None →
  (send_slot queryString
     (establish_slot nodeName nodePort
        (false, makeStringInfo, Some connection))).1.1 = false.
Proof.
  unfold establish_slot, send_slot.
  destruct (decide (PQstatus connection ≠ CONNECTION_OK)); [done|].
  by destruct (querySentAnswer connection queryString =? 0).
Qed.

Lemma finished_iff_all_closed K locals :
  slots_ok K locals →
  (finishedCount locals <? Z.of_nat K) = false
  ↔ ∀ i, (i < K)%nat → connectionArray locals !!! i = None.
Proof.
  intros [_ _ Hconnection Hfinished].
  pose proof (count_closed_le (connectionArray locals)).
  rewrite Z.ltb_ge. split.
  - intros Hdone i Hi. apply count_closed_full; lia.
  - intros Hnone. rewrite Hfinished, count_closed_none; [lia|].
    intros i Hi. apply Hnone. lia.
Qed.

(** In the parallel mode, when no command gets as far as being polled, the
    connection of each having failed or its command not having been sent,
    the call returns its rows, all of them failures, whatever sweeps the
    poll loop is allowed and whatever interrupt is pending: it makes no
    interrupt check and does not sleep. *)
Theorem parallel_nothing_to_poll fuel rsinfo nodeNames nodePorts commands
    backend :
  valid_call rsinfo nodeNames nodePorts commands →
  (∀ i, (i < length nodeNames)%nat →
     let connection :=
       handle_for (handlesIssued backend + i) (nodeNames !!! i)
         (nodePorts !!! i) in
     PQstatus connection ≠ CONNECTION_OK
     ∨ querySentAnswer connection (commands !!! i) = 0) →
  ∃ rows backend' events,
    master_run_on_worker fuel rsinfo nodeNames nodePorts commands true
      backend
    = (Returned rows, backend')
    ∧ length rows = length nodeNames
    ∧ (∀ i row, rows !! i = Some row → success row = false)
    ∧ interruptChecks backend' = interruptChecks backend
    ∧ eventLog backend' = eventLog backend ++ events
    ∧ slept_in events = [].
Proof.
  intros Hvalid Hfailed.
  destruct (parallel_call fuel rsinfo nodeNames nodePorts commands backend
              Hvalid)
    as (locals & backend1 & Hok & Hslots & Hhandles & Hchecks & Hlog & Hcall).
  destruct (phase_events_quiet
              (λ i, handle_for (handlesIssued backend + i) (nodeNames !!! i)
                      (nodePorts !!! i))
              (λ i, commands !!! i) (length nodeNames))
    as [Hrequested Hslept].
  set (events1 := phase_events _ _ _) in *.
  assert (∀ i, (i < length nodeNames)%nat →
            connectionArray locals !!! i = None) as Hclosed.
  { intros i Hi. change (connectionArray locals !!! i)
      with (get_slot locals i).2.
    rewrite (Hslots i Hi). apply slot_closed_before_polling.
    by apply Hfailed. }
  destruct (poll_loop_sweeps (length nodeNames) fuel 0 locals backend1 Hok)
    as (outcome & backend' & events2 & Hpoll & Hlog' & _ & _ & _ & Hdone & _).
  destruct Hdone as (-> & Hchecks' & ->).
  { by apply finished_iff_all_closed. }
  rewrite app_nil_r in Hlog'.
  exists (CreateTupleStore nodeNames nodePorts (statusArray locals)
            (resultStringArray locals) (Z.of_nat (length nodeNames))),
    backend', events1.
  split; [exact (Hcall _ _ Hpoll)|].
  unfold CreateTupleStore. rewrite length_fmap, length_seq, Nat2Z.id.
  split; [done|]. split.
  { intros i row Hrow. rewrite list_lookup_fmap in Hrow.
    destruct (seq 0 (length nodeNames) !! i) as [j|] eqn:Hj; [|done].
    apply lookup_seq in Hj as [-> Hi]. injection Hrow as <-. simpl.
    change (statusArray locals !!! i) with (get_slot locals i).1.1.
    rewrite (Hslots i Hi). apply slot_failed_before_polling.
    rewrite <- (Hslots i Hi). by apply Hclosed. }
  split; [congruence|]. split; [congruence|done].
Qed.

(** In the parallel mode, when at least one command has been sent, the
    interrupt check that follows the first sweep ends the call with the
    cancellation if it finds an interrupt pending, whatever the sweep has
    found: every connection has been requested by then, and the call has not
    slept. *)
Theorem parallel_cancellation fuel rsinfo nodeNames nodePorts commands
    backend i :
  valid_call rsinfo nodeNames nodePorts commands →
  (0 < fuel)%nat →
  (i < length nodeNames)%nat →
  PQstatus (handle_for (handlesIssued backend + i) (nodeNames !!! i)
              (nodePorts !!! i)) = CONNECTION_OK →
  querySentAnswer (handle_for (handlesIssued backend + i) (nodeNames !!! i)
                     (nodePorts !!! i)) (commands !!! i) ≠ 0 →
  InterruptPending (interruptChecks backend) = true →
  ∃ backend' events,
    master_run_on_worker fuel rsinfo nodeNames nodePorts commands true
      backend
    = (Raised QueryCanceled, backend')
    ∧ handlesIssued backend'
      = (handlesIssued backend + length nodeNames)%nat
    ∧ interruptChecks backend' = S (interruptChecks backend)
    ∧ eventLog backend' = eventLog backend ++ events
    ∧ requested_in events
      = (λ j, handle_for (handlesIssued backend + j) (nodeNames !!! j)
                (nodePorts !!! j)) <$> seq 0 (length nodeNames)
    ∧ slept_in events = [].
Proof.
  intros Hvalid Hfuel Hi Hgood Hsent Hpending.
  destruct (parallel_call fuel rsinfo nodeNames nodePorts commands backend
              Hvalid)
    as (locals & backend1 & Hok & Hslots & Hhandles & Hchecks & Hlog & Hcall).
  destruct (phase_events_quiet
              (λ i, handle_for (handlesIssued backend + i) (nodeNames !!! i)
                      (nodePorts !!! i))
              (λ i, commands !!! i) (length nodeNames))
    as [Hrequested Hslept].
  set (events1 := phase_events _ _ _) in *.
  assert ((finishedCount locals <? Z.of_nat (length nodeNames)) = true)
    as Htest.
  { destruct (finishedCount locals <? _) eqn:Htest; [done|].
    pose proof (proj1 (finished_iff_all_closed _ _ Hok) Htest i Hi) as Hnone.
    change (connectionArray locals !!! i) with (get_slot locals i).2 in Hnone.
    rewrite (Hslots i Hi) in Hnone.
    apply slot_closed_before_polling in Hnone as [?|?]; done. }
  destruct (poll_loop_sweeps (length nodeNames) fuel 0 locals backend1 Hok)
    as (outcome & backend' & events2 & Hpoll & Hlog' & Hhandles'
        & Hrequested'%requested_in_settling & _ & _ & Hmore).
  destruct (Hmore Htest) as (Hchecks' & _ & Hcancel).
  rewrite Hchecks in Hcancel.
  destruct (Hcancel Hfuel Hpending) as [-> Hslept'].
  exists backend', (events1 ++ events2).
  split; [exact (Hcall _ _ Hpoll)|].
  split; [congruence|].
  split; [rewrite Hchecks', Hslept', Hchecks by done; simpl; lia|].
  split; [by rewrite Hlog', Hlog, app_assoc|].
  rewrite requested_in_app, slept_in_app, Hrequested, Hrequested', Hslept,
    Hslept', !app_nil_r. done.
Qed.

(** In the parallel mode, when at least one command has been sent, the call
    makes one interrupt check after each sweep and sleeps between two sweeps
    only: when it ends, with its rows or with the cancellation, it has made
    one interrupt check more than it has slept. *)
Theorem parallel_sweeps_and_sleeps fuel rsinfo nodeNames nodePorts commands
    backend i :
  valid_call rsinfo nodeNames nodePorts commands →
  (i < length nodeNames)%nat →
  PQstatus (handle_for (handlesIssued backend + i) (nodeNames !!! i)
              (nodePorts !!! i)) = CONNECTION_OK →
  querySentAnswer (handle_for (handlesIssued backend + i) (nodeNames !!! i)
                     (nodePorts !!! i)) (commands !!! i) ≠ 0 →
  ∃ outcome backend' events,
    master_run_on_worker fuel rsinfo nodeNames nodePorts commands true
      backend
    = (outcome, backend')
    ∧ eventLog backend' = eventLog backend ++ events
    ∧ (outcome ≠ OutOfFuel →
         interruptChecks backend'
         = (interruptChecks backend + S (length (slept_in events)))%nat).
Proof.
  intros Hvalid Hi Hgood Hsent.
  destruct (parallel_call fuel rsinfo nodeNames nodePorts commands backend
              Hvalid)
    as (locals & backend1 & Hok & Hslots & Hhandles & Hchecks & Hlog & Hcall).
  destruct (phase_events_quiet
              (λ i, handle_for (handlesIssued backend + i) (nodeNames !!! i)
                      (nodePorts !!! i))
              (λ i, commands !!! i) (length nodeNames))
    as [Hrequested Hslept].
  set (events1 := phase_events _ _ _) in *.
  assert ((finishedCount locals <? Z.of_nat (length nodeNames)) = true)
    as Htest.
  { destruct (finishedCount locals <? _) eqn:Htest; [done|].
    pose proof (proj1 (finished_iff_all_closed _ _ Hok) Htest i Hi) as Hnone.
    change (connectionArray locals !!! i) with (get_slot locals i).2 in Hnone.
    rewrite (Hslots i Hi) in Hnone.
    apply slot_closed_before_polling in Hnone as [?|?]; done. }
  destruct (poll_loop_sweeps (length nodeNames) fuel 0 locals backend1 Hok)
    as (outcome & backend' & events2 & Hpoll & Hlog' & _ & _ & _ & _ & Hmore).
  destruct (Hmore Htest) as (Hchecks' & _ & _).
  eexists _, backend', (events1 ++ events2).
  split; [exact (Hcall _ _ Hpoll)|].
  split; [by rewrite Hlog', Hlog, app_assoc|].
  intros Hout. rewrite slept_in_app, Hslept. simpl.
  rewrite Hchecks', Hchecks; [done|]. by destruct outcome.
Qed.

(** In the parallel mode, however the call ends, it has first requested
    the connections of all the commands, then sent the commands over those
    that are established, closing at once a connection over which the
    command could not be sent; while it polls after that it logs nothing but
    connections closed and sleeps. *)
Theorem parallel_phase_order fuel rsinfo nodeNames nodePorts commands
    backend :
  valid_call rsinfo nodeNames nodePorts commands →
  ∃ outcome backend' polled,
    master_run_on_worker fuel rsinfo nodeNames nodePorts commands true
      backend
    = (outcome, backend')
    ∧ handlesIssued backend'
      = (handlesIssued backend + length nodeNames)%nat
    ∧ eventLog backend'
      = eventLog backend
        ++ phase_events
             (λ i, handle_for (handlesIssued backend + i) (nodeNames !!! i)
                     (nodePorts !!! i))
             (λ i, commands !!! i) (length nodeNames)
        ++ polled
    ∧ Forall settling_event polled.
Proof.
  intros Hvalid.
  destruct (parallel_call fuel rsinfo nodeNames nodePorts commands backend
              Hvalid)
    as (locals & backend1 & Hok & Hslots & Hhandles & Hchecks & Hlog & Hcall).
  destruct (poll_loop_sweeps (length nodeNames) fuel 0 locals backend1 Hok)
    as (outcome & backend' & polled & Hpoll & Hlog' & Hhandles' & Hsettling
        & _).
  eexists _, backend', polled.
  split; [exact (Hcall _ _ Hpoll)|].
  split; [congruence|].
  split; [by rewrite Hlog', Hlog, app_assoc|done].
Qed.

End Counting.

Lemma elem_of_slept_in events microseconds :
  microseconds ∈ slept_in events ↔ Slept microseconds ∈ events.
Proof.
  unfold slept_in. rewrite list_elem_of_omap. split.
  - intros (event & Hin & Hslept). destruct event; try done.
    by injection Hslept as ->.
  - intros Hin. by exists (Slept microseconds).
Qed.

Lemma maintains_weaken (R : relation Backend) (E E' : PgError → Prop) {A}
    (m : M A) :
  (∀ error, E error → E' error) → maintains R E m → maintains R E' m.
Proof.
  intros Hweaker Hm backend. destruct (Hm backend) as [Hstep Herror].
  split; [done|]. intros error Hraised. by apply Hweaker, Herror.
Qed.

Section Sleeps.
Context `{!RemoteEnv}.

(** A call sleeps in the parallel mode only, and each time for
    [RemoteTaskCheckInterval] milliseconds, however it ends. *)
Theorem master_run_on_worker_sleeps fuel rsinfo nodeNames nodePorts commands
    parallel backend :
  ∃ events,
    eventLog (master_run_on_worker fuel rsinfo nodeNames nodePorts commands
                parallel backend).2
    = eventLog backend ++ events
    ∧ ∀ microseconds,
        microseconds ∈ slept_in events →
        parallel = true ∧ microseconds = RemoteTaskCheckInterval * 1000.
Proof.
  set (P := λ event,
         match event with
         | Slept microseconds =>
             parallel = true ∧ microseconds = RemoteTaskCheckInterval * 1000
         | _ => True
         end).
  assert (maintains (grows_by P) (λ _, True)
            (master_run_on_worker fuel rsinfo nodeNames nodePorts commands
               parallel)) as Hrun.
  { unfold master_run_on_worker.
    destruct rsinfo as [info|]; [|by intros b; split; [reflexivity|]].
    destruct (_ =? _); [by intros b; split; [reflexivity|]|].
    apply maintains_bind; [apply _| |].
    { unfold ParseCommandParameters.
      destruct (_ || _); by intros b; split; [reflexivity|]. }
    intros [[[commandCount names] ports] queries].
    destruct (_ || _); [by intros b; split; [reflexivity|]|].
    apply maintains_bind; [apply _| |].
    2: { intros [statuses results]. apply maintains_ret. apply _. }
    apply (maintains_weaken _ cancel_only); [done|].
    destruct parallel.
    - assert (∀ fuel sweep commandCount locals,
                maintains (grows_by P) cancel_only
                  (poll_loop fuel sweep commandCount locals)) as Hpoll.
      { clear. intros fuel.
        induction fuel as [|fuel IH]; intros sweep commandCount locals; simpl.
        - destruct (_ <? _);
            [apply maintains_out_of_fuel|apply maintains_ret]; apply _.
        - destruct (_ <? _); [|apply maintains_ret; apply _].
          maintains_step.
          + maintains_step. unfold check_query_result. repeat maintains_step.
          + maintains_step; [apply maintains_CHECK_FOR_INTERRUPTS|].
            maintains_step; [|apply IH].
            repeat maintains_step. }
      unfold ExecuteCommandsInParallelAndStoreResults.
      maintains_step.
      { maintains_step. unfold start_connection. repeat maintains_step. }
      maintains_step.
      { maintains_step. unfold establish_connection. repeat maintains_step. }
      maintains_step.
      { maintains_step. unfold send_query. repeat maintains_step. }
      maintains_step; [apply Hpoll|].
      repeat maintains_step.
    - unfold ExecuteCommandsAndStoreResults. maintains_step.
      unfold execute_command. destruct locals. maintains_step.
      + unfold ExecuteRemoteQueryOrCommand. repeat maintains_step.
      + repeat maintains_step. }
  destruct (Hrun backend) as [(events & Hlog & Hevents) _].
  exists events. split; [done|].
  intros microseconds Hin%elem_of_slept_in.
  rewrite Forall_forall in Hevents. by apply Hevents in Hin.
Qed.

End Sleeps.

(** ** More on the rows of [master_run_on_worker] *)

Section RowsMore.
Context `{!RemoteEnv}.

Lemma finished_responds connection sweep text :
  (GetConnectionStatusAndResult connection sweep text).1.1 = true →
  responds connection sweep.
Proof.
  unfold responds, GetConnectionStatusAndResult.
  destruct (decide (PQstatusAt connection sweep = CONNECTION_BAD));
    [by left|].
  destruct (PQconsumeInput connection sweep =? 0) eqn:Hconsume.
  { apply Z.eqb_eq in Hconsume. by right; left. }
  destruct (PQisBusy connection sweep =? 0) eqn:Hbusy; simpl; [|done].
  apply Z.eqb_eq in Hbusy. by right; right.
Qed.

(** The outcome of polling is what the first sweep in which the connection
    has answered or failed finds. *)
Lemma poll_outcome_Some fuel sweep connection outcome :
  poll_outcome fuel sweep connection = Some outcome →
  ∃ k, (sweep ≤ k < sweep + fuel)%nat
       ∧ responds connection k
       ∧ (∀ j, (sweep ≤ j < k)%nat → ¬ responds connection j)
       ∧ outcome
         = ((GetConnectionStatusAndResult connection k makeStringInfo).1.2,
            (GetConnectionStatusAndResult connection k makeStringInfo).2).
Proof.
  revert sweep. induction fuel as [|fuel IH]; intros sweep; [done|].
  simpl.
  destruct (GetConnectionStatusAndResult connection sweep "")
    as [[queryFinished status] text] eqn:Hpoll.
  destruct queryFinished.
  - intros [= <-]. exists sweep. split; [lia|]. split.
    + apply (finished_responds connection sweep ""). by rewrite Hpoll.
    + split; [intros j Hj; lia|]. unfold makeStringInfo. by rewrite Hpoll.
  - intros (k & Hk & Hresponds & Hfirst & ->)%IH.
    exists k. split; [lia|]. split; [done|]. split; [|done].
    intros j Hj. destruct (decide (j = sweep)) as [->|Hne].
    + intros Hfinished%(responds_finished connection sweep "").
      by rewrite Hpoll in Hfinished.
    + apply Hfirst. lia.
Qed.

Lemma first_responds_unique connection k k' :
  responds connection k →
  (∀ j, (j < k)%nat → ¬ responds connection j) →
  responds connection k' →
  (∀ j, (j < k')%nat → ¬ responds connection j) →
  k = k'.
Proof.
  intros Hk Hfirst Hk' Hfirst'.
  destruct (lt_eq_lt_dec k k') as [[Hlt| ->]|Hlt]; [|done|].
  - by destruct (Hfirst' k Hlt).
  - by destruct (Hfirst k' Hlt).
Qed.

(** The rows of a valid call that is not interrupted, each with the
    outcome of its command. *)
Lemma rows_of_call rsinfo nodeNames nodePorts commands parallel backend :
  valid_call rsinfo nodeNames nodePorts commands →
  no_interrupt →
  (parallel = true → responsive nodeNames nodePorts backend) →
  ∃ enough, ∀ fuel, (enough ≤ fuel)%nat →
    ∃ rows backend',
      master_run_on_worker fuel rsinfo nodeNames nodePorts commands parallel
        backend
      = (Returned rows, backend')
      ∧ length rows = length nodeNames
      ∧ ∀ i nodeName nodePort command,
          nodeNames !! i = Some nodeName → nodePorts !! i = Some nodePort →
          commands !! i = Some command →
          ∃ status text,
            row_outcome parallel fuel (handlesIssued backend + i) nodeName
              nodePort command
            = Some (status, text)
            ∧ rows !! i
              = Some {| node_name := nodeName; node_port := nodePort;
                        success := status; result := text |}.
Proof.
  intros Hvalid Hquiet Hresponsive.
  destruct (enough_fuel nodeNames nodePorts commands parallel backend
              (proj2 (proj2 Hvalid)) Hresponsive) as [enough Henough].
  exists enough. intros fuel Hfuel.
  destruct (run_master_run_on_worker fuel rsinfo nodeNames nodePorts commands
              parallel backend Hvalid Hquiet (Henough fuel Hfuel))
    as (rows & backend' & Hrun & Hlength & Hrows).
  exists rows, backend'. split; [done|]. split; [done|].
  intros i nodeName nodePort command Hname Hport Hcommand.
  destruct (Hrows i) as (status & text & Houtcome & Hrow).
  { by eapply lookup_lt_Some. }
  rewrite (list_lookup_total_correct _ _ _ Hname),
    (list_lookup_total_correct _ _ _ Hport) in Houtcome, Hrow.
  rewrite (list_lookup_total_correct _ _ _ Hcommand) in Houtcome.
  eauto.
Qed.

(** A command that could not be sent over its established connection gets
    a failure row in both modes, but not the same text: the sequential mode
    says that the query could not be sent and to which node, the parallel
    mode stores the error message of the connection. *)
Theorem master_run_on_worker_send_failure rsinfo nodeNames nodePorts commands
    parallel backend :
  valid_call rsinfo nodeNames nodePorts commands →
  Forall int32_ok nodePorts →
  no_interrupt →
  (parallel = true → responsive nodeNames nodePorts backend) →
  ∃ enough, ∀ fuel, (enough ≤ fuel)%nat →
    ∃ rows backend',
      master_run_on_worker fuel rsinfo nodeNames nodePorts commands parallel
        backend
      = (Returned rows, backend')
      ∧ ∀ i nodeName nodePort command,
          nodeNames !! i = Some nodeName → nodePorts !! i = Some nodePort →
          commands !! i = Some command →
          let connection :=
            handle_for (handlesIssued backend + i) nodeName nodePort in
          PQstatus connection = CONNECTION_OK →
          querySentAnswer connection command = 0 →
          rows !! i
          = Some {| node_name := nodeName;
                    node_port := nodePort;
                    success := false;
                    result :=
                      if parallel then
                        match PQerrorMessage connection with
                        | Some errorMessage => trim_at_line_break errorMessage
                        | None => default_error_message
                        end
                      else
                        "failed to send query to " +:+ nodeName +:+ ":"
                        +:+ format_d nodePort |}.
Proof.
  intros Hvalid Hrange Hquiet Hresponsive.
  destruct (rows_of_call rsinfo nodeNames nodePorts commands parallel backend
              Hvalid Hquiet Hresponsive) as [enough Henough].
  exists enough. intros fuel Hfuel.
  destruct (Henough fuel Hfuel) as (rows & backend' & Hrun & _ & Hrows).
  exists rows, backend'. split; [done|].
  intros i nodeName nodePort command Hname Hport Hcommand connection Hgood
    Hsent.
  destruct (Hrows i nodeName nodePort command Hname Hport Hcommand)
    as (status & text & Houtcome & ->).
  assert (int32_ok nodePort) as Hok.
  { rewrite Forall_forall in Hrange. apply Hrange.
    by eapply list_elem_of_lookup_2. }
  unfold row_outcome, slot_outcome, establish_slot, send_slot,
    command_outcome, StoreErrorMessage in Houtcome.
  rewrite (to_int32_to_uint32 _ Hok) in Houtcome. fold connection in Houtcome.
  rewrite !decide_False in Houtcome by (by intros ?).
  apply Z.eqb_eq in Hsent. rewrite Hsent in Houtcome.
  by destruct parallel; injection Houtcome as <- <-.
Qed.

(** A row says success only for a command that was sent over an
    established connection and whose result the evaluator accepted: in the
    sequential mode the result read from the connection, in the parallel
    mode the result found in a sweep in which the connection was neither
    broken nor unable to read nor busy. *)
Theorem master_run_on_worker_success rsinfo nodeNames nodePorts commands
    parallel backend :
  valid_call rsinfo nodeNames nodePorts commands →
  Forall int32_ok nodePorts →
  no_interrupt →
  (parallel = true → responsive nodeNames nodePorts backend) →
  ∃ enough, ∀ fuel, (enough ≤ fuel)%nat →
    ∃ rows backend',
      master_run_on_worker fuel rsinfo nodeNames nodePorts commands parallel
        backend
      = (Returned rows, backend')
      ∧ ∀ i nodeName nodePort command row,
          nodeNames !! i = Some nodeName → nodePorts !! i = Some nodePort →
          commands !! i = Some command →
          rows !! i = Some row → success row = true →
          let connection :=
            handle_for (handlesIssued backend + i) nodeName nodePort in
          PQstatus connection = CONNECTION_OK
          ∧ querySentAnswer connection command ≠ 0
          ∧ ∃ queryResult,
              EvaluateQueryResult connection queryResult makeStringInfo
              = (true, result row)
              ∧ if parallel then
                  ∃ sweep,
                    PQstatusAt connection sweep ≠ CONNECTION_BAD
                    ∧ PQconsumeInput connection sweep ≠ 0
                    ∧ PQisBusy connection sweep = 0
                    ∧ queryResult = PQgetResult connection sweep
                else queryResult = GetRemoteCommandResult connection.
Proof.
  intros Hvalid Hrange Hquiet Hresponsive.
  destruct (rows_of_call rsinfo nodeNames nodePorts commands parallel backend
              Hvalid Hquiet Hresponsive) as [enough Henough].
  exists enough. intros fuel Hfuel.
  destruct (Henough fuel Hfuel) as (rows & backend' & Hrun & _ & Hrows).
  exists rows, backend'. split; [done|].
  intros i nodeName nodePort command row Hname Hport Hcommand Hrow Hsuccess
    connection.
  destruct (Hrows i nodeName nodePort command Hname Hport Hcommand)
    as (status & text & Houtcome & Hrow').
  rewrite Hrow in Hrow'. injection Hrow' as ->. simpl in *. subst status.
  assert (int32_ok nodePort) as Hok.
  { rewrite Forall_forall in Hrange. apply Hrange.
    by eapply list_elem_of_lookup_2. }
  unfold row_outcome, slot_outcome, establish_slot, send_slot,
    command_outcome in Houtcome.
  rewrite (to_int32_to_uint32 _ Hok) in Houtcome. fold connection in Houtcome.
  destruct (decide (PQstatus connection ≠ CONNECTION_OK)) as [Hbad|Hgood].
  { by destruct parallel. }
  assert (PQstatus connection = CONNECTION_OK) as Hestablished.
  { by destruct (decide (PQstatus connection = CONNECTION_OK)). }
  destruct (querySentAnswer connection command =? 0) eqn:Hsent.
  { by destruct parallel. }
  apply Z.eqb_neq in Hsent. split; [done|]. split; [done|].
  destruct parallel.
  - apply poll_outcome_Some in Houtcome
      as (k & _ & _ & _ & [= Hstatus Htext]).
    exists (PQgetResult connection k).
    unfold GetConnectionStatusAndResult in Hstatus, Htext.
    destruct (decide (PQstatusAt connection k = CONNECTION_BAD)); [done|].
    destruct (PQconsumeInput connection k =? 0) eqn:Hconsume; [done|].
    destruct (PQisBusy connection k =? 0) eqn:Hbusy; [|done].
    apply Z.eqb_neq in Hconsume. apply Z.eqb_eq in Hbusy.
    unfold resetStringInfo in *. simpl in *.
    destruct (EvaluateQueryResult connection (PQgetResult connection k) "")
      as [status text'] eqn:Hevaluated.
    simpl in *. subst. split; [done|]. by exists k.
  - exists (GetRemoteCommandResult connection).
    injection Houtcome as Houtcome. by rewrite Houtcome.
Qed.

(** In the parallel mode the row of a command that was sent is what the
    first sweep finds in which its connection has answered or failed; what
    the connection would answer later is not looked at. *)
Theorem parallel_first_answer rsinfo nodeNames nodePorts commands backend :
  valid_call rsinfo nodeNames nodePorts commands →
  no_interrupt →
  responsive nodeNames nodePorts backend →
  ∃ enough, ∀ fuel, (enough ≤ fuel)%nat →
    ∃ rows backend',
      master_run_on_worker fuel rsinfo nodeNames nodePorts commands true
        backend
      = (Returned rows, backend')
      ∧ ∀ i nodeName nodePort command sweep,
          nodeNames !! i = Some nodeName → nodePorts !! i = Some nodePort →
          commands !! i = Some command →
          let connection :=
            handle_for (handlesIssued backend + i) nodeName nodePort in
          PQstatus connection = CONNECTION_OK →
          querySentAnswer connection command ≠ 0 →
          first_response connection sweep →
          rows !! i
          = Some {| node_name := nodeName;
                    node_port := nodePort;
                    success :=
                      (GetConnectionStatusAndResult connection sweep
                         makeStringInfo).1.2;
                    result :=
                      (GetConnectionStatusAndResult connection sweep
                         makeStringInfo).2 |}.
Proof.
  intros Hvalid Hquiet Hresponsive.
  destruct (rows_of_call rsinfo nodeNames nodePorts commands true backend
              Hvalid Hquiet (λ _, Hresponsive)) as [enough Henough].
  exists enough. intros fuel Hfuel.
  destruct (Henough fuel Hfuel) as (rows & backend' & Hrun & _ & Hrows).
  exists rows, backend'. split; [done|].
  intros i nodeName nodePort command sweep Hname Hport Hcommand connection
    Hgood Hsent [Hresponds Hfirst].
  destruct (Hrows i nodeName nodePort command Hname Hport Hcommand)
    as (status & text & Houtcome & ->).
  unfold row_outcome, slot_outcome, establish_slot, send_slot in Houtcome.
  fold connection in Houtcome.
  rewrite decide_False in Houtcome by (by intros ?).
  apply Z.eqb_neq in Hsent. rewrite Hsent in Houtcome.
  apply poll_outcome_Some in Houtcome
    as (k & _ & Hk & Hfirst' & [= -> ->]).
  assert (k = sweep) as ->; [|done].
  apply (first_responds_unique connection); [done| |done..].
  intros j Hj. apply Hfirst'. lia.
Qed.

(** The two modes return the same rows when every command either cannot
    have its connection established or is sent over a connection that is
    steady when it is polled. *)
Theorem master_run_on_worker_modes_agree rsinfo nodeNames nodePorts commands
    backend :
  valid_call rsinfo nodeNames nodePorts commands →
  Forall int32_ok nodePorts →
  no_interrupt →
  responsive nodeNames nodePorts backend →
  (∀ i nodeName nodePort command,
     nodeNames !! i = Some nodeName → nodePorts !! i = Some nodePort →
     commands !! i = Some command →
     let connection :=
       handle_for (handlesIssued backend + i) nodeName nodePort in
     PQstatus connection ≠ CONNECTION_OK
     ∨ (querySentAnswer connection command ≠ 0 ∧ steady connection)) →
  ∃ enough, ∀ fuel, (enough ≤ fuel)%nat →
    ∃ rows inParallel inSequence,
      master_run_on_worker fuel rsinfo nodeNames nodePorts commands true
        backend
      = (Returned rows, inParallel)
      ∧ master_run_on_worker fuel rsinfo nodeNames nodePorts commands false
          backend
        = (Returned rows, inSequence).
Proof.
  intros Hvalid Hrange Hquiet Hresponsive Hsteady.
  destruct (rows_of_call rsinfo nodeNames nodePorts commands true backend
              Hvalid Hquiet (λ _, Hresponsive)) as [enough Henough].
  destruct (rows_of_call rsinfo nodeNames nodePorts commands false backend
              Hvalid Hquiet) as [enough' Henough']; [done|].
  exists (enough `max` enough')%nat. intros fuel Hfuel.
  destruct (Henough fuel ltac:(lia))
    as (rows & inParallel & Hrun & Hlength & Hrows).
  destruct (Henough' fuel ltac:(lia))
    as (rows' & inSequence & Hrun' & Hlength' & Hrows').
  exists rows, inParallel, inSequence. split; [done|].
  rewrite Hrun'. do 2 f_equal. apply list_eq. intros i.
  destruct Hvalid as (_ & _ & Hports & Hcommands).
  destruct (decide (i < length nodeNames)%nat) as [Hi|Hi].
  2: { by rewrite !lookup_ge_None_2 by lia. }
  destruct (lookup_lt_is_Some_2 nodeNames i Hi) as [nodeName Hname].
  destruct (lookup_lt_is_Some_2 nodePorts i ltac:(lia)) as [nodePort Hport].
  destruct (lookup_lt_is_Some_2 commands i ltac:(lia)) as [command Hcommand].
  destruct (Hrows i nodeName nodePort command Hname Hport Hcommand)
    as (status & text & Houtcome & ->).
  destruct (Hrows' i nodeName nodePort command Hname Hport Hcommand)
    as (status' & text' & Houtcome' & ->).
  specialize (Hsteady i nodeName nodePort command Hname Hport Hcommand).
  assert (int32_ok nodePort) as Hok.
  { rewrite Forall_forall in Hrange. apply Hrange.
    by eapply list_elem_of_lookup_2. }
  unfold row_outcome, slot_outcome, establish_slot, send_slot,
    command_outcome in Houtcome, Houtcome'.
  rewrite (to_int32_to_uint32 _ Hok) in Houtcome'.
  set (connection := handle_for (handlesIssued backend + i) nodeName
                       nodePort) in *.
  injection Houtcome' as Houtcome'.
  destruct (decide (PQstatus connection ≠ CONNECTION_OK)) as [Hbad|Hgood].
  { injection Houtcome as <- <-. by injection Houtcome' as <- <-. }
  destruct Hsteady as [?|[Hsent Hsteady]]; [done|].
  apply Z.eqb_neq in Hsent. rewrite Hsent in Houtcome, Houtcome'.
  apply poll_outcome_Some in Houtcome
    as (k & _ & Hk & _ & [= -> ->]).
  destruct (Hsteady k) as (Halive & Hreads & Hsame).
  unfold GetConnectionStatusAndResult, resetStringInfo.
  rewrite decide_False by done.
  apply Z.eqb_neq in Hreads. rewrite Hreads.
  destruct Hk as [?|[Hk|Hk]]; [done|by apply Z.eqb_neq in Hreads|].
  rewrite Hk, Hsame. simpl.
  destruct (EvaluateQueryResult connection (GetRemoteCommandResult connection)
              "") as [s t] eqn:Hevaluated.
  unfold makeStringInfo in Houtcome'. rewrite Hevaluated in Houtcome'.
  by injection Houtcome' as <- <-.
Qed.

End RowsMore.

(** ** How long the parallel executor polls *)

Section Latency.
Context `{!RemoteEnv}.

Lemma sweep_slot_open sweep status text connection :
  ((sweep_slot sweep (status, text, Some connection)).2 = None
   ↔ responds connection sweep)
  ∧ ((sweep_slot sweep (status, text, Some connection)).2 = Some connection
     ↔ ¬ responds connection sweep).
Proof.
  pose proof (responds_finished connection sweep text) as Hfinished.
  pose proof (finished_responds connection sweep text) as Hresponds.
  unfold sweep_slot.
  destruct (GetConnectionStatusAndResult connection sweep text)
    as [[[] success] text']; simpl in *.
  - split; [split; [intros _; by apply Hresponds|done]|].
    split; [done|]. intros Hnot. destruct Hnot. by apply Hresponds.
  - split; [split; [done|]|split; [|done]].
    + intros Hr. by specialize (Hfinished Hr).
    + intros _ Hr. by specialize (Hfinished Hr).
Qed.

Lemma sent_slot_open nodeName nodePort queryString connection connection' :
  (send_slot queryString
     (establish_slot nodeName nodePort
        (false, makeStringInfo, Some connection))).2 = Some connection' →
  connection' = connection
  ∧ PQstatus connection = CONNECTION_OK
  ∧ querySentAnswer connection queryString ≠ 0.
Proof.
  unfold establish_slot, send_slot.
  destruct (decide (PQstatus connection ≠ CONNECTION_OK)) as [Hbad|Hgood];
    [done|].
  destruct (querySentAnswer connection queryString =? 0) eqn:Hsent; [done|].
  apply Z.eqb_neq in Hsent. simpl. intros [= <-].
  split; [done|]. split; [|done].
  by destruct (decide (PQstatus connection = CONNECTION_OK)).
Qed.

(** The poll loop lasts as long as the slowest of the connections it
    polls: with the last first response [gap] sweeps away, it makes
    [gap + 1] sweeps, each followed by an interrupt check, and sleeps [gap]
    times. *)
Lemma poll_loop_lasts K gap :
  ∀ sweep fuel locals backend,
    (gap < fuel)%nat →
    slots_ok K locals →
    (∀ i connection,
       (i < K)%nat → connectionArray locals !!! i = Some connection →
       ∃ k, (sweep ≤ k ≤ sweep + gap)%nat
            ∧ responds connection k
            ∧ ∀ j, (sweep ≤ j < k)%nat → ¬ responds connection j) →
    (∃ i connection,
       (i < K)%nat
       ∧ connectionArray locals !!! i = Some connection
       ∧ ∀ j, (sweep ≤ j < sweep + gap)%nat → ¬ responds connection j) →
    (∀ j, (j ≤ gap)%nat →
       InterruptPending (interruptChecks backend + j) = false) →
    ∃ locals' backend' events,
      poll_loop fuel sweep (Z.of_nat K) locals backend
      = (Returned locals', backend')
      ∧ interruptChecks backend' = (interruptChecks backend + S gap)%nat
      ∧ eventLog backend' = eventLog backend ++ events
      ∧ length (slept_in events) = gap.
Proof.
  induction gap as [|gap IH];
    intros sweep fuel locals backend Hfuel Hok Hopen Hslowest Hquiet.
  - destruct fuel as [|fuel]; [lia|]. simpl.
    assert ((finishedCount locals <? Z.of_nat K) = true) as ->.
    { destruct (finishedCount locals <? Z.of_nat K) eqn:Htest; [done|].
      destruct Hslowest as (i & c & Hi & Hslot & _).
      by rewrite (proj1 (finished_iff_all_closed K locals Hok) Htest i Hi)
        in Hslot. }
    rewrite Nat2Z.id.
    destruct (slot_loop K (λ _, sweep_slot sweep) (λ _, sweep_events sweep)
                (check_query_result sweep)
                (λ i l b, check_query_result_slot sweep K i l b)
                K locals backend ltac:(lia) Hok)
      as (locals1 & backend1 & Hrun1 & Hchecks1 & _ & Hlog1 & Hok1 & Hswept
          & _).
    rewrite (run_bind_returned _ _ _ _ _ Hrun1).
    rewrite run_bind. unfold CHECK_FOR_INTERRUPTS at 1. rewrite Hchecks1.
    pose proof (Hquiet 0%nat ltac:(lia)) as Hcalm.
    rewrite Nat.add_0_r in Hcalm. rewrite Hcalm.
    assert (∀ i, (i < K)%nat → connectionArray locals1 !!! i = None)
      as Hclosed.
    { intros i Hi. change (connectionArray locals1 !!! i)
        with (get_slot locals1 i).2.
      rewrite (Hswept i Hi). unfold get_slot.
      destruct (connectionArray locals !!! i) as [c|] eqn:Hslot; [|done].
      apply sweep_slot_open.
      destruct (Hopen i c Hi Hslot) as (k & Hk & Hresponds & _).
      by replace sweep with k by lia. }
    rewrite run_bind.
    rewrite (proj2 (finished_iff_all_closed K locals1 Hok1) Hclosed).
    rewrite run_ret.
    assert (∀ b, poll_loop fuel (S sweep) (Z.of_nat K) locals1 b
                 = (Returned locals1, b)) as ->.
    { intros b. destruct fuel; simpl;
        by rewrite (proj2 (finished_iff_all_closed K locals1 Hok1) Hclosed). }
    eexists _, _, _. split; [reflexivity|]. simpl.
    split; [lia|]. split; [exact Hlog1|].
    rewrite (phase_silent slept_in); [done|apply slept_in_app|done|].
    intros j _.
    by destruct (sweep_slot_cases sweep (get_slot locals j))
      as [(c & _ & _ & ->)|[_ ->]].
  - destruct fuel as [|fuel]; [lia|]. simpl.
    assert ((finishedCount locals <? Z.of_nat K) = true) as ->.
    { destruct (finishedCount locals <? Z.of_nat K) eqn:Htest; [done|].
      destruct Hslowest as (i & c & Hi & Hslot & _).
      by rewrite (proj1 (finished_iff_all_closed K locals Hok) Htest i Hi)
        in Hslot. }
    rewrite Nat2Z.id.
    destruct (slot_loop K (λ _, sweep_slot sweep) (λ _, sweep_events sweep)
                (check_query_result sweep)
                (λ i l b, check_query_result_slot sweep K i l b)
                K locals backend ltac:(lia) Hok)
      as (locals1 & backend1 & Hrun1 & Hchecks1 & _ & Hlog1 & Hok1 & Hswept
          & _).
    rewrite (run_bind_returned _ _ _ _ _ Hrun1).
    rewrite run_bind. unfold CHECK_FOR_INTERRUPTS at 1. rewrite Hchecks1.
    pose proof (Hquiet 0%nat ltac:(lia)) as Hcalm.
    rewrite Nat.add_0_r in Hcalm. rewrite Hcalm.
    assert (∀ i connection,
              (i < K)%nat → connectionArray locals1 !!! i = Some connection →
              connectionArray locals !!! i = Some connection
              ∧ ¬ responds connection sweep) as Hkept.
    { intros i c Hi. change (connectionArray locals1 !!! i)
        with (get_slot locals1 i).2.
      rewrite (Hswept i Hi). unfold get_slot.
      destruct (connectionArray locals !!! i) as [c'|] eqn:Hslot; [|done].
      intros Hafter.
      destruct (sweep_slot_cases sweep
                  (statusArray locals !!! i, resultStringArray locals !!! i,
                   Some c'))
        as [(c'' & _ & Hnone & _)|[Hsame _]].
      - by rewrite Hnone in Hafter.
      - rewrite Hsame in Hafter. simpl in Hafter. injection Hafter as <-.
        split; [done|].
        by apply (sweep_slot_open sweep (statusArray locals !!! i)
                    (resultStringArray locals !!! i) c'). }
    destruct Hslowest as (i0 & c0 & Hi0 & Hslot0 & Hsilent0).
    assert (connectionArray locals1 !!! i0 = Some c0) as Hslot0'.
    { change (connectionArray locals1 !!! i0) with (get_slot locals1 i0).2.
      rewrite (Hswept i0 Hi0). unfold get_slot. rewrite Hslot0.
      apply sweep_slot_open, Hsilent0. lia. }
    assert ((finishedCount locals1 <? Z.of_nat K) = true) as Htest1.
    { destruct (finishedCount locals1 <? Z.of_nat K) eqn:Htest; [done|].
      by rewrite (proj1 (finished_iff_all_closed K locals1 Hok1) Htest i0
                    Hi0) in Hslot0'. }
    rewrite run_bind, Htest1. unfold pg_usleep at 1.
    set (backend3 := record_event _ _).
    destruct (IH (S sweep) fuel locals1 backend3 ltac:(lia) Hok1)
      as (locals' & backend' & events2 & Hrun & Hchecks & Hlog & Hslept).
    { intros i c Hi Hslot. destruct (Hkept i c Hi Hslot) as [Hbefore Hnot].
      destruct (Hopen i c Hi Hbefore) as (k & Hk & Hresponds & Hfirst).
      exists k. split.
      - destruct (decide (k = sweep)) as [->|]; [done|lia].
      - split; [done|]. intros j Hj. apply Hfirst. lia. }
    { exists i0, c0. split; [done|]. split; [done|].
      intros j Hj. apply Hsilent0. lia. }
    { intros j Hj. unfold backend3. simpl.
      replace (S (interruptChecks backend + j))
        with (interruptChecks backend + S j)%nat by lia.
      apply Hquiet. lia. }
    exists locals', backend',
      (mjoin ((λ j, sweep_events sweep (get_slot locals j)) <$> seq 0 K)
       ++ [Slept (RemoteTaskCheckInterval * 1000)] ++ events2).
    split; [exact Hrun|].
    split; [rewrite Hchecks; unfold backend3; simpl; lia|].
    split; [rewrite Hlog; unfold backend3; simpl;
            by rewrite Hlog1, <- !app_assoc|].
    rewrite !slept_in_app, !length_app, Hslept.
    rewrite (phase_silent slept_in); [done|apply slept_in_app|done|].
    intros j _.
    by destruct (sweep_slot_cases sweep (get_slot locals j))
      as [(c & _ & _ & ->)|[_ ->]].
Qed.

(** In the parallel mode the call lasts as long as its slowest command:
    when every command that was sent gets its first response by sweep
    [last] and one of them does so in sweep [last] only, the call returns
    after [last + 1] sweeps, each followed by an interrupt check, and [last]
    sleeps. *)
Theorem parallel_sweep_count fuel rsinfo nodeNames nodePorts commands backend
    slowest last :
  let connectionOf i :=
    handle_for (handlesIssued backend + i) (nodeNames !!! i)
      (nodePorts !!! i) in
  let sent i :=
    PQstatus (connectionOf i) = CONNECTION_OK
    ∧ querySentAnswer (connectionOf i) (commands !!! i) ≠ 0 in
  valid_call rsinfo nodeNames nodePorts commands →
  (slowest < length nodeNames)%nat →
  sent slowest →
  first_response (connectionOf slowest) last →
  (∀ i, (i < length nodeNames)%nat → sent i →
     ∃ k, (k ≤ last)%nat ∧ first_response (connectionOf i) k) →
  (∀ j, (j ≤ last)%nat →
     InterruptPending (interruptChecks backend + j) = false) →
  (last < fuel)%nat →
  ∃ rows backend' events,
    master_run_on_worker fuel rsinfo nodeNames nodePorts commands true
      backend
    = (Returned rows, backend')
    ∧ length rows = length nodeNames
    ∧ interruptChecks backend' = (interruptChecks backend + S last)%nat
    ∧ eventLog backend' = eventLog backend ++ events
    ∧ length (slept_in events) = last.
Proof.
  intros connectionOf sent Hvalid Hslowest [Hgood Hsent] [Hlast Hfirst]
    Hothers Hquiet Hfuel.
  destruct (parallel_call fuel rsinfo nodeNames nodePorts commands backend
              Hvalid)
    as (locals & backend1 & Hok & Hslots & Hhandles & Hchecks & Hlog & Hcall).
  fold connectionOf in Hslots, Hlog.
  destruct (poll_loop_lasts (length nodeNames) last 0 fuel locals backend1
              Hfuel Hok)
    as (locals' & backend' & polled & Hpoll & Hchecks' & Hlog' & Hslept).
  { intros i c Hi Hslot.
    change (connectionArray locals !!! i) with (get_slot locals i).2 in Hslot.
    rewrite (Hslots i Hi) in Hslot.
    apply sent_slot_open in Hslot as (-> & Hgood' & Hsent').
    destruct (Hothers i Hi (conj Hgood' Hsent')) as (k & Hk & Hr & Hf).
    exists k. split; [lia|]. split; [done|]. intros j Hj. apply Hf. lia. }
  { exists slowest, (connectionOf slowest). split; [done|]. split.
    - change (connectionArray locals !!! slowest)
        with (get_slot locals slowest).2.
      rewrite (Hslots slowest Hslowest).
      destruct (send_slot _ _).2 as [c|] eqn:Hslot.
      + by apply sent_slot_open in Hslot as (-> & _).
      + apply slot_closed_before_polling in Hslot as [?|?]; done.
    - intros j Hj. apply Hfirst. lia. }
  { intros j Hj. rewrite Hchecks. by apply Hquiet. }
  destruct (phase_events_quiet connectionOf (λ i, commands !!! i)
              (length nodeNames)) as [_ Hquiet1].
  eexists _, backend', (phase_events _ _ _ ++ polled).
  split; [exact (Hcall _ _ Hpoll)|].
  unfold CreateTupleStore. rewrite length_fmap, length_seq, Nat2Z.id.
  split; [done|]. split; [congruence|].
  split; [by rewrite Hlog', Hlog, app_assoc|].
  by rewrite slept_in_app, length_app, Hquiet1.
Qed.

End Latency.

(** ** Failures that stay with their command *)

Section Isolation.
Context `{!RemoteEnv}.







End Isolation.


(** ** The theorems at sample inputs *)

Lemma EvaluateQueryResult_rows_contract_witness :
  resultStatus two_by_two = PGRES_TUPLES_OK
  ∧ nfields two_by_two ≠ 1
  ∧ EvaluateQueryResult (H := calm) (handle_for 0 "a" 5432) (Some two_by_two)
      makeStringInfo
    = (false, "expected a single column in query target").
Proof.
  split; [reflexivity|]. split; [discriminate|].
  apply (EvaluateQueryResult_rows_contract (H := calm) (handle_for 0 "a" 5432)
           two_by_two makeStringInfo); [reflexivity|discriminate].
Defined.

Lemma EvaluateQueryResult_remote_error_witness :
  PQresultStatus None ≠ PGRES_COMMAND_OK
  ∧ PQresultStatus None ≠ PGRES_TUPLES_OK
  ∧ ∃ text,
      EvaluateQueryResult (H := remote_error) (handle_for 0 "a" 5432) None
        makeStringInfo
      = (false, makeStringInfo +:+ text)
      ∧ match PQerrorMessage (RemoteEnv := remote_error)
                (handle_for 0 "a" 5432) with
        | Some errorMessage =>
            has_line_break text = false
            ∧ (text = errorMessage
               ∨ ∃ rest, errorMessage = text +:+ String line_break rest)
        | None => text = "An error occurred while running the query"
        end.
Proof.
  split; [discriminate|]. split; [discriminate|].
  apply (EvaluateQueryResult_remote_error (H := remote_error)
           (handle_for 0 "a" 5432) None makeStringInfo); discriminate.
Defined.

Lemma EvaluateQueryResult_zero_rows_witness :
  resultStatus no_rows = PGRES_TUPLES_OK
  ∧ nfields no_rows = 1
  ∧ tuples no_rows = []
  ∧ EvaluateQueryResult (H := calm) (handle_for 0 "a" 5432) (Some no_rows)
      makeStringInfo
    = (true, "").
Proof.
  split; [reflexivity|]. split; [reflexivity|]. split; [reflexivity|].
  apply (EvaluateQueryResult_zero_rows (H := calm) (handle_for 0 "a" 5432)
           no_rows makeStringInfo); reflexivity.
Defined.

Lemma master_run_on_worker_validation_witness :
  ¬ same_length ["a"; "b"] [5432; 5432; 5432] ["SELECT 1"; "SELECT 2"; "SELECT 3"]
  ∧ ∃ error,
      (master_run_on_worker (H := calm) 1 set_returning ["a"; "b"]
         [5432; 5432; 5432] ["SELECT 1"; "SELECT 2"; "SELECT 3"] true idle).1
      = Raised error
      ∧ InputValidationError error.
Proof.
  assert (¬ same_length ["a"; "b"] [5432; 5432; 5432]
              ["SELECT 1"; "SELECT 2"; "SELECT 3"]) as Hlengths.
  { intros [Hports _]. discriminate Hports. }
  split; [exact Hlengths|].
  apply (master_run_on_worker_validation (H := calm) 1 set_returning
           ["a"; "b"] [5432; 5432; 5432] ["SELECT 1"; "SELECT 2"; "SELECT 3"]
           true idle).
  left. exact Hlengths.
Defined.

Lemma valid_call_sample nodeNames nodePorts commands :
  same_length nodeNames nodePorts commands →
  valid_call set_returning nodeNames nodePorts commands.
Proof.
  intros Hsame. split; [|split; [|exact Hsame]].
  - eexists. split; [reflexivity|discriminate].
  - eexists. split; reflexivity.
Defined.

Lemma master_run_on_worker_rows_witness :
  valid_call set_returning ["a"; "b"] [5432; 5433] ["SELECT 1"; "SELECT 2"]
  ∧ no_interrupt (H := calm)
  ∧ responsive (H := calm) ["a"; "b"] [5432; 5433] idle
  ∧ ∃ enough, ∀ fuel, (enough ≤ fuel)%nat →
      ∃ rows backend',
        master_run_on_worker (H := calm) fuel set_returning ["a"; "b"]
          [5432; 5433] ["SELECT 1"; "SELECT 2"] true idle
        = (Returned rows, backend')
        ∧ length rows = 2%nat
        ∧ ∀ i nodeName nodePort,
            ["a"; "b"] !! i = Some nodeName →
            [5432; 5433] !! i = Some nodePort →
            ∃ row,
              rows !! i = Some row
              ∧ node_name row = nodeName
              ∧ node_port row = nodePort.
Proof.
  assert (valid_call set_returning ["a"; "b"] [5432; 5433]
            ["SELECT 1"; "SELECT 2"]) as Hvalid.
  { apply valid_call_sample. split; reflexivity. }
  assert (no_interrupt (H := calm)) as Hquiet.
  { intros n. reflexivity. }
  assert (responsive (H := calm) ["a"; "b"] [5432; 5433] idle) as Hresponsive.
  { intros i nodeName nodePort _ _. exists 0%nat. right. right. reflexivity. }
  split; [exact Hvalid|]. split; [exact Hquiet|]. split; [exact Hresponsive|].
  apply (master_run_on_worker_rows (H := calm) set_returning ["a"; "b"]
           [5432; 5433] ["SELECT 1"; "SELECT 2"] true idle Hvalid Hquiet).
  intros _. exact Hresponsive.
Defined.


Lemma citus_check_cluster_node_health_matrix_witness :
  Forall (λ node, int32_ok (workerPort node)) [node_b; node_a]
  ∧ NoDup [node_b; node_a]
  ∧ all_reachable (H := calm)
  ∧ ∃ rows backend',
      citus_check_cluster_node_health (H := calm) [node_b; node_a] idle
      = (Returned rows, backend')
      ∧ length rows = 4%nat
      ∧ row_pair <$> rows
        = [(node_a, node_a); (node_a, node_b); (node_b, node_a);
           (node_b, node_b)]
      ∧ NoDup (row_pair <$> rows)
      ∧ ∀ row, row ∈ rows → check_result row = Some true.
Proof.
  assert (Forall (λ node, int32_ok (workerPort node)) [node_b; node_a])
    as Hports.
  { repeat constructor; unfold int32_ok; simpl; lia. }
  assert (NoDup [node_b; node_a]) as Hnodes.
  { apply NoDup_cons. split.
    - intros Hin%list_elem_of_singleton. discriminate Hin.
    - apply NoDup_singleton. }
  assert (all_reachable (H := calm)) as Hreachable.
  { intros connection command n. split; reflexivity. }
  split; [exact Hports|]. split; [exact Hnodes|]. split; [exact Hreachable|].
  destruct (citus_check_cluster_node_health_matrix (H := calm)
              [node_b; node_a] idle)
    as (_ & _ & rows & backend' & Hrun & Hlength & _ & Hunique & Htrue).
  destruct (Hunique Hports) as [Hpairs Honce].
  exists rows, backend'. split; [exact Hrun|]. split; [exact Hlength|].
  split; [exact Hpairs|]. split; [exact (proj1 (Honce Hnodes))|].
  exact (Htrue Hreachable).
Defined.

Lemma citus_check_cluster_node_health_unknown_witness :
  unreachable_from_controller (H := node_down "b") node_b
  ∧ ∃ rows backend',
      citus_check_cluster_node_health (H := node_down "b") [node_a; node_b]
        idle
      = (Returned rows, backend')
      ∧ (∀ row, row ∈ rows → row_source row = node_b → check_result row = None)
      ∧ ∃ row,
          rows !! 1%nat = Some row
          ∧ row_pair row = (node_a, node_b)
          ∧ check_result row = Some false.
Proof.
  assert (unreachable_from_controller (H := node_down "b") node_b) as Hdown.
  { intros connection command n Hname _. simpl in *. rewrite Hname.
    discriminate. }
  split; [exact Hdown|].
  destruct (citus_check_cluster_node_health_unknown (H := node_down "b")
              [node_a; node_b] idle)
    as (rows & backend' & Hrun & Hrows & Hunknown).
  exists rows, backend'. split; [exact Hrun|]. split.
  - intros row Hrow Hsource. exact (Hunknown node_b row Hdown Hrow Hsource).
  - destruct (Hrows 0%nat 1%nat node_a node_b eq_refl eq_refl)
      as (row & Hrow & Hpair & _ & _ & Hanswered).
    exists row. split; [exact Hrow|]. split; [exact Hpair|].
    exact (Hanswered eq_refl).
Defined.

Lemma ParseCommandParameters_arrays_witness :
  same_length ["a"; "b"] [5432; 5433] ["SELECT 1"; "SELECT 2"]
  ∧ ParseCommandParameters ["a"; "b"] [5432; 5433]
      ["SELECT 1"; "SELECT 2"] idle
    = (Returned (2, ["a"; "b"], [5432; 5433], ["SELECT 1"; "SELECT 2"]),
       idle).
Proof.
  assert (same_length ["a"; "b"] [5432; 5433] ["SELECT 1"; "SELECT 2"])
    as Hsame.
  { split; reflexivity. }
  split; [exact Hsame|].
  exact (ParseCommandParameters_arrays ["a"; "b"] [5432; 5433]
           ["SELECT 1"; "SELECT 2"] idle Hsame).
Defined.

Lemma citus_check_connection_to_node_probe_witness :
  int32_ok 5432
  ∧ citus_check_connection_to_node (H := calm) "a" 5432 idle
    = (Returned true,
       {| eventLog := [Requested 0 (handle_for 0 "a" 5432);
                       Executed (handle_for 0 "a" 5432) "SELECT 1"];
          handlesIssued := 1;
          interruptChecks := 0;
          commandsExecuted := 1 |}).
Proof.
  assert (int32_ok 5432) as Hport.
  { unfold int32_ok. simpl. lia. }
  split; [exact Hport|].
  exact (citus_check_connection_to_node_probe (H := calm) "a" 5432 idle
           Hport).
Defined.

Lemma GetConnectivityCheckCommand_inj_witness :
  int32_ok 5432
  ∧ GetConnectivityCheckCommand "a" 5432 = GetConnectivityCheckCommand "a" 5432
  ∧ "a" = "a" ∧ 5432 = 5432.
Proof.
  assert (int32_ok 5432) as Hport.
  { unfold int32_ok. simpl. lia. }
  split; [exact Hport|]. split; [reflexivity|].
  exact (GetConnectivityCheckCommand_inj "a" 5432 "a" 5432 Hport Hport
           eq_refl).
Defined.

Lemma sequential_run_accounting_witness :
  valid_call set_returning ["a"; "b"] [5432; 5433] ["SELECT 1"; "SELECT 2"]
  ∧ (∀ j, (j < 2)%nat →
       InterruptPending (RemoteEnv := node_down "b") (0 + j) = false)
  ∧ ∃ rows backend',
      master_run_on_worker (H := node_down "b") 0 set_returning ["a"; "b"]
        [5432; 5433] ["SELECT 1"; "SELECT 2"] false idle
      = (Returned rows, backend')
      ∧ length rows = 2%nat
      ∧ handlesIssued backend' = 2%nat
      ∧ interruptChecks backend' = 2%nat
      ∧ eventLog backend'
        = [Requested FORCE_NEW_CONNECTION (handle_for 0 "a" 5432);
           Sent (handle_for 0 "a" 5432) "SELECT 1";
           Closed (handle_for 0 "a" 5432);
           Requested FORCE_NEW_CONNECTION (handle_for 1 "b" 5433)].
Proof.
  assert (valid_call set_returning ["a"; "b"] [5432; 5433]
            ["SELECT 1"; "SELECT 2"]) as Hvalid.
  { apply valid_call_sample. split; reflexivity. }
  assert (∀ j, (j < 2)%nat →
            InterruptPending (RemoteEnv := node_down "b") (0 + j) = false)
    as Hquiet.
  { intros j _. reflexivity. }
  split; [exact Hvalid|]. split; [exact Hquiet|].
  exact (sequential_run_accounting (H := node_down "b") 0 set_returning
           ["a"; "b"] [5432; 5433] ["SELECT 1"; "SELECT 2"] idle Hvalid
           Hquiet).
Defined.

Lemma sequential_cancellation_witness :
  valid_call set_returning ["a"; "b"; "c"] [5432; 5432; 5432]
    ["SELECT 1"; "SELECT 2"; "SELECT 3"]
  ∧ (1 < 3)%nat
  ∧ (∀ j, (j < 1)%nat →
       InterruptPending (RemoteEnv := cancelled_at 1) (0 + j) = false)
  ∧ InterruptPending (RemoteEnv := cancelled_at 1) (0 + 1) = true
  ∧ ∃ backend',
      master_run_on_worker (H := cancelled_at 1) 0 set_returning
        ["a"; "b"; "c"] [5432; 5432; 5432]
        ["SELECT 1"; "SELECT 2"; "SELECT 3"] false idle
      = (Raised QueryCanceled, backend')
      ∧ handlesIssued backend' = 2%nat
      ∧ interruptChecks backend' = 2%nat
      ∧ eventLog backend'
        = [Requested FORCE_NEW_CONNECTION (handle_for 0 "a" 5432);
           Sent (handle_for 0 "a" 5432) "SELECT 1";
           Closed (handle_for 0 "a" 5432);
           Requested FORCE_NEW_CONNECTION (handle_for 1 "b" 5432);
           Sent (handle_for 1 "b" 5432) "SELECT 2";
           Closed (handle_for 1 "b" 5432)].
Proof.
  assert (valid_call set_returning ["a"; "b"; "c"] [5432; 5432; 5432]
            ["SELECT 1"; "SELECT 2"; "SELECT 3"]) as Hvalid.
  { apply valid_call_sample. split; reflexivity. }
  assert (1 < 3)%nat as Hn by lia.
  assert (∀ j, (j < 1)%nat →
            InterruptPending (RemoteEnv := cancelled_at 1) (0 + j) = false)
    as Hquiet.
  { intros j Hj. destruct j as [|j]; [reflexivity|lia]. }
  assert (InterruptPending (RemoteEnv := cancelled_at 1) (0 + 1) = true)
    as Hpending.
  { reflexivity. }
  split; [exact Hvalid|]. split; [exact Hn|]. split; [exact Hquiet|].
  split; [exact Hpending|].
  exact (sequential_cancellation (H := cancelled_at 1) 0 set_returning
           ["a"; "b"; "c"] [5432; 5432; 5432]
           ["SELECT 1"; "SELECT 2"; "SELECT 3"] idle 1 Hvalid Hn Hquiet
           Hpending).
Defined.

Lemma parallel_nothing_to_poll_witness :
  valid_call set_returning ["a"; "b"] [5432; 5433] ["SELECT 1"; "SELECT 2"]
  ∧ (∀ i, (i < 2)%nat →
       PQstatus (RemoteEnv := send_fails)
         (handle_for (0 + i) (["a"; "b"] !!! i) ([5432; 5433] !!! i))
       ≠ CONNECTION_OK
       ∨ querySentAnswer (RemoteEnv := send_fails)
           (handle_for (0 + i) (["a"; "b"] !!! i) ([5432; 5433] !!! i))
           (["SELECT 1"; "SELECT 2"] !!! i) = 0)
  ∧ ∃ rows backend' events,
      master_run_on_worker (H := send_fails) 0 set_returning ["a"; "b"]
        [5432; 5433] ["SELECT 1"; "SELECT 2"] true idle
      = (Returned rows, backend')
      ∧ length rows = 2%nat
      ∧ (∀ i row, rows !! i = Some row → success row = false)
      ∧ interruptChecks backend' = 0%nat
      ∧ eventLog backend' = [] ++ events
      ∧ slept_in events = [].
Proof.
  assert (valid_call set_returning ["a"; "b"] [5432; 5433]
            ["SELECT 1"; "SELECT 2"]) as Hvalid.
  { apply valid_call_sample. split; reflexivity. }
  assert (∀ i, (i < 2)%nat →
            PQstatus (RemoteEnv := send_fails)
              (handle_for (0 + i) (["a"; "b"] !!! i) ([5432; 5433] !!! i))
            ≠ CONNECTION_OK
            ∨ querySentAnswer (RemoteEnv := send_fails)
                (handle_for (0 + i) (["a"; "b"] !!! i) ([5432; 5433] !!! i))
                (["SELECT 1"; "SELECT 2"] !!! i) = 0) as Hfailed.
  { intros i _. right. reflexivity. }
  split; [exact Hvalid|]. split; [exact Hfailed|].
  exact (parallel_nothing_to_poll (H := send_fails) 0 set_returning
           ["a"; "b"] [5432; 5433] ["SELECT 1"; "SELECT 2"] idle Hvalid
           Hfailed).
Defined.

Lemma parallel_cancellation_witness :
  valid_call set_returning ["a"; "b"] [5432; 5433] ["SELECT 1"; "SELECT 2"]
  ∧ (0 < 1)%nat
  ∧ (0 < 2)%nat
  ∧ PQstatus (RemoteEnv := cancelled) (handle_for 0 "a" 5432) = CONNECTION_OK
  ∧ querySentAnswer (RemoteEnv := cancelled) (handle_for 0 "a" 5432)
      "SELECT 1" ≠ 0
  ∧ InterruptPending (RemoteEnv := cancelled) 0 = true
  ∧ ∃ backend' events,
      master_run_on_worker (H := cancelled) 1 set_returning ["a"; "b"]
        [5432; 5433] ["SELECT 1"; "SELECT 2"] true idle
      = (Raised QueryCanceled, backend')
      ∧ handlesIssued backend' = 2%nat
      ∧ interruptChecks backend' = 1%nat
      ∧ eventLog backend' = [] ++ events
      ∧ requested_in events
        = [handle_for 0 "a" 5432; handle_for 1 "b" 5433]
      ∧ slept_in events = [].
Proof.
  assert (valid_call set_returning ["a"; "b"] [5432; 5433]
            ["SELECT 1"; "SELECT 2"]) as Hvalid.
  { apply valid_call_sample. split; reflexivity. }
  assert (0 < 1)%nat as Hfuel by lia.
  assert (0 < 2)%nat as Hi by lia.
  assert (PQstatus (RemoteEnv := cancelled) (handle_for 0 "a" 5432)
          = CONNECTION_OK) as Hgood.
  { reflexivity. }
  assert (querySentAnswer (RemoteEnv := cancelled) (handle_for 0 "a" 5432)
            "SELECT 1" ≠ 0) as Hsent.
  { discriminate. }
  assert (InterruptPending (RemoteEnv := cancelled) 0 = true) as Hpending.
  { reflexivity. }
  split; [exact Hvalid|]. split; [exact Hfuel|]. split; [exact Hi|].
  split; [exact Hgood|]. split; [exact Hsent|]. split; [exact Hpending|].
  exact (parallel_cancellation (H := cancelled) 1 set_returning ["a"; "b"]
           [5432; 5433] ["SELECT 1"; "SELECT 2"] idle 0 Hvalid Hfuel Hi Hgood
           Hsent Hpending).
Defined.

Lemma parallel_sweeps_and_sleeps_witness :
  valid_call set_returning ["a"; "b"] [5432; 5433] ["SELECT 1"; "SELECT 2"]
  ∧ (0 < 2)%nat
  ∧ PQstatus (RemoteEnv := slow) (handle_for 0 "a" 5432) = CONNECTION_OK
  ∧ querySentAnswer (RemoteEnv := slow) (handle_for 0 "a" 5432) "SELECT 1"
    ≠ 0
  ∧ ∃ outcome backend' events,
      master_run_on_worker (H := slow) 5 set_returning ["a"; "b"]
        [5432; 5433] ["SELECT 1"; "SELECT 2"] true idle
      = (outcome, backend')
      ∧ eventLog backend' = [] ++ events
      ∧ (outcome ≠ OutOfFuel →
           interruptChecks backend'
           = (0 + S (length (slept_in events)))%nat).
Proof.
  assert (valid_call set_returning ["a"; "b"] [5432; 5433]
            ["SELECT 1"; "SELECT 2"]) as Hvalid.
  { apply valid_call_sample. split; reflexivity. }
  assert (0 < 2)%nat as Hi by lia.
  assert (PQstatus (RemoteEnv := slow) (handle_for 0 "a" 5432)
          = CONNECTION_OK) as Hgood.
  { reflexivity. }
  assert (querySentAnswer (RemoteEnv := slow) (handle_for 0 "a" 5432)
            "SELECT 1" ≠ 0) as Hsent.
  { discriminate. }
  split; [exact Hvalid|]. split; [exact Hi|]. split; [exact Hgood|].
  split; [exact Hsent|].
  exact (parallel_sweeps_and_sleeps (H := slow) 5 set_returning ["a"; "b"]
           [5432; 5433] ["SELECT 1"; "SELECT 2"] idle 0 Hvalid Hi Hgood
           Hsent).
Defined.

Lemma parallel_phase_order_witness :
  valid_call set_returning ["a"; "b"] [5432; 5433] ["SELECT 1"; "SELECT 2"]
  ∧ ∃ outcome backend' polled,
      master_run_on_worker (H := node_down "b") 1 set_returning ["a"; "b"]
        [5432; 5433] ["SELECT 1"; "SELECT 2"] true idle
      = (outcome, backend')
      ∧ handlesIssued backend' = 2%nat
      ∧ eventLog backend'
        = [Requested FORCE_NEW_CONNECTION (handle_for 0 "a" 5432);
           Requested FORCE_NEW_CONNECTION (handle_for 1 "b" 5433);
           Sent (handle_for 0 "a" 5432) "SELECT 1"]
          ++ polled
      ∧ Forall settling_event polled.
Proof.
  assert (valid_call set_returning ["a"; "b"] [5432; 5433]
            ["SELECT 1"; "SELECT 2"]) as Hvalid.
  { apply valid_call_sample. split; reflexivity. }
  split; [exact Hvalid|].
  exact (parallel_phase_order (H := node_down "b") 1 set_returning
           ["a"; "b"] [5432; 5433] ["SELECT 1"; "SELECT 2"] idle Hvalid).
Defined.

Lemma master_run_on_worker_send_failure_witness :
  valid_call set_returning ["a"] [5432] ["SELECT 1"]
  ∧ Forall int32_ok [5432]
  ∧ no_interrupt (H := send_fails)
  ∧ responsive (H := send_fails) ["a"] [5432] idle
  ∧ (∀ parallel,
       ∃ enough, ∀ fuel, (enough ≤ fuel)%nat →
         ∃ rows backend',
           master_run_on_worker (H := send_fails) fuel set_returning ["a"]
             [5432] ["SELECT 1"] parallel idle
           = (Returned rows, backend')
           ∧ rows !! 0%nat
             = Some {| node_name := "a"; node_port := 5432; success := false;
                       result := if parallel
                                 then "no connection to the server"
                                 else "failed to send query to a:5432" |}).
Proof.
  assert (valid_call set_returning ["a"] [5432] ["SELECT 1"]) as Hvalid.
  { apply valid_call_sample. split; reflexivity. }
  assert (Forall int32_ok [5432]) as Hrange.
  { repeat constructor; unfold int32_ok; simpl; lia. }
  assert (no_interrupt (H := send_fails)) as Hquiet.
  { intros n. reflexivity. }
  assert (responsive (H := send_fails) ["a"] [5432] idle) as Hresponsive.
  { intros i nodeName nodePort _ _. exists 0%nat. left. reflexivity. }
  split; [exact Hvalid|]. split; [exact Hrange|]. split; [exact Hquiet|].
  split; [exact Hresponsive|]. intros parallel.
  destruct (master_run_on_worker_send_failure (H := send_fails) set_returning
              ["a"] [5432] ["SELECT 1"] parallel idle Hvalid Hrange Hquiet
              (λ _, Hresponsive)) as [enough Henough].
  exists enough. intros fuel Hfuel.
  destruct (Henough fuel Hfuel) as (rows & backend' & Hrun & Hfailed).
  exists rows, backend'. split; [exact Hrun|].
  rewrite (Hfailed 0%nat "a" 5432 "SELECT 1" eq_refl eq_refl eq_refl eq_refl
             eq_refl).
  destruct parallel; reflexivity.
Defined.

Lemma master_run_on_worker_success_witness :
  valid_call set_returning ["a"] [5432] ["SELECT 1"]
  ∧ Forall int32_ok [5432]
  ∧ no_interrupt (H := calm)
  ∧ responsive (H := calm) ["a"] [5432] idle
  ∧ ∃ enough, ∀ fuel, (enough ≤ fuel)%nat →
      ∃ rows backend',
        master_run_on_worker (H := calm) fuel set_returning ["a"] [5432]
          ["SELECT 1"] true idle
        = (Returned rows, backend')
        ∧ ∀ row,
            rows !! 0%nat = Some row → success row = true →
            querySentAnswer (RemoteEnv := calm) (handle_for 0 "a" 5432)
              "SELECT 1" ≠ 0.
Proof.
  assert (valid_call set_returning ["a"] [5432] ["SELECT 1"]) as Hvalid.
  { apply valid_call_sample. split; reflexivity. }
  assert (Forall int32_ok [5432]) as Hrange.
  { repeat constructor; unfold int32_ok; simpl; lia. }
  assert (no_interrupt (H := calm)) as Hquiet.
  { intros n. reflexivity. }
  assert (responsive (H := calm) ["a"] [5432] idle) as Hresponsive.
  { intros i nodeName nodePort _ _. exists 0%nat. right. right. reflexivity. }
  split; [exact Hvalid|]. split; [exact Hrange|]. split; [exact Hquiet|].
  split; [exact Hresponsive|].
  destruct (master_run_on_worker_success (H := calm) set_returning ["a"]
              [5432] ["SELECT 1"] true idle Hvalid Hrange Hquiet
              (λ _, Hresponsive)) as [enough Henough].
  exists enough. intros fuel Hfuel.
  destruct (Henough fuel Hfuel) as (rows & backend' & Hrun & Hsuccess).
  exists rows, backend'. split; [exact Hrun|].
  intros row Hrow Htrue.
  exact (proj1 (proj2 (Hsuccess 0%nat "a" 5432 "SELECT 1" row eq_refl eq_refl
                         eq_refl Hrow Htrue))).
Defined.

Lemma parallel_first_answer_witness :
  valid_call set_returning ["a"] [5432] ["SELECT 1"]
  ∧ no_interrupt (H := slow)
  ∧ responsive (H := slow) ["a"] [5432] idle
  ∧ ∃ enough, ∀ fuel, (enough ≤ fuel)%nat →
      ∃ rows backend',
        master_run_on_worker (H := slow) fuel set_returning ["a"] [5432]
          ["SELECT 1"] true idle
        = (Returned rows, backend')
        ∧ rows !! 0%nat
          = Some {| node_name := "a"; node_port := 5432; success := true;
                    result := "1" |}.
Proof.
  assert (valid_call set_returning ["a"] [5432] ["SELECT 1"]) as Hvalid.
  { apply valid_call_sample. split; reflexivity. }
  assert (no_interrupt (H := slow)) as Hquiet.
  { intros n. reflexivity. }
  assert (responsive (H := slow) ["a"] [5432] idle) as Hresponsive.
  { intros i nodeName nodePort _ _. exists 2%nat. right. right. reflexivity. }
  split; [exact Hvalid|]. split; [exact Hquiet|]. split; [exact Hresponsive|].
  destruct (parallel_first_answer (H := slow) set_returning ["a"] [5432]
              ["SELECT 1"] idle Hvalid Hquiet Hresponsive)
    as [enough Henough].
  exists enough. intros fuel Hfuel.
  destruct (Henough fuel Hfuel) as (rows & backend' & Hrun & Hfirst).
  exists rows, backend'. split; [exact Hrun|].
  apply (Hfirst 0%nat "a" 5432 "SELECT 1" 2%nat eq_refl eq_refl eq_refl).
  - reflexivity.
  - discriminate.
  - split; [right; right; reflexivity|].
    intros earlier Hearlier [Hbad|[Hread|Hbusy]]; [discriminate..|].
    destruct earlier as [|[|earlier]]; [discriminate..|lia].
Defined.

Lemma master_run_on_worker_modes_agree_witness :
  valid_call set_returning ["a"; "b"] [5432; 5433] ["SELECT 1"; "SELECT 2"]
  ∧ Forall int32_ok [5432; 5433]
  ∧ no_interrupt (H := node_down "b")
  ∧ responsive (H := node_down "b") ["a"; "b"] [5432; 5433] idle
  ∧ (∀ i nodeName nodePort command,
       ["a"; "b"] !! i = Some nodeName → [5432; 5433] !! i = Some nodePort →
       ["SELECT 1"; "SELECT 2"] !! i = Some command →
       PQstatus (RemoteEnv := node_down "b")
         (handle_for (0 + i) nodeName nodePort) ≠ CONNECTION_OK
       ∨ (querySentAnswer (RemoteEnv := node_down "b")
            (handle_for (0 + i) nodeName nodePort) command ≠ 0
          ∧ steady (H := node_down "b")
              (handle_for (0 + i) nodeName nodePort)))
  ∧ ∃ enough, ∀ fuel, (enough ≤ fuel)%nat →
      ∃ rows inParallel inSequence,
        master_run_on_worker (H := node_down "b") fuel set_returning
          ["a"; "b"] [5432; 5433] ["SELECT 1"; "SELECT 2"] true idle
        = (Returned rows, inParallel)
        ∧ master_run_on_worker (H := node_down "b") fuel set_returning
            ["a"; "b"] [5432; 5433] ["SELECT 1"; "SELECT 2"] false idle
          = (Returned rows, inSequence).
Proof.
  assert (valid_call set_returning ["a"; "b"] [5432; 5433]
            ["SELECT 1"; "SELECT 2"]) as Hvalid.
  { apply valid_call_sample. split; reflexivity. }
  assert (Forall int32_ok [5432; 5433]) as Hrange.
  { repeat constructor; unfold int32_ok; simpl; lia. }
  assert (no_interrupt (H := node_down "b")) as Hquiet.
  { intros n. reflexivity. }
  assert (responsive (H := node_down "b") ["a"; "b"] [5432; 5433] idle)
    as Hresponsive.
  { intros i nodeName nodePort _ _. exists 0%nat. right. right. reflexivity. }
  assert (∀ i nodeName nodePort command,
            ["a"; "b"] !! i = Some nodeName →
            [5432; 5433] !! i = Some nodePort →
            ["SELECT 1"; "SELECT 2"] !! i = Some command →
            PQstatus (RemoteEnv := node_down "b")
              (handle_for (0 + i) nodeName nodePort) ≠ CONNECTION_OK
            ∨ (querySentAnswer (RemoteEnv := node_down "b")
                 (handle_for (0 + i) nodeName nodePort) command ≠ 0
               ∧ steady (H := node_down "b")
                   (handle_for (0 + i) nodeName nodePort))) as Hsteady.
  { intros i nodeName nodePort command _ _ _. right.
    split; [discriminate|]. intros sweep.
    split; [discriminate|]. split; [discriminate|reflexivity]. }
  split; [exact Hvalid|]. split; [exact Hrange|]. split; [exact Hquiet|].
  split; [exact Hresponsive|]. split; [exact Hsteady|].
  exact (master_run_on_worker_modes_agree (H := node_down "b") set_returning
           ["a"; "b"] [5432; 5433] ["SELECT 1"; "SELECT 2"] idle Hvalid
           Hrange Hquiet Hresponsive Hsteady).
Defined.

Lemma master_run_on_worker_empty_witness :
  valid_call set_returning [] [] []
  ∧ master_run_on_worker (H := cancelled) 0 set_returning [] [] [] true idle
    = (Returned [], idle).
Proof.
  assert (valid_call set_returning [] [] []) as Hvalid.
  { apply valid_call_sample. split; reflexivity. }
  split; [exact Hvalid|].
  exact (master_run_on_worker_empty (H := cancelled) 0 set_returning true idle
           Hvalid).
Defined.

Lemma first_response_slow connection :
  first_response (H := slow) connection 2.
Proof.
  split; [right; right; reflexivity|].
  intros earlier Hearlier [Hbad|[Hread|Hbusy]]; [discriminate..|].
  destruct earlier as [|[|earlier]]; [discriminate..|lia].
Defined.

Lemma parallel_sweep_count_witness :
  valid_call set_returning ["a"; "b"] [5432; 5433] ["SELECT 1"; "SELECT 2"]
  ∧ (0 < 2)%nat
  ∧ (PQstatus (RemoteEnv := slow) (handle_for 0 "a" 5432) = CONNECTION_OK
     ∧ querySentAnswer (RemoteEnv := slow) (handle_for 0 "a" 5432) "SELECT 1"
       ≠ 0)
  ∧ first_response (H := slow) (handle_for 0 "a" 5432) 2
  ∧ (∀ j, (j ≤ 2)%nat → InterruptPending (RemoteEnv := slow) (0 + j) = false)
  ∧ (2 < 3)%nat
  ∧ ∃ rows backend' events,
      master_run_on_worker (H := slow) 3 set_returning ["a"; "b"]
        [5432; 5433] ["SELECT 1"; "SELECT 2"] true idle
      = (Returned rows, backend')
      ∧ length rows = 2%nat
      ∧ interruptChecks backend' = 3%nat
      ∧ eventLog backend' = [] ++ events
      ∧ length (slept_in events) = 2%nat.
Proof.
  assert (valid_call set_returning ["a"; "b"] [5432; 5433]
            ["SELECT 1"; "SELECT 2"]) as Hvalid.
  { apply valid_call_sample. split; reflexivity. }
  assert (0 < 2)%nat as Hslowest by lia.
  assert (PQstatus (RemoteEnv := slow) (handle_for 0 "a" 5432)
          = CONNECTION_OK
          ∧ querySentAnswer (RemoteEnv := slow) (handle_for 0 "a" 5432)
              "SELECT 1" ≠ 0) as Hsent.
  { split; [reflexivity|discriminate]. }
  assert (∀ j, (j ≤ 2)%nat →
            InterruptPending (RemoteEnv := slow) (0 + j) = false) as Hquiet.
  { intros j _. reflexivity. }
  assert (2 < 3)%nat as Hfuel by lia.
  split; [exact Hvalid|]. split; [exact Hslowest|]. split; [exact Hsent|].
  split; [apply first_response_slow|]. split; [exact Hquiet|].
  split; [exact Hfuel|].
  apply (parallel_sweep_count (H := slow) 3 set_returning ["a"; "b"]
           [5432; 5433] ["SELECT 1"; "SELECT 2"] idle 0 2 Hvalid Hslowest
           Hsent (first_response_slow _)); [|exact Hquiet|exact Hfuel].
  intros i _ _. exists 2%nat. split; [lia|apply first_response_slow].
Defined.
